(** * pycontainer: a shallow embedding of [main.py]

    The program provisions a cgroup v2 resource group and a BusyBox root
    filesystem, launches a command under [unshare ... chroot], and tears
    both down again.  Every method of [CGroupManager], [RootFSManager] and
    [Container] is transcribed below as a computation in a small monad that
    threads the host state, records an strace-like trace of the library
    calls made, and propagates Python exceptions.

    Modelling conventions for the host (the part that is not Python code):
    - a path is the list of its components; [".."] is an ordinary name and
      symbolic links are followed at the last component only;
    - a cgroup directory is one node holding the text last written to each
      of its interface files and the pids enrolled through [cgroup.procs];
    - every library call that can fail first consults a list of injected
      errors (one entry per call), so that theorems quantified over all
      machines cover permission problems, full disks, busy mounts and the
      like; when nothing is injected the call behaves as described by its
      semantic function;
    - a path with a NUL byte never reaches the kernel: Python raises
      [ValueError] where it would ask.  A call that the host fails and that
      was handed such a path, naming nothing in the tree (as it does in
      every real tree), is therefore recorded as refused and raises
      [ValueError], not [OSError]; likewise a program that could not be
      started because an argument holds a NUL byte.  A real host fails
      every such call, so a machine with no error to inject stands for a
      host on which the names in play hold no NUL byte;
    - existence tests ([os.path.exists], [Path.exists]) read the tree and
      never fail, and neither does [print]; [KeyboardInterrupt] arrives
      only while [subprocess.run] waits for a child;
    - [tempfile.mkdtemp] allocates under [/tmp] from a list of candidate
      suffixes, [os.getpid] and the outcome of [subprocess.run] are read
      from the machine; a launched process does not modify the host tree;
    - strings are byte strings.  The text of a captured output is its
      UTF-8 decoding, kept in that encoding: output that is not UTF-8 makes
      [subprocess.run(text=True)] raise [UnicodeDecodeError], and [strip],
      [split] and [splitlines] recognise the white space and line
      boundaries of [str], whichever number of bytes they take;
    - the text [str(e)] of an exception raised by library code (an
      [OSError] with the file names the library appends, a [ValueError])
      is the library's choice and is read from the machine. *)

From Stdlib Require Import ZArith String Ascii List.
From Stdlib Require Import Decimal DecimalString DecimalPos DecimalZ.
From stdpp Require Import gmap strings list fin_maps.

Local Open Scope Z_scope.

(** ** Python string helpers *)

Module Py.

(** [str(n)] for an [int]. *)
Definition str (z : Z) : string := NilZero.string_of_int (Z.to_int z).

(** [int(s)] restricted to plain decimal numerals. *)
Definition int (s : string) : option Z := Z.of_int <$> NilZero.int_of_string s.

(** [s * n] *)
Fixpoint repeat (s : string) (n : nat) : string :=
  match n with
  | O => EmptyString
  | S k => s +:+ repeat s k
  end.

(** [s.startswith(pre)] *)
Fixpoint startswith (s pre : string) {struct pre} : bool :=
  match pre, s with
  | EmptyString, _ => true
  | String a pre', String b s' => Ascii.eqb a b && startswith s' pre'
  | String _ _, EmptyString => false
  end.

(** [sub in s] *)
Fixpoint contains (sub s : string) : bool :=
  startswith s sub ||
  match s with
  | EmptyString => false
  | String _ s' => contains sub s'
  end.

Definition snoc (s : string) (c : ascii) : string := s +:+ String c EmptyString.

(** [s.split(sep)] for a non-empty separator: [skip] counts the bytes of a
    separator that has just been recognised and is being stepped over. *)
Fixpoint split_from (sep s cur : string) (skip : nat) : list string :=
  match s with
  | EmptyString => [cur]
  | String c s' =>
      match skip with
      | S k => split_from sep s' cur k
      | O =>
          if startswith s sep
          then cur :: split_from sep s' EmptyString (Nat.pred (String.length sep))
          else split_from sep s' (snoc cur c) O
      end
  end.

Definition split_on (sep s : string) : list string := split_from sep s EmptyString O.

(** [c.isspace()] for a character of one byte: U+0009 to U+000D and
    U+001C to U+0020. *)
Definition isspace (c : ascii) : bool :=
  let n := nat_of_ascii c in
  ((9 <=? n)%nat && (n <=? 13)%nat) || ((28 <=? n)%nat && (n <=? 32)%nat).

(** [s.lstrip('/')] *)
Fixpoint lstrip_slash (s : string) : string :=
  match s with
  | String "/" s' => lstrip_slash s'
  | _ => s
  end.

Definition nonempty (s : string) : bool :=
  match s with EmptyString => false | _ => true end.

(** A line boundary of one byte: LF, VT, FF, CR, FS, GS, RS. *)
Definition is_linebreak (c : ascii) : bool :=
  let n := nat_of_ascii c in
  ((10 <=? n)%nat && (n <=? 13)%nat) || ((28 <=? n)%nat && (n <=? 30)%nat).

(** The three-byte white space of [str]: U+1680, U+2000 to U+200A, U+2028,
    U+2029, U+202F, U+205F and U+3000 in UTF-8. *)
Definition wide_space (c d e : ascii) : bool :=
  let n := nat_of_ascii e in
  (Ascii.eqb c "225" && Ascii.eqb d "154" && Ascii.eqb e "128")
  || (Ascii.eqb c "226" && Ascii.eqb d "128"
      && (((128 <=? n)%nat && (n <=? 138)%nat)
          || Ascii.eqb e "168" || Ascii.eqb e "169" || Ascii.eqb e "175"))
  || (Ascii.eqb c "226" && Ascii.eqb d "129" && Ascii.eqb e "159")
  || (Ascii.eqb c "227" && Ascii.eqb d "128" && Ascii.eqb e "128").

(** The number of bytes of the white-space character [s] begins with, [0]
    when it begins with none.  The two-byte ones are U+0085 and U+00A0. *)
Definition space_width (s : string) : nat :=
  match s with
  | EmptyString => 0
  | String c s1 =>
      if isspace c then 1
      else
        match s1 with
        | EmptyString => 0
        | String d s2 =>
            if Ascii.eqb c "194"
            then (if Ascii.eqb d "133" || Ascii.eqb d "160" then 2 else 0)
            else
              match s2 with
              | EmptyString => 0
              | String e _ => if wide_space c d e then 3 else 0
              end
        end
  end%nat.

(** The number of bytes of the line boundary [s] begins with: the
    one-byte ones, U+0085, U+2028 and U+2029. *)
Definition break_width (s : string) : nat :=
  match s with
  | EmptyString => 0
  | String c s1 =>
      if is_linebreak c then 1
      else
        match s1 with
        | EmptyString => 0
        | String d s2 =>
            if Ascii.eqb c "194" && Ascii.eqb d "133" then 2
            else
              match s2 with
              | EmptyString => 0
              | String e _ =>
                  if Ascii.eqb c "226" && Ascii.eqb d "128"
                     && (Ascii.eqb e "168" || Ascii.eqb e "169")
                  then 3 else 0
              end
        end
  end%nat.

(** [s.lstrip()]: [skip] counts the bytes still to be stepped over of a
    white-space character that has been recognised. *)
Fixpoint lstrip_from (s : string) (skip : nat) : string :=
  match s with
  | EmptyString => EmptyString
  | String c s' =>
      match skip with
      | S k => lstrip_from s' k
      | O =>
          match space_width s with
          | O => s
          | S k => lstrip_from s' k
          end
      end
  end.

Definition lstrip (s : string) : string := lstrip_from s O.

(** [s.rstrip()]: cut where nothing but white space follows. *)
Fixpoint rstrip (s : string) : string :=
  match s with
  | EmptyString => EmptyString
  | String c s' => if nonempty (lstrip s) then String c (rstrip s') else EmptyString
  end.

Definition strip (s : string) : string := rstrip (lstrip s).

(** [s.split()] : maximal runs of characters that are not white space. *)
Fixpoint words_from (s cur : string) (skip : nat) : list string :=
  match s with
  | EmptyString => if nonempty cur then [cur] else []
  | String c s' =>
      match skip with
      | S k => words_from s' cur k
      | O =>
          match space_width s with
          | S k =>
              if nonempty cur then cur :: words_from s' EmptyString k
              else words_from s' EmptyString k
          | O => words_from s' (snoc cur c) O
          end
      end
  end.

Definition split (s : string) : list string := words_from s EmptyString O.

(** [s.splitlines()] : a CR LF pair is one boundary, a final boundary
    opens no further line. *)
Fixpoint lines_from (s cur : string) (after_cr : bool) (skip : nat) : list string :=
  match s with
  | EmptyString => if nonempty cur then [cur] else []
  | String c s' =>
      match skip with
      | S k => lines_from s' cur false k
      | O =>
          if after_cr && Ascii.eqb c "010" then lines_from s' cur false O
          else
            match break_width s with
            | S k => cur :: lines_from s' EmptyString (Ascii.eqb c "013") k
            | O => lines_from s' (snoc cur c) false O
            end
      end
  end.

Definition splitlines (s : string) : list string := lines_from s EmptyString false O.

Definition in_range (lo hi : nat) (c : ascii) : bool :=
  ((lo <=? nat_of_ascii c) && (nat_of_ascii c <=? hi))%nat.

(** [bytes.decode('utf-8')] succeeds: every character is well formed, in
    its shortest form, no surrogate and at most U+10FFFF.  [pend] lists the
    ranges in which the bytes that complete the current character must
    lie. *)
Fixpoint utf8_from (s : string) (pend : list (nat * nat)) : bool :=
  match s with
  | EmptyString => match pend with [] => true | _ => false end
  | String c s' =>
      match pend with
      | (lo, hi) :: rest => in_range lo hi c && utf8_from s' rest
      | [] =>
          if in_range 0 127 c then utf8_from s' []
          else if in_range 194 223 c then utf8_from s' [(128, 191)]
          else if in_range 224 224 c then utf8_from s' [(160, 191); (128, 191)]
          else if in_range 225 236 c then utf8_from s' [(128, 191); (128, 191)]
          else if in_range 237 237 c then utf8_from s' [(128, 159); (128, 191)]
          else if in_range 238 239 c then utf8_from s' [(128, 191); (128, 191)]
          else if in_range 240 240 c
               then utf8_from s' [(144, 191); (128, 191); (128, 191)]
          else if in_range 241 243 c
               then utf8_from s' [(128, 191); (128, 191); (128, 191)]
          else if in_range 244 244 c
               then utf8_from s' [(128, 143); (128, 191); (128, 191)]
          else false
      end
  end%nat.

Definition utf8 (s : string) : bool := utf8_from s [].

(** There is a NUL byte in the string. *)
Fixpoint has_nul (s : string) : bool :=
  match s with
  | EmptyString => false
  | String c s' => Ascii.eqb c "000" || has_nul s'
  end.

(** The kernel's reading of what is written to an interface file: white
    space is told byte by byte. *)
Module Plain.

Fixpoint lstrip (s : string) : string :=
  match s with
  | EmptyString => EmptyString
  | String c s' => if isspace c then lstrip s' else s
  end.

Fixpoint rstrip (s : string) : string :=
  match s with
  | EmptyString => EmptyString
  | String c s' =>
      match rstrip s' with
      | EmptyString => if isspace c then EmptyString else String c EmptyString
      | r => String c r
      end
  end.

Definition strip (s : string) : string := rstrip (lstrip s).

End Plain.

(** [sep.join(l)] *)
Fixpoint join (sep : string) (l : list string) : string :=
  match l with
  | [] => EmptyString
  | [x] => x
  | x :: rest => x +:+ sep +:+ join sep rest
  end.

End Py.

(** ** Paths ([pathlib.PurePosixPath]) *)

Abbreviation path := (list string).

Definition keep_part (c : string) : bool :=
  Py.nonempty c && negb (String.eqb c ".").

(** Components of a path string: empty and ["."] parts are dropped. *)
Definition parts (s : string) : path :=
  List.filter keep_part (Py.split_on "/" s).

(** [Path(s)] for an absolute [s]. *)
Definition Path (s : string) : path := parts s.

(** [p / s] : an absolute right operand replaces the left one. *)
Definition joinpath (p : path) (s : string) : path :=
  if Py.startswith s "/" then parts s else p ++ parts s.

Infix "//" := joinpath (at level 40, left associativity).

(** [str(p)] *)
Definition path_str (p : path) : string := "/" +:+ Py.join "/" p.

(** [p.parent] *)
Definition parent (p : path) : path := removelast p.

(** [os.path.basename] of a path given as components. *)
Definition basename (p : path) : string := List.last p EmptyString.

(** [q] lies at or below [p]. *)
Definition under (p q : path) : bool := bool_decide (p `prefix_of` q).

(** ** Exceptions, events and the host machine *)

Inductive oserr :=
| EPERM | ENOENT | ESRCH | EIO | EACCES | EBUSY | EEXIST | ENOTDIR | EISDIR
| EINVAL | ENOSPC | ENOTEMPTY | ELOOP.

Inductive exn :=
| OSError (e : oserr)
| RuntimeError (msg : string)
| CalledProcessError (returncode : Z)
| TypeError
| IndexError
| KeyboardInterrupt
| ValueError
| UnicodeDecodeError.

(** [FileExistsError] is the [OSError] subclass raised for [EEXIST]. *)
Abbreviation FileExistsError := (OSError EEXIST).
Abbreviation FileNotFoundError := (OSError ENOENT).

(** [ValueError] is what Python raises for a path or a program argument
    with a NUL byte in it ("embedded null byte"); [UnicodeDecodeError] is
    its subclass raised when captured output cannot be decoded. *)

(** [isinstance(e, Exception)]: [KeyboardInterrupt] derives from
    [BaseException] only. *)
Definition is_Exception (e : exn) : bool :=
  match e with KeyboardInterrupt => false | _ => true end.

Definition is_OSError (e : exn) : bool :=
  match e with OSError _ => true | _ => false end.

Definition is_CalledProcessError (e : exn) : bool :=
  match e with CalledProcessError _ => true | _ => false end.

Definition errno (e : oserr) : Z :=
  match e with
  | EPERM => 1 | ENOENT => 2 | ESRCH => 3 | EIO => 5 | EACCES => 13
  | EBUSY => 16 | EEXIST => 17 | ENOTDIR => 20 | EISDIR => 21 | EINVAL => 22
  | ENOSPC => 28 | ENOTEMPTY => 39 | ELOOP => 40
  end.

Definition strerror (e : oserr) : string :=
  match e with
  | EPERM => "Operation not permitted" | ENOENT => "No such file or directory"
  | ESRCH => "No such process" | EIO => "Input/output error"
  | EACCES => "Permission denied" | EBUSY => "Device or resource busy"
  | EEXIST => "File exists" | ENOTDIR => "Not a directory"
  | EISDIR => "Is a directory" | EINVAL => "Invalid argument"
  | ENOSPC => "No space left on device" | ENOTEMPTY => "Directory not empty"
  | ELOOP => "Too many levels of symbolic links"
  end.

(** Nodes of the host tree. *)
Inductive node :=
| File (data : string)
| Dir
| Symlink (target : string)
| CGroup (files : gmap string string) (procs : list Z).

Abbreviation fsmap := (gmap path node).

Inductive sysop :=
| Mkdir (p : path) (parents : bool)
| WriteText (p : path) (data : string)
| Mkdtemp (prefix : string)
| Copy2 (src : string) (dst : path)
| Chmod (p : path) (mode : Z)
| SymlinkTo (link : path) (target : string)
| Rmdir (p : path)
| Rmtree (p : path).

(** What [subprocess.run] can do: the child ran and exited, the program
    could not be started, or the wait was interrupted from the keyboard. *)
Inductive proc_outcome :=
| Returned (returncode : Z) (stdout : string)
| SpawnFailed (e : oserr)
| Interrupted.

(** What is recorded: a method entered, a line printed, a library call
    with the error the kernel or the host answered, a library call that
    Python refused to make ([ValueError]), a program run and its fate, and
    the captured output of a program that could not be decoded. *)
Inductive event :=
| Call (method : string)
| Print (text : string)
| Sys (op : sysop) (err : option oserr)
| Exec (argv : list string) (out : proc_outcome)
| Refused (op : sysop)
| Garbled (argv : list string).

Record machine := Machine {
  fs : fsmap;
  cwd : path;
  faults : list (option oserr);
  tmp_names : list string;
  pid : Z;
  spawn : list string -> proc_outcome;
  (** the attribute [RootFSManager.rootfs]; [None] until [create] *)
  rootfs : option path;
  (** what a program writes to standard error *)
  stderr : list string -> string;
  (** [str(e)] for an exception raised by library code *)
  errtext : exn -> string
}.

Definition set_fs (f : fsmap) (s : machine) : machine :=
  Machine f (cwd s) (faults s) (tmp_names s) (pid s) (spawn s) (rootfs s)
    (stderr s) (errtext s).
Definition set_faults (l : list (option oserr)) (s : machine) : machine :=
  Machine (fs s) (cwd s) l (tmp_names s) (pid s) (spawn s) (rootfs s)
    (stderr s) (errtext s).
Definition set_tmp_names (l : list string) (s : machine) : machine :=
  Machine (fs s) (cwd s) (faults s) l (pid s) (spawn s) (rootfs s)
    (stderr s) (errtext s).
Definition set_rootfs (r : option path) (s : machine) : machine :=
  Machine (fs s) (cwd s) (faults s) (tmp_names s) (pid s) (spawn s) r
    (stderr s) (errtext s).

(** [str(e)].  The program words the message of its own [RuntimeError];
    every other exception that can reach a handler comes out of library
    code, which words it. *)
Definition exn_str (s : machine) (e : exn) : string :=
  match e with
  | RuntimeError msg => msg
  | KeyboardInterrupt => EmptyString
  | _ => errtext s e
  end.

(** ** Semantics of the file-system calls *)

Definition lstat (f : fsmap) (p : path) : option node :=
  match p with [] => Some Dir | _ => f !! p end.

(** Chase symbolic links at the last component, at most [fuel] times. *)
Fixpoint follow (fuel : nat) (f : fsmap) (p : path) : option path :=
  match lstat f p with
  | Some (Symlink t) =>
      match fuel with
      | O => None
      | S k => follow k f (parent p // t)
      end
  | _ => Some p
  end.

Definition MAXSYMLINKS : nat := 40.

Definition stat (f : fsmap) (p : path) : option node :=
  match follow MAXSYMLINKS f p with
  | Some q => lstat f q
  | None => None
  end.

(** [os.path.exists] and [Path.exists]: links are followed, so a dangling
    link does not exist. *)
Definition exists_ (f : fsmap) (p : path) : bool :=
  match stat f p with Some _ => true | None => false end.

Definition is_dir (f : fsmap) (p : path) : bool :=
  match stat f p with Some Dir | Some (CGroup _ _) => true | _ => false end.

(** No entry strictly below [p]. *)
Definition childless (f : fsmap) (p : path) : Prop :=
  map_Forall (fun q _ => under p q = true -> q = p) f.

#[global] Instance childless_dec f p : Decision (childless f p).
Proof. unfold childless. apply _. Defined.

(** [os.mkdir] *)
Definition os_mkdir (p : path) (f : fsmap) : oserr + fsmap :=
  match lstat f p with
  | Some _ => inl EEXIST
  | None =>
      match stat f (parent p) with
      | Some Dir => inr (<[p := Dir]> f)
      | Some (CGroup _ _) => inr (<[p := CGroup ∅ []]> f)
      | Some _ => inl ENOTDIR
      | None => inl ENOENT
      end
  end.

(** [Path.mkdir(exist_ok=True)] *)
Definition mkdir_sem (p : path) (f : fsmap) : oserr + fsmap :=
  match os_mkdir p f with
  | inl EEXIST => if is_dir f p then inr f else inl EEXIST
  | r => r
  end.

(** [Path.mkdir(parents=True, exist_ok=True)]: on a missing parent create
    the parent the same way and retry. *)
Fixpoint makedirs (fuel : nat) (p : path) (f : fsmap) : oserr + fsmap :=
  match mkdir_sem p f with
  | inl ENOENT =>
      match fuel, p with
      | S k, _ :: _ =>
          match makedirs k (parent p) f with
          | inr f' => mkdir_sem p f'
          | inl e => inl e
          end
      | _, _ => inl ENOENT
      end
  | r => r
  end.

(** A write to an interface file of the cgroup at [g]; the kernel trims
    the white space around a pid. *)
Definition cgroup_write (g : path) (files : gmap string string) (procs : list Z)
    (entry data : string) (f : fsmap) : oserr + fsmap :=
  if String.eqb entry "cgroup.procs"
  then match Py.int (Py.Plain.strip data) with
       | Some n => inr (<[g := CGroup files (n :: procs)]> f)
       | None => inl EINVAL
       end
  else inr (<[g := CGroup (<[entry := data]> files) procs]> f).

(** [open(p, 'w').write(data)] *)
Definition write_sem (p : path) (data : string) (f : fsmap) : oserr + fsmap :=
  match follow MAXSYMLINKS f p with
  | None => inl ELOOP
  | Some q =>
      match lstat f q with
      | Some (File _) => inr (<[q := File data]> f)
      | Some _ => inl EISDIR
      | None =>
          match follow MAXSYMLINKS f (parent q) with
          | None => inl ELOOP
          | Some d =>
              match lstat f d with
              | Some Dir => inr (<[q := File data]> f)
              | Some (CGroup files procs) =>
                  cgroup_write d files procs (basename q) data f
              | Some _ => inl ENOTDIR
              | None => inl ENOENT
              end
          end
      end
  end.

(** [shutil.copy2(src, dst)] *)
Definition copy2_sem (src dst : path) (f : fsmap) : oserr + fsmap :=
  match stat f src with
  | Some (File data) =>
      write_sem (if is_dir f dst then dst ++ [basename src] else dst) data f
  | Some _ => inl EISDIR
  | None => inl ENOENT
  end.

Definition chmod_sem (p : path) (f : fsmap) : oserr + fsmap :=
  match stat f p with Some _ => inr f | None => inl ENOENT end.

(** [os.symlink]: any entry at [link], a dangling link included, is in the
    way. *)
Definition symlink_sem (link : path) (target : string) (f : fsmap) : oserr + fsmap :=
  match lstat f link with
  | Some _ => inl EEXIST
  | None =>
      match stat f (parent link) with
      | Some Dir => inr (<[link := Symlink target]> f)
      | Some (CGroup _ _) => inl EPERM
      | Some _ => inl ENOTDIR
      | None => inl ENOENT
      end
  end.

(** [os.rmdir]: a cgroup goes away only when it has neither member
    processes nor child groups. *)
Definition rmdir_sem (p : path) (f : fsmap) : oserr + fsmap :=
  match p with
  | [] => inl EBUSY
  | _ =>
      match f !! p with
      | None => inl ENOENT
      | Some Dir => if decide (childless f p) then inr (delete p f) else inl ENOTEMPTY
      | Some (CGroup _ procs) =>
          match procs with
          | [] => if decide (childless f p) then inr (delete p f) else inl EBUSY
          | _ => inl EBUSY
          end
      | Some _ => inl ENOTDIR
      end
  end.

(** [shutil.rmtree] *)
Definition rmtree_sem (p : path) (f : fsmap) : oserr + fsmap :=
  match lstat f p with
  | None => inl ENOENT
  | Some Dir => inr (filter (fun kv => under p kv.1 = false) f)
  | Some (CGroup _ _) => inl EPERM
  | Some (Symlink _) => inl EINVAL
  | Some (File _) => inl ENOTDIR
  end.

(** [tempfile.mkdtemp(prefix=...)]: candidate names are tried in turn, a
    taken name moves on to the next one. *)
Fixpoint mkdtemp_try (prefix : string) (names : list string) (f : fsmap)
  : oserr + (string * list string * fsmap) :=
  match names with
  | [] => inl EEXIST
  | n :: rest =>
      let file := "/tmp/" +:+ prefix +:+ n in
      match os_mkdir (Path file) f with
      | inr f' => inr (file, rest, f')
      | inl EEXIST => mkdtemp_try prefix rest f
      | inl e => inl e
      end
  end.

(** ** The monad: host state, trace of calls, exceptions *)

Inductive result (A : Type) :=
| Ret (a : A)
| Raise (e : exn).
Arguments Ret {A} a.
Arguments Raise {A} e.

Definition M (A : Type) : Type := machine -> list event * machine * result A.

Definition ret {A} (a : A) : M A := fun s => ([], s, Ret a).

Definition raise {A} (e : exn) : M A := fun s => ([], s, Raise e).

Definition bind {A B} (m : M A) (k : A -> M B) : M B :=
  fun s =>
    match m s with
    | (t1, s1, Ret a) => let '(t2, s2, r) := k a s1 in (t1 ++ t2, s2, r)
    | (t1, s1, Raise e) => (t1, s1, Raise e)
    end.

Notation "x <- m ;; k" := (bind m (fun x => k))
  (at level 100, m at next level, right associativity).
Notation "m ;; k" := (bind m (fun _ => k))
  (at level 100, right associativity).

(** [try: m  except ...: h e] where [h] re-raises what it does not handle. *)
Definition try_except {A} (m : M A) (h : exn -> M A) : M A :=
  fun s =>
    match m s with
    | (t1, s1, Raise e) => let '(t2, s2, r) := h e s1 in (t1 ++ t2, s2, r)
    | done => done
    end.

(** [try: m  finally: c]: [c] always runs; an exception leaving [c]
    replaces whatever [m] returned or raised. *)
Definition try_finally {A} (m : M A) (c : M unit) : M A :=
  fun s =>
    let '(t1, s1, r) := m s in
    match c s1 with
    | (t2, s2, Ret _) => (t1 ++ t2, s2, r)
    | (t2, s2, Raise e) => (t1 ++ t2, s2, Raise e)
    end.

Definition emit (ev : event) : M unit := fun s => ([ev], s, Ret tt).

Definition get {A} (proj : machine -> A) : M A := fun s => ([], s, Ret (proj s)).

Definition modify (upd : machine -> machine) : M unit := fun s => ([], upd s, Ret tt).

(** [for x in l: body x] *)
Fixpoint for_each {A} (l : list A) (body : A -> M unit) : M unit :=
  match l with
  | [] => ret tt
  | x :: rest => body x ;; for_each rest body
  end.

Definition trace_of {A} (x : list event * machine * result A) : list event := x.1.1.
Definition final {A} (x : list event * machine * result A) : machine := x.1.2.
Definition outcome {A} (x : list event * machine * result A) : result A := x.2.
Arguments trace_of {A} !x /.
Arguments final {A} !x /.
Arguments outcome {A} !x /.

(** ** Library calls *)

Definition pop_fault (s : machine) : option oserr * machine :=
  match faults s with
  | [] => (None, s)
  | f :: rest => (f, set_faults rest s)
  end.

(** There is a NUL byte in a component of the path. *)
Definition nul_in (p : path) : bool := existsb Py.has_nul p.

(** There is an entry at the path. *)
Definition present (f : fsmap) (p : path) : bool :=
  match lstat f p with Some _ => true | None => false end.

(** A string the call hands over as a path holds a NUL byte and names
    nothing in the tree. *)
Definition refusable (op : sysop) (s : machine) : bool :=
  match op with
  | Mkdir p _ | WriteText p _ | Chmod p _ | Rmdir p | Rmtree p =>
      nul_in p && negb (present (fs s) p)
  | Copy2 src dst =>
      (Py.has_nul src && negb (present (fs s) (cwd s // src)))
      || (nul_in dst && negb (present (fs s) dst))
  | SymlinkTo link target =>
      Py.has_nul target || (nul_in link && negb (present (fs s) link))
  | Mkdtemp prefix => Py.has_nul prefix
  end.

(** A call that may fail: an injected error wins, otherwise [sem] decides;
    either way the call and its result are recorded.  When the host fails
    a call whose path cannot be passed on to the kernel, the failure is
    Python's own: the call is refused with [ValueError]. *)
Definition syscall {A} (op : sysop) (sem : machine -> oserr + A * machine) : M A :=
  fun s =>
    let '(f, s0) := pop_fault s in
    match f with
    | Some e =>
        if refusable op s0 then ([Refused op], s0, Raise ValueError)
        else ([Sys op (Some e)], s0, Raise (OSError e))
    | None =>
        match sem s0 with
        | inl e => ([Sys op (Some e)], s0, Raise (OSError e))
        | inr (a, s1) => ([Sys op None], s1, Ret a)
        end
    end.

Definition on_fs (sem : fsmap -> oserr + fsmap) (s : machine) : oserr + unit * machine :=
  match sem (fs s) with
  | inl e => inl e
  | inr f => inr (tt, set_fs f s)
  end.

Definition print (text : string) : M unit := emit (Print text).

Definition Path_mkdir (p : path) (parents : bool) : M unit :=
  syscall (Mkdir p parents)
    (on_fs (if parents then makedirs (List.length p) p else mkdir_sem p)).

Definition Path_write_text (p : path) (data : string) : M unit :=
  syscall (WriteText p data) (on_fs (write_sem p data)).

Definition Path_exists (p : path) : M bool :=
  get (fun s => exists_ (fs s) p).

(** [os.path.exists] takes a string, relative to the working directory. *)
Definition os_path_exists (p : string) : M bool :=
  get (fun s => exists_ (fs s) (cwd s // p)).

Definition shutil_copy2 (src : string) (dst : path) : M unit :=
  syscall (Copy2 src dst) (fun s => on_fs (copy2_sem (cwd s // src) dst) s).

Definition Path_chmod (p : path) (mode : Z) : M unit :=
  syscall (Chmod p mode) (on_fs (chmod_sem p)).

Definition Path_symlink_to (link : path) (target : string) : M unit :=
  syscall (SymlinkTo link target) (on_fs (symlink_sem link target)).

Definition Path_rmdir (p : path) : M unit :=
  syscall (Rmdir p) (on_fs (rmdir_sem p)).

Definition shutil_rmtree (p : path) : M unit :=
  syscall (Rmtree p) (on_fs (rmtree_sem p)).

Definition tempfile_mkdtemp (prefix : string) : M string :=
  syscall (Mkdtemp prefix)
    (fun s =>
       match mkdtemp_try prefix (tmp_names s) (fs s) with
       | inl e => inl e
       | inr (file, rest, f) => inr (file, set_tmp_names rest (set_fs f s))
       end).

Definition os_getpid : M Z := get pid.

Record CompletedProcess := { returncode : Z; stdout : string }.

(** What [subprocess.run] raises when the program could not be started:
    [ValueError] for an argument with a NUL byte, else the [OSError]. *)
Definition spawn_error (argv : list string) (e : oserr) : exn :=
  if existsb Py.has_nul argv then ValueError else OSError e.

(** [subprocess.run(argv)]: nothing is captured. *)
Definition subprocess_run (argv : list string) : M CompletedProcess :=
  fun s =>
    let o := spawn s argv in
    ([Exec argv o], s,
     match o with
     | Returned rc _ => Ret {| returncode := rc; stdout := EmptyString |}
     | SpawnFailed e => Raise (spawn_error argv e)
     | Interrupted => Raise KeyboardInterrupt
     end).

(** [subprocess.run(argv, capture_output=True, text=True, check=False)]:
    both captured streams are decoded. *)
Definition subprocess_run_text (argv : list string) : M CompletedProcess :=
  fun s =>
    let o := spawn s argv in
    match o with
    | Returned rc out =>
        if Py.utf8 out && Py.utf8 (stderr s argv)
        then ([Exec argv o], s, Ret {| returncode := rc; stdout := out |})
        else ([Exec argv o; Garbled argv], s, Raise UnicodeDecodeError)
    | SpawnFailed e => ([Exec argv o], s, Raise (spawn_error argv e))
    | Interrupted => ([Exec argv o], s, Raise KeyboardInterrupt)
    end.

(** ** The program *)

Definition nl : string := String "010" EmptyString.

Record ContainerConfig := {
  name : string;
  memory_mb : Z;
  cpu_percent : Z;
  command : string
}.

(** dataclass defaults *)
Definition ContainerConfig_default (n : string) : ContainerConfig :=
  {| name := n; memory_mb := 50; cpu_percent := 25; command := "/bin/sh" |}.

Record CGroupManager := { cg_name : string; cg_path : path }.

Definition CGroupManager_init (n : string) : CGroupManager :=
  {| cg_name := n; cg_path := Path ("/sys/fs/cgroup/" +:+ n) |}.

Definition CGroupManager_create (self : CGroupManager) (memory_mb cpu_percent : Z)
  : M unit :=
  emit (Call "CGroupManager.create") ;;
  Path_mkdir (cg_path self) false ;;
  Path_write_text (cg_path self // "memory.max") (Py.str (memory_mb * 1024 * 1024)) ;;
  Path_write_text (cg_path self // "cpu.max")
    (Py.str (cpu_percent * 1000) +:+ " 100000") ;;
  print ("✓ CGroup: " +:+ Py.str memory_mb +:+ "MB RAM, "
         +:+ Py.str cpu_percent +:+ "% CPU").

Definition CGroupManager_add_process (self : CGroupManager) (pid : Z) : M unit :=
  emit (Call "CGroupManager.add_process") ;;
  Path_write_text (cg_path self // "cgroup.procs") (Py.str pid).

Definition CGroupManager_cleanup (self : CGroupManager) : M unit :=
  emit (Call "CGroupManager.cleanup") ;;
  try_except (Path_rmdir (cg_path self))
    (fun e => if is_OSError e then ret tt else raise e).

Record RootFSManager := { rfs_name : string }.

Definition RootFSManager_init (n : string) : M RootFSManager :=
  modify (set_rootfs None) ;; ret {| rfs_name := n |}.

(** Reading [self.rootfs] where a [Path] is needed. *)
Definition self_rootfs : M path :=
  fun s =>
    match rootfs s with
    | Some p => ([], s, Ret p)
    | None => ([], s, Raise TypeError)
    end.

Definition skeleton : list string :=
  ["bin"; "lib"; "lib64"; "proc"; "tmp"; "dev"; "etc"].

Definition busybox_paths : list string :=
  ["/usr/bin/busybox"; "/bin/busybox"; "/usr/bin/busybox-static"].

Definition commands : list string :=
  ["sh"; "ls"; "cat"; "echo"; "ps"; "sleep"; "mkdir"; "rm"; "cp"; "mv"].

(** The search loop of [_setup_busybox]: first path that exists. *)
Fixpoint first_existing (paths : list string) : M (option string) :=
  match paths with
  | [] => ret None
  | p :: rest =>
      found <- os_path_exists p ;;
      if found then ret (Some p) else first_existing rest
  end.

(** Body of the link loop of [_setup_busybox]. *)
Definition link_command (cmd : string) : M unit :=
  root <- self_rootfs ;;
  let link := root // "bin" // cmd in
  present <- Path_exists link ;;
  if negb present then Path_symlink_to link "busybox" else ret tt.

(** The link loop of [_setup_busybox] over a list of command names. *)
Definition link_commands (cmds : list string) : M unit :=
  for_each cmds link_command.

Definition RootFSManager__setup_busybox (self : RootFSManager) : M bool :=
  emit (Call "RootFSManager._setup_busybox") ;;
  busybox_src <- first_existing busybox_paths ;;
  match busybox_src with
  | None => ret false
  | Some src =>
      root <- self_rootfs ;;
      let busybox_dst := root // "bin/busybox" in
      shutil_copy2 src busybox_dst ;;
      Path_chmod busybox_dst 493 ;;
      link_commands commands ;;
      ret true
  end.

(** Body of the loop over the lines printed by [ldd]. *)
Definition copy_library (line : string) : M unit :=
  lib_path <-
    (if Py.contains "=>" line then
       match Py.split_on "=>" line !! 1%nat with
       | None => raise IndexError
       | Some piece =>
           match Py.split (Py.strip piece) with
           | [] => ret None
           | p0 :: _ =>
               found <- os_path_exists p0 ;;
               ret (if found then Some p0 else None)
           end
       end
     else if Py.startswith (Py.strip line) "/" then
       match Py.split (Py.strip line) with
       | [] => raise IndexError
       | p0 :: _ => ret (Some p0)
       end
     else ret None) ;;
  match lib_path with
  | None => ret tt
  | Some lib =>
      found <- (if Py.nonempty lib then os_path_exists lib else ret false) ;;
      if found then
        root <- self_rootfs ;;
        let dst := root // Py.lstrip_slash lib in
        Path_mkdir (parent dst) true ;;
        present <- Path_exists dst ;;
        if negb present then shutil_copy2 lib dst else ret tt
      else ret tt
  end.

Definition bash_path : string := "/usr/bin/bash".

Definition RootFSManager__copy_bash (self : RootFSManager) : M unit :=
  emit (Call "RootFSManager._copy_bash") ;;
  found <- os_path_exists bash_path ;;
  if negb found then ret tt
  else
    root <- self_rootfs ;;
    let bash_dst := root // "bin/bash" in
    shutil_copy2 bash_path bash_dst ;;
    Path_chmod bash_dst 493 ;;
    try_except
      (result <- subprocess_run_text ["ldd"; bash_path] ;;
       for_each (Py.splitlines (stdout result)) copy_library)
      (fun e => if is_CalledProcessError e then ret tt else raise e).

Definition busybox_missing : string :=
  "BusyBox недоступен. Установите: apt install busybox-static".

Definition RootFSManager_create (self : RootFSManager) : M path :=
  emit (Call "RootFSManager.create") ;;
  tmp <- tempfile_mkdtemp ("container_" +:+ rfs_name self +:+ "_") ;;
  modify (set_rootfs (Some (Path tmp))) ;;
  for_each skeleton
    (fun d => root <- self_rootfs ;; Path_mkdir (root // d) true) ;;
  ok <- RootFSManager__setup_busybox self ;;
  if negb ok then raise (RuntimeError busybox_missing)
  else
    RootFSManager__copy_bash self ;;
    root <- self_rootfs ;;
    print ("✓ RootFS: " +:+ path_str root) ;;
    ret root.

Definition RootFSManager_cleanup (self : RootFSManager) : M unit :=
  emit (Call "RootFSManager.cleanup") ;;
  r <- get rootfs ;;
  match r with
  | None => ret tt
  | Some root =>
      present <- Path_exists root ;;
      if present then shutil_rmtree root else ret tt
  end.

Record Container := {
  config : ContainerConfig;
  cgroup : CGroupManager;
  rootfs_mgr : RootFSManager
}.

Definition Container_init (cfg : ContainerConfig) : M Container :=
  mgr <- RootFSManager_init (name cfg) ;;
  ret {| config := cfg; cgroup := CGroupManager_init (name cfg); rootfs_mgr := mgr |}.

Definition banner : string := Py.repeat "=" 60.

Definition Container__cleanup (self : Container) : M unit :=
  emit (Call "Container._cleanup") ;;
  print (nl +:+ banner) ;;
  print "Очистка" ;;
  print banner ;;
  CGroupManager_cleanup (cgroup self) ;;
  RootFSManager_cleanup (rootfs_mgr self) ;;
  print ("✓ Готово" +:+ nl).

Definition launch_argv (root : path) (cmd : string) : list string :=
  ["unshare"; "--fork"; "--pid"; "--net"; "--mount"; "--uts"; "--ipc";
   "--mount-proc"; "chroot"; path_str root; cmd].

(** The body of the [try] block of [run]: steps 1 to 4. *)
Definition Container_run_steps (self : Container) : M Z :=
  CGroupManager_create (cgroup self)
    (memory_mb (config self)) (cpu_percent (config self)) ;;
  root <- RootFSManager_create (rootfs_mgr self) ;;
  print ("🚀 Команда: " +:+ command (config self) +:+ nl) ;;
  me <- os_getpid ;;
  CGroupManager_add_process (cgroup self) me ;;
  result <- subprocess_run (launch_argv root (command (config self))) ;;
  ret (returncode result).

(** The two [except] clauses of [run]. *)
Definition Container_run_except (e : exn) : M Z :=
  match e with
  | KeyboardInterrupt => print (nl +:+ "⚠ Остановлено") ;; ret 130
  | _ =>
      if is_Exception e
      then
        text <- get (fun s => exn_str s e) ;;
        print (nl +:+ "✗ Ошибка: " +:+ text) ;; ret 1
      else raise e
  end.

Definition Container_run (self : Container) : M Z :=
  emit (Call "Container.run") ;;
  print (nl +:+ banner) ;;
  print ("Контейнер: " +:+ name (config self)) ;;
  print banner ;;
  try_finally
    (try_except (Container_run_steps self) Container_run_except)
    (Container__cleanup self).

(** [Container(config).run()] *)
Definition container_main (cfg : ContainerConfig) : M Z :=
  self <- Container_init cfg ;;
  Container_run self.

(** ** The command line: [main] and the demonstrations *)

(** What the process is started with: the answers of [os.geteuid()] and
    [shutil.which] and the list [sys.argv].  None of them changes while the
    program runs. *)
Record environ := {
  os_geteuid : Z;
  sys_argv : list string;
  shutil_which : string -> option string
}.

(** How [main] ends when no exception escapes it: it returns, or
    [sys.exit(code)] raised [SystemExit].  Both calls of [sys.exit] are the
    last statement [main] executes and no handler of the program catches
    [SystemExit], so it is recorded as the way [main] ends. *)
Inductive completion :=
| Returns
| SystemExit (code : Z).

Definition sys_exit (code : Z) : M completion := ret (SystemExit code).

(** The double quote, for the command lines that contain one. *)
Definition dq : string := String "034" EmptyString.

Definition demo_interactive : M unit :=
  container_main
    {| name := "demo"; memory_mb := 50; cpu_percent := 25; command := "/bin/sh" |} ;;
  ret tt.

Definition demo_command_line : string :=
  "/bin/sh -c " +:+ dq +:+ "echo Hello from container! && ls -la / && sleep 1" +:+ dq.

Definition demo_command : M unit :=
  container_main
    {| name := "cmd_demo"; memory_mb := 30; cpu_percent := 20;
       command := demo_command_line |} ;;
  ret tt.

Definition memory_hog : string :=
  Py.join nl
    [ EmptyString;
      "data = []";
      "for i in range(100):";
      "    data.append(" +:+ dq +:+ " " +:+ dq +:+ " * (1024 * 1024))";
      "    print(f" +:+ dq +:+ "Allocated {i+1}MB" +:+ dq +:+ ")";
      EmptyString ].

Definition oom_message : string := "✓ OOM Killer сработал - лимит работает!".

(** The truth value of [shutil.which('python3')]: [None] and the empty
    string are false. *)
Definition python_found (env : environ) : bool :=
  match shutil_which env "python3" with
  | Some p => Py.nonempty p
  | None => false
  end.

Definition memory_test_busybox : ContainerConfig :=
  {| name := "mem_test"; memory_mb := 20; cpu_percent := 50;
     command := "/bin/sh -c " +:+ dq +:+ "echo Testing memory limit... && sleep 1" +:+ dq |}.

Definition memory_test_python : ContainerConfig :=
  {| name := "mem_test"; memory_mb := 20; cpu_percent := 50;
     command := "/usr/bin/python3 -c '" +:+ memory_hog +:+ "'" |}.

Definition demo_memory_limit (env : environ) : M unit :=
  print (nl +:+ banner) ;;
  print "ТЕСТ: Ограничение памяти (OOM Killer)" ;;
  print banner ;;
  print ("Попытка выделить 100MB при лимите 20MB" +:+ nl) ;;
  config <- (if negb (python_found env)
             then print "⚠ Python3 не найден, используем busybox для теста" ;;
                  ret memory_test_busybox
             else ret memory_test_python) ;;
  exit_code <- container_main config ;;
  if exit_code =? 137 then print oom_message else ret tt.

(** The configuration [demo_memory_limit] runs: a BusyBox shell command
    when [python3] is not found on the host, a Python one-liner otherwise. *)
Definition memory_config (env : environ) : ContainerConfig :=
  if negb (python_found env) then memory_test_busybox else memory_test_python.

Definition help_text : string :=
  Py.join nl
    [ EmptyString;
      "Использование:";
      "    sudo python3 container.py [команда]";
      EmptyString;
      "Команды:";
      "    shell       Интерактивный shell (BusyBox)";
      "    run         Выполнить команду";
      "    memory      Тест ограничения памяти";
      "    help        Показать справку";
      EmptyString;
      "Примеры:";
      "    sudo python3 container.py shell";
      "    sudo python3 container.py run";
      "    sudo python3 container.py memory";
      EmptyString;
      "Требования:";
      "    • BusyBox: apt install busybox-static";
      "    • Root права для namespaces и cgroups";
      EmptyString;
      "Технологии:";
      "    ✓ Namespaces: PID, NET, MNT, UTS, IPC";
      "    ✓ CGroups v2: Memory, CPU";
      "    ✓ BusyBox: Минимальное окружение";
      "    " ].

Definition print_help : M unit := print help_text.

(** The dictionary [commands] of [main]. *)
Definition main_commands (env : environ) : gmap string (M unit) :=
  <["shell" := demo_interactive]>
  (<["run" := demo_command]>
  (<["memory" := demo_memory_limit env]>
  (<["help" := print_help]> ∅))).

(** [sys.argv[1] if len(sys.argv) > 1 else "help"] *)
Definition selected_command (env : environ) : string :=
  if (1 <? List.length (sys_argv env))%nat
  then List.nth 1 (sys_argv env) EmptyString
  else "help".

Definition main (env : environ) : M completion :=
  if negb (os_geteuid env =? 0) then
    print "✗ Требуются root права" ;;
    print "Запустите: sudo python3 container.py" ;;
    sys_exit 1
  else
    let cmd := selected_command env in
    match main_commands env !! cmd with
    | Some handler => handler ;; ret Returns
    | None =>
        print ("✗ Неизвестная команда: " +:+ cmd +:+ nl) ;;
        print_help ;;
        sys_exit 1
    end.

(** ** Classifying events *)

(** The exception a recorded call raised, if it raised one. *)
Definition raised_by (ev : event) : option exn :=
  match ev with
  | Sys _ (Some c) => Some (OSError c)
  | Refused _ => Some ValueError
  | Exec argv (SpawnFailed c) => Some (spawn_error argv c)
  | Exec _ Interrupted => Some KeyboardInterrupt
  | Garbled _ => Some UnicodeDecodeError
  | _ => None
  end.

(** The launch of the isolated process: [subprocess.run(['unshare', ...])]. *)
Definition is_launch (ev : event) : bool :=
  match ev with
  | Exec (prog :: _) _ => String.eqb prog "unshare"
  | _ => false
  end.

(** A write to some group's member list. *)
Definition is_enroll (ev : event) : bool :=
  match ev with
  | Sys (WriteText p _) _ => String.eqb (basename p) "cgroup.procs"
  | _ => false
  end.

(** The one enrolment the program performs: the text [str(pid)] written
    successfully to the member list of the group at [g]. *)
Definition enrolled (g : path) (pid : Z) : event :=
  Sys (WriteText (g // "cgroup.procs") (Py.str pid)) None.

(** Neither a launch nor an enrolment. *)
Definition quiet (ev : event) : bool := negb (is_launch ev) && negb (is_enroll ev).

(** A removal call, made or refused. *)
Definition is_removal (ev : event) : bool :=
  match ev with
  | Sys (Rmdir _) _ | Sys (Rmtree _) _ | Refused (Rmdir _) | Refused (Rmtree _) => true
  | _ => false
  end.

(** ** Properties of computations *)

(** Every event a computation records satisfies [P]. *)
Definition emits {A} (P : event -> Prop) (m : M A) : Prop :=
  forall s, Forall P (trace_of (m s)).

(** No failed call goes unnoticed: the computation ends by raising what
    the failed call raised. *)
Definition failstop {A} (m : M A) : Prop :=
  forall s ev e, In ev (trace_of (m s)) -> raised_by ev = Some e ->
    outcome (m s) = Raise e.

(** What a [create] that meets no error records. *)
Definition limits_trace (self : CGroupManager) (mb cpu : Z) : list event :=
  [Call "CGroupManager.create";
   Sys (Mkdir (cg_path self) false) None;
   Sys (WriteText (cg_path self // "memory.max") (Py.str (mb * 1024 * 1024))) None;
   Sys (WriteText (cg_path self // "cpu.max") (Py.str (cpu * 1000) +:+ " 100000")) None;
   Print ("✓ CGroup: " +:+ Py.str mb +:+ "MB RAM, " +:+ Py.str cpu +:+ "% CPU")].

(** The group as [create] leaves it when it made the directory itself. *)
Definition limited_group (mb cpu : Z) : node :=
  CGroup (<["cpu.max" := Py.str (cpu * 1000) +:+ " 100000"]>
          (<["memory.max" := Py.str (mb * 1024 * 1024)]> ∅)) [].

(** What [run] returns for an outcome of steps 1 to 4, the tear-down
    permitting. *)
Definition resolve (r : result Z) : result Z :=
  match r with
  | Ret rc => Ret rc
  | Raise KeyboardInterrupt => Ret 130
  | Raise _ => Ret 1
  end.

(** What the launched command's fate means for steps 1 to 4. *)
Definition launch_result (argv : list string) (o : proc_outcome) : result Z :=
  match o with
  | Returned rc _ => Ret rc
  | SpawnFailed c => Raise (spawn_error argv c)
  | Interrupted => Raise KeyboardInterrupt
  end.

(** The machine attribute [pid] is left alone. *)
Definition keeps_pid {A} (m : M A) : Prop := forall s, pid (final (m s)) = pid s.

(** The four events [run] records before entering its [try] block. *)
Definition prelude (self : Container) : list event :=
  [Call "Container.run"; Print (nl +:+ banner);
   Print ("Контейнер: " +:+ name (config self)); Print banner].

(** The exception [subprocess.run] raises when the child did not run to
    completion. *)
Definition launch_failure {A} (argv : list string) (o : proc_outcome) : result A :=
  match o with
  | SpawnFailed c => Raise (spawn_error argv c)
  | _ => Raise KeyboardInterrupt
  end.

(** What the [except] clauses and [_cleanup] record. *)
Definition teardown_event (ev : event) : bool :=
  match ev with
  | Call _ | Print _ | Sys (Rmdir _) _ | Sys (Rmtree _) _
  | Refused (Rmdir _) | Refused (Rmtree _) => true
  | _ => false
  end.

(** [shutil.rmtree] reported an error. *)
Definition rmtree_failed (ev : event) : bool :=
  match ev with
  | Sys (Rmtree _) (Some _) => true
  | _ => false
  end.

(** What a call of the tear-down raised that no handler of the program
    catches: the [OSError] of a failed [rmtree], the [ValueError] of a
    refused removal. *)
Definition escapes (ev : event) : option exn :=
  match ev with
  | Sys (Rmtree _) (Some c) => Some (OSError c)
  | Refused (Rmdir _) | Refused (Rmtree _) => Some ValueError
  | _ => None
  end.

(** Everything at or below [root] is a plain directory. *)
Definition only_dirs_below (root : path) (f : fsmap) : Prop :=
  forall q n, under root q = true -> f !! q = Some n -> n = Dir.

(** The freshly named root directory of a configuration, given the suffix
    [mkdtemp] draws. *)
Definition root_for (n sfx : string) : path :=
  Path ("/tmp/" +:+ ("container_" +:+ n +:+ "_") +:+ sfx).

(** A host on which nothing but BusyBox is missing: no error is injected,
    the group named after the container does not exist yet under a cgroup
    directory, [mkdtemp]'s first candidate is free inside an existing
    directory, and there is no entry at any of the three BusyBox places. *)
Record busybox_less (cfg : ContainerConfig) (sfx : string) (s : machine) : Prop := {
  no_faults : faults s = [];
  group_absent : lstat (fs s) (cg_path (CGroupManager_init (name cfg))) = None;
  group_childless : childless (fs s) (cg_path (CGroupManager_init (name cfg)));
  group_parent :
    exists files procs,
      stat (fs s) (parent (cg_path (CGroupManager_init (name cfg))))
      = Some (CGroup files procs);
  first_candidate : exists rest, tmp_names s = sfx :: rest;
  root_free :
    forall q, under (root_for (name cfg) sfx) q = true -> fs s !! q = None;
  root_parent : stat (fs s) (parent (root_for (name cfg) sfx)) = Some Dir;
  busybox_absent : forall p, In p busybox_paths -> fs s !! Path p = None
}.

(** ** Further classifiers and properties *)

(** A call that reaches the host: a library call or a started program. *)
Definition is_host_call (ev : event) : bool :=
  match ev with Sys _ _ | Exec _ _ | Refused _ => true | _ => false end.

Definition is_print (ev : event) : bool :=
  match ev with Print _ => true | _ => false end.

Definition is_rmtree (ev : event) : bool :=
  match ev with Sys (Rmtree _) _ => true | _ => false end.

Definition is_copy (ev : event) : bool :=
  match ev with Sys (Copy2 _ _) _ => true | _ => false end.

(** The object [Container(cfg)] builds. *)
Definition new_container (cfg : ContainerConfig) : Container :=
  {| config := cfg; cgroup := CGroupManager_init (name cfg);
     rootfs_mgr := {| rfs_name := name cfg |} |}.

(** A component of the machine is left as it was. *)
Definition keeps {X A} (proj : machine -> X) (m : M A) : Prop :=
  forall s, proj (final (m s)) = proj s.

(** A component that no file-system call and no injected error touches. *)
Definition host_blind {X} (proj : machine -> X) : Prop :=
  (forall f s, proj (set_fs f s) = proj s) /\
  (forall l s, proj (set_faults l s) = proj s).

(** A handler of [main]'s table either returns, with no failed [rmtree]
    on record, or raises what a failed [rmtree] raised. *)
Definition discards_status (h : M unit) : Prop :=
  forall s,
    (outcome (h s) = Ret tt /\
     List.Forall (fun ev => rmtree_failed ev = false) (trace_of (h s))) \/
    (exists root c, outcome (h s) = Raise (OSError c) /\
       In (Sys (Rmtree root) (Some c)) (trace_of (h s))).

(** No white-space character of [str] begins at any byte of the string:
    [split()] takes the string for one word, or part of one. *)
Fixpoint solid (s : string) : bool :=
  match s with
  | EmptyString => true
  | String _ s' => Nat.eqb (Py.space_width s) 0 && solid s'
  end.





(** The path a call is aimed at lies at or below [root] by its components
    -- for [mkdir(parents=True)] the parent of [root] is admitted too, which
    a library listed as [/] leads to.  Writes, removals and a second
    [mkdtemp] are not admitted at all. *)
Definition aimed_inside (root : path) (op : sysop) : bool :=
  match op with
  | Copy2 _ p | Chmod p _ | SymlinkTo p _ => under root p
  | Mkdir p _ => under root p || bool_decide (p = parent root)
  | _ => false
  end.

Definition inside (root : path) (ev : event) : bool :=
  match ev with
  | Sys op _ | Refused op => aimed_inside root op
  | _ => true
  end.

(** Every recorded call of a computation is aimed inside [root], when
    [root] is what [self.rootfs] holds. *)
Definition confined {A} (root : path) (m : M A) : Prop :=
  forall s, rootfs s = Some root ->
    List.Forall (fun ev => inside root ev = true) (trace_of (m s)).

(** What the [except] clauses of [run] print for an outcome of steps 1
    to 4. *)
Definition except_prints (s : machine) (r : result Z) : list event :=
  match r with
  | Ret _ => []
  | Raise KeyboardInterrupt => [Print (nl +:+ "⚠ Остановлено")]
  | Raise e => [Print (nl +:+ "✗ Ошибка: " +:+ exn_str s e)]
  end.

(** A failed call is the last thing a computation does, and what it
    raised is what the computation raises. *)
Definition failfast {A} (m : M A) : Prop :=
  forall s pre ev post e,
    trace_of (m s) = pre ++ ev :: post -> raised_by ev = Some e ->
    post = [] /\ outcome (m s) = Raise e.

(** The tree with a directory added for each name of [ds] below [root]. *)
Definition with_dirs (root : path) (ds : list string) (f : fsmap) : fsmap :=
  foldl (fun g d => <[root ++ [d] := Dir]> g) f ds.

(** ** Sample hosts

    Concrete machines on which the program is run by evaluation. *)

Module Sample.

Definition cfg : ContainerConfig := ContainerConfig_default "demo".

Definition ldd_output : string :=
  "	linux-vdso.so.1 (0x00007ffc)" +:+ nl +:+
  "	libc.so.6 => /lib/x86_64-linux-gnu/libc.so.6 (0x00007f)" +:+ nl +:+
  "	/lib64/ld-linux-x86-64.so.2 (0x00007f)" +:+ nl.

(** A host with cgroup v2 mounted, [/tmp], BusyBox, bash and its libraries. *)
Definition tree : fsmap :=
  <[ ["sys"; "fs"; "cgroup"] := CGroup ∅ [] ]>
  (<[ ["tmp"] := Dir ]>
  (<[ ["usr"; "bin"; "busybox"] := File "busybox-elf" ]>
  (<[ ["usr"; "bin"; "bash"] := File "bash-elf" ]>
  (<[ ["lib"; "x86_64-linux-gnu"; "libc.so.6"] := File "libc" ]>
  (<[ ["lib64"; "ld-linux-x86-64.so.2"] := File "ld.so" ]> ∅))))).

(** The same host without BusyBox at any of the three places. *)
Definition tree_without_busybox : fsmap := delete ["usr"; "bin"; "busybox"] tree.

(** [ldd] lists the libraries, the container command exits with [rc]. *)
Definition programs (rc : Z) (argv : list string) : proc_outcome :=
  match argv with
  | "ldd" :: _ => Returned 0 ldd_output
  | _ => Returned rc EmptyString
  end.

(** [ldd] is not installed. *)
Definition programs_without_ldd (argv : list string) : proc_outcome :=
  match argv with
  | "ldd" :: _ => SpawnFailed ENOENT
  | _ => Returned 0 EmptyString
  end.

(** [ldd] runs but fails: it exits with status 1 and prints nothing. *)
Definition programs_ldd_fails (argv : list string) : proc_outcome :=
  match argv with
  | "ldd" :: _ => Returned 1 EmptyString
  | _ => Returned 0 EmptyString
  end.


(** The message of an [OSError] as the library words it for a call on
    [ldd], and Python's message for a NUL byte. *)
Definition messages (e : exn) : string :=
  match e with
  | OSError c => "[Errno " +:+ Py.str (errno c) +:+ "] " +:+ strerror c +:+ ": 'ldd'"
  | ValueError => "embedded null byte"
  | UnicodeDecodeError =>
      "'utf-8' codec can't decode byte 0xff in position 0: invalid start byte"
  | _ => EmptyString
  end.

Definition silent (argv : list string) : string := EmptyString.

Definition host (f : fsmap) (inject : list (option oserr))
    (progs : list string -> proc_outcome) : machine :=
  {| fs := f; cwd := []; faults := inject; tmp_names := ["k3x9"];
     pid := 4242; spawn := progs; rootfs := None;
     stderr := silent; errtext := messages |}.

Definition healthy : machine := host tree [] (programs 0).




Definition new_root : path := ["tmp"; "container_demo_k3x9"].


(** A [bin/] in which [sh] is a link to a file that is not there. *)
Definition dangling_sh : machine :=
  {| fs := <[ new_root ++ ["bin"; "sh"] := Symlink "ash" ]>
           (<[ new_root ++ ["bin"] := Dir ]> (<[ new_root := Dir ]> tree));
     cwd := []; faults := []; tmp_names := []; pid := 4242;
     spawn := programs 0; rootfs := Some new_root;
     stderr := silent; errtext := messages |}.

(** A root as [_setup_busybox] sees it when its link loop starts: the
    skeleton is there and BusyBox has been copied into [bin/]. *)
Definition fresh_bin : machine :=
  {| fs := <[ new_root ++ ["bin"; "busybox"] := File "busybox-elf" ]>
           (<[ new_root ++ ["bin"] := Dir ]> (<[ new_root := Dir ]> tree));
     cwd := []; faults := []; tmp_names := []; pid := 4242;
     spawn := programs 0; rootfs := Some new_root;
     stderr := silent; errtext := messages |}.

Definition self : Container :=
  {| config := cfg; cgroup := CGroupManager_init "demo";
     rootfs_mgr := {| rfs_name := "demo" |} |}.

End Sample.

(** Command lines and one more host, for the properties of [main] and of
    provisioning. *)
Module Cli.

(** The super-user asks for the interactive shell. *)
Definition shell : environ :=
  {| os_geteuid := 0; sys_argv := ["container.py"; "shell"];
     shutil_which := fun _ => None |}.

(** An ordinary user asks for the same. *)
Definition shell_as_user : environ :=
  {| os_geteuid := 1000; sys_argv := ["container.py"; "shell"];
     shutil_which := fun _ => None |}.

(** The memory demonstration on a host that has [python3]. *)
Definition memory : environ :=
  {| os_geteuid := 0; sys_argv := ["container.py"; "memory"];
     shutil_which := fun n => Some ("/usr/bin/" +:+ n) |}.

(** The sample host without bash. *)
Definition host_without_bash : machine :=
  Sample.host (delete ["usr"; "bin"; "bash"] Sample.tree) [] (Sample.programs 0).

End Cli.

(** * Verification *)

(** ** Decimal numerals *)

Lemma to_int_not_nil z : Z.to_int z <> Pos Nil /\ Z.to_int z <> Neg Nil.
Proof.
  destruct z as [|p|p]; simpl; split; try discriminate;
    intros H; injection H as H; revert H; apply DecimalPos.Unsigned.to_uint_nonnil.
Qed.

Lemma int_str z : Py.int (Py.str z) = Some z.
Proof.
  unfold Py.int, Py.str.
  destruct (to_int_not_nil z) as [H1 H2].
  rewrite NilZero.isi by assumption. simpl. now rewrite DecimalZ.of_to.
Qed.

(** ** Stepping through [bind] *)

Lemma bind_Ret {A B} (m : M A) (k : A -> M B) s t1 s1 a :
  m s = (t1, s1, Ret a) ->
  bind m k s = (t1 ++ trace_of (k a s1), final (k a s1), outcome (k a s1)).
Proof.
  intros E. unfold bind. rewrite E. destruct (k a s1) as [[t2 s2] r]. reflexivity.
Qed.

Lemma bind_Raise {A B} (m : M A) (k : A -> M B) s t1 s1 e :
  m s = (t1, s1, Raise e) -> bind m k s = (t1, s1, Raise e).
Proof. intros E. unfold bind. now rewrite E. Qed.

Section Emits.
Context (P : event -> Prop).

Lemma emits_ret {A} (a : A) : emits P (ret a).
Proof. intros s. constructor. Qed.

Lemma emits_raise {A} e : emits P (@raise A e).
Proof. intros s. constructor. Qed.

Lemma emits_get {A} (f : machine -> A) : emits P (get f).
Proof. intros s. constructor. Qed.

Lemma emits_modify u : emits P (modify u).
Proof. intros s. constructor. Qed.

Lemma emits_self_rootfs : emits P self_rootfs.
Proof. intros s. unfold self_rootfs. destruct (rootfs s); constructor. Qed.

Lemma emits_emit ev : P ev -> emits P (emit ev).
Proof. intros H s. repeat constructor. exact H. Qed.

Lemma emits_bind {A B} (m : M A) (k : A -> M B) :
  emits P m -> (forall a, emits P (k a)) -> emits P (bind m k).
Proof.
  intros Hm Hk s. specialize (Hm s).
  destruct (m s) as [[t1 s1] [a|e]] eqn:E.
  - rewrite (bind_Ret _ _ _ _ _ _ E). simpl in *.
    apply Forall_app. split; [exact Hm | apply Hk].
  - rewrite (bind_Raise _ _ _ _ _ _ E). exact Hm.
Qed.

Lemma emits_for_each {A} (l : list A) (body : A -> M unit) :
  (forall x, emits P (body x)) -> emits P (for_each l body).
Proof.
  intros Hb. induction l as [|x l IH]; simpl.
  - apply emits_ret.
  - apply emits_bind; [apply Hb | intros _; exact IH].
Qed.

Lemma emits_try_except {A} (m : M A) h :
  emits P m -> (forall e, emits P (h e)) -> emits P (try_except m h).
Proof.
  intros Hm Hh s. specialize (Hm s). unfold try_except.
  destruct (m s) as [[t1 s1] [a|e]]; [exact Hm|].
  specialize (Hh e s1). destruct (h e s1) as [[t2 s2] r]. simpl in *.
  apply Forall_app. now split.
Qed.

Lemma emits_try_finally {A} (m : M A) c :
  emits P m -> emits P c -> emits P (try_finally m c).
Proof.
  intros Hm Hc s. specialize (Hm s). unfold try_finally.
  destruct (m s) as [[t1 s1] r]. specialize (Hc s1).
  destruct (c s1) as [[t2 s2] [u|e]]; simpl in *; apply Forall_app; now split.
Qed.

Lemma emits_syscall {A} op (sem : machine -> oserr + A * machine) :
  (forall c, P (Sys op c)) -> P (Refused op) -> emits P (syscall op sem).
Proof.
  intros H R s. unfold syscall. destruct (pop_fault s) as [[c|] s0].
  - destruct (refusable op s0); repeat constructor; [exact R|apply H].
  - destruct (sem s0) as [c|[a s1]]; repeat constructor; apply H.
Qed.

Lemma emits_subprocess_run argv :
  (forall o, P (Exec argv o)) -> emits P (subprocess_run argv).
Proof. intros H s. repeat constructor. apply H. Qed.

Lemma emits_subprocess_run_text argv :
  (forall o, P (Exec argv o)) -> P (Garbled argv) ->
  emits P (subprocess_run_text argv).
Proof.
  intros H G s. unfold subprocess_run_text.
  destruct (spawn s argv) as [rc out|c|] eqn:E; simpl.
  - destruct (Py.utf8 out && Py.utf8 (stderr s argv)); repeat constructor;
      try exact G; rewrite <- E; apply H.
  - repeat constructor. rewrite <- E. apply H.
  - repeat constructor. rewrite <- E. apply H.
Qed.
End Emits.

Section Failstop.

Lemma failstop_ret {A} (a : A) : failstop (ret a).
Proof. intros s ev e H. simpl in H. destruct H. Qed.

Lemma failstop_raise {A} e : failstop (@raise A e).
Proof. intros s ev e' H. simpl in H. destruct H. Qed.

Lemma failstop_get {A} (f : machine -> A) : failstop (get f).
Proof. intros s ev e H. simpl in H. destruct H. Qed.

Lemma failstop_modify u : failstop (modify u).
Proof. intros s ev e H. simpl in H. destruct H. Qed.

Lemma failstop_self_rootfs : failstop self_rootfs.
Proof.
  intros s ev e. unfold self_rootfs.
  destruct (rootfs s); intros H; simpl in H; destruct H.
Qed.

Lemma failstop_emit ev : raised_by ev = None -> failstop (emit ev).
Proof.
  intros H s ev' e Hin H'. simpl in Hin. destruct Hin as [<-|[]]. congruence.
Qed.

Lemma failstop_bind {A B} (m : M A) (k : A -> M B) :
  failstop m -> (forall a, failstop (k a)) -> failstop (bind m k).
Proof.
  intros Hm Hk s ev e. specialize (Hm s ev e).
  destruct (m s) as [[t1 s1] [a|e1]] eqn:E.
  - rewrite (bind_Ret _ _ _ _ _ _ E). simpl in *.
    intros Hin Hev. apply in_app_or in Hin as [Hin|Hin].
    + specialize (Hm Hin Hev). discriminate.
    + now apply (Hk a s1 ev e).
  - rewrite (bind_Raise _ _ _ _ _ _ E). simpl in *.
    intros Hin Hev. specialize (Hm Hin Hev). congruence.
Qed.

Lemma failstop_for_each {A} (l : list A) (body : A -> M unit) :
  (forall x, failstop (body x)) -> failstop (for_each l body).
Proof.
  intros Hb. induction l as [|x l IH]; simpl.
  - apply failstop_ret.
  - apply failstop_bind; [apply Hb | intros _; exact IH].
Qed.

Lemma failstop_syscall {A} op (sem : machine -> oserr + A * machine) :
  failstop (syscall op sem).
Proof.
  intros s ev e. unfold syscall. destruct (pop_fault s) as [[c|] s0].
  - destruct (refusable op s0); simpl; intros [<-|[]]; simpl; congruence.
  - destruct (sem s0) as [c|[a s1]]; simpl; intros [<-|[]]; simpl; congruence.
Qed.

Lemma failstop_subprocess_run argv : failstop (subprocess_run argv).
Proof.
  intros s ev e. unfold subprocess_run. simpl. intros [<-|[]].
  destruct (spawn s argv); simpl; congruence.
Qed.

Lemma failstop_subprocess_run_text argv : failstop (subprocess_run_text argv).
Proof.
  intros s ev e. unfold subprocess_run_text.
  destruct (spawn s argv) as [rc out|c|] eqn:E; simpl.
  - destruct (Py.utf8 out && Py.utf8 (stderr s argv)); simpl.
    + intros [<-|[]]. discriminate.
    + intros [<-|[<-|[]]]; simpl; congruence.
  - intros [<-|[]]. simpl. congruence.
  - intros [<-|[]]. simpl. congruence.
Qed.

(** What a recorded call raised is an [Exception] of the library or
    [KeyboardInterrupt], never one of the exceptions of the program. *)
Lemma raised_by_cases ev e :
  raised_by ev = Some e ->
  (exists c, e = OSError c) \/ e = ValueError \/ e = UnicodeDecodeError
  \/ e = KeyboardInterrupt.
Proof.
  destruct ev as [m|t|op [c|]|argv [rc out|c|]|op|argv]; simpl; try discriminate;
    intros [= <-]; eauto.
  unfold spawn_error. destruct (existsb _ _); eauto.
Qed.

Lemma raised_by_not_CalledProcessError ev e :
  raised_by ev = Some e -> is_CalledProcessError e = false.
Proof.
  intros H. destruct (raised_by_cases _ _ H) as [[c ->]|[->|[->| ->]]]; reflexivity.
Qed.

(** The handler of [_copy_bash] lets every failed call through: what a
    failed call raises is never a [CalledProcessError]. *)
Lemma failstop_except_CalledProcessError (m : M unit) :
  failstop m ->
  failstop (try_except m (fun e => if is_CalledProcessError e then ret tt else raise e)).
Proof.
  intros Hm s ev e. specialize (Hm s ev e). unfold try_except.
  destruct (m s) as [[t1 s1] [a|e1]]; [exact Hm|].
  destruct (is_CalledProcessError e1) eqn:Hc; simpl in *; rewrite app_nil_r;
    intros Hin Hev; specialize (Hm Hin Hev).
  - injection Hm as ->. apply raised_by_not_CalledProcessError in Hev. congruence.
  - exact Hm.
Qed.
End Failstop.

(** ** What each method records *)

Ltac unfold_calls :=
  unfold print, Path_mkdir, Path_write_text, Path_exists, os_path_exists,
    shutil_copy2, Path_chmod, Path_symlink_to, Path_rmdir, shutil_rmtree,
    tempfile_mkdtemp, os_getpid.

Ltac emits_walk :=
  repeat (unfold_calls;
    lazymatch goal with
    | |- emits _ (bind _ _) => apply emits_bind; [|intros ?]
    | |- emits _ (ret _) => apply emits_ret
    | |- emits _ (raise _) => apply emits_raise
    | |- emits _ (get _) => apply emits_get
    | |- emits _ (modify _) => apply emits_modify
    | |- emits _ self_rootfs => apply emits_self_rootfs
    | |- emits _ (emit _) => apply emits_emit
    | |- emits _ (for_each _ _) => apply emits_for_each; intros ?
    | |- emits _ (try_except _ _) => apply emits_try_except; [|intros ?]
    | |- emits _ (try_finally _ _) => apply emits_try_finally
    | |- emits _ (syscall _ _) => apply emits_syscall; [intros ?|]
    | |- emits _ (subprocess_run _) => apply emits_subprocess_run; intros ?
    | |- emits _ (subprocess_run_text _) => apply emits_subprocess_run_text; [intros ?|]
    | |- emits _ (if ?b then _ else _) => destruct b
    | |- emits _ (match ?x with _ => _ end) => destruct x
    end).

Ltac failstop_walk :=
  repeat (unfold_calls;
    lazymatch goal with
    | |- failstop (bind _ _) => apply failstop_bind; [|intros ?]
    | |- failstop (ret _) => apply failstop_ret
    | |- failstop (raise _) => apply failstop_raise
    | |- failstop (get _) => apply failstop_get
    | |- failstop (modify _) => apply failstop_modify
    | |- failstop self_rootfs => apply failstop_self_rootfs
    | |- failstop (emit _) => apply failstop_emit; reflexivity
    | |- failstop (for_each _ _) => apply failstop_for_each; intros ?
    | |- failstop (try_except _ (fun e => if is_CalledProcessError e then _ else _)) =>
        apply failstop_except_CalledProcessError
    | |- failstop (syscall _ _) => apply failstop_syscall
    | |- failstop (subprocess_run _) => apply failstop_subprocess_run
    | |- failstop (subprocess_run_text _) => apply failstop_subprocess_run_text
    | |- failstop (if ?b then _ else _) => destruct b
    | |- failstop (match ?x with _ => _ end) => destruct x
    end).

Lemma basename_join (p : path) (entry : string) :
  Py.startswith entry "/" = false -> parts entry = [entry] ->
  basename (p // entry) = entry.
Proof.
  intros H1 H2. unfold joinpath, basename. rewrite H1, H2. apply last_last.
Qed.

Lemma emits_first_existing P l : emits P (first_existing l).
Proof. induction l as [|p l IH]; simpl; emits_walk. exact IH. Qed.

Lemma failstop_first_existing l : failstop (first_existing l).
Proof. induction l as [|p l IH]; simpl; failstop_walk. exact IH. Qed.

Lemma quiet_limits self mb cpu :
  emits (fun ev => quiet ev = true) (CGroupManager_create self mb cpu).
Proof.
  unfold CGroupManager_create. emits_walk; try reflexivity;
    unfold quiet, is_enroll, is_launch;
    rewrite basename_join by reflexivity; reflexivity.
Qed.

Lemma quiet_setup_busybox self :
  emits (fun ev => quiet ev = true) (RootFSManager__setup_busybox self).
Proof.
  unfold RootFSManager__setup_busybox, link_commands, link_command.
  emits_walk; try reflexivity. apply emits_first_existing.
Qed.

Lemma quiet_copy_bash self :
  emits (fun ev => quiet ev = true) (RootFSManager__copy_bash self).
Proof.
  unfold RootFSManager__copy_bash, copy_library. emits_walk; reflexivity.
Qed.

Lemma quiet_provisioning self :
  emits (fun ev => quiet ev = true) (RootFSManager_create self).
Proof.
  unfold RootFSManager_create. emits_walk; try reflexivity.
  - apply quiet_setup_busybox.
  - apply quiet_copy_bash.
Qed.


Lemma failstop_provisioning self : failstop (RootFSManager_create self).
Proof.
  unfold RootFSManager_create, RootFSManager__setup_busybox, link_commands,
    link_command, RootFSManager__copy_bash, copy_library.
  failstop_walk. apply failstop_first_existing.
Qed.


(** ** Tear-down *)

Lemma emit_bind {B} ev (k : unit -> M B) s :
  bind (emit ev) k s = (ev :: trace_of (k tt s), final (k tt s), outcome (k tt s)).
Proof. unfold bind, emit. destruct (k tt s) as [[t s'] r]. reflexivity. Qed.

Lemma try_finally_trace {A} (m : M A) c s :
  trace_of (try_finally m c s) = trace_of (m s) ++ trace_of (c (final (m s))).
Proof.
  unfold try_finally, trace_of, final, outcome.
  destruct (m s) as [[t1 s1] r]. simpl.
  destruct (c s1) as [[t2 s2] [u|e]]; reflexivity.
Qed.

Lemma try_finally_outcome {A} (m : M A) c s :
  outcome (try_finally m c s) =
    match outcome (c (final (m s))) with
    | Ret _ => outcome (m s)
    | Raise e => Raise e
    end.
Proof.
  unfold try_finally, trace_of, final, outcome.
  destruct (m s) as [[t1 s1] r]. simpl.
  destruct (c s1) as [[t2 s2] [u|e]]; reflexivity.
Qed.

(** The three ways a library call can go. *)
Lemma syscall_cases {A} op (sem : machine -> oserr + A * machine) s :
  (exists a s', syscall op sem s = ([Sys op None], s', Ret a)) \/
  (exists c s', syscall op sem s = ([Sys op (Some c)], s', Raise (OSError c))) \/
  (exists s', syscall op sem s = ([Refused op], s', Raise ValueError) /\
              refusable op s' = true /\ fs s' = fs s /\ cwd s' = cwd s).
Proof.
  unfold syscall, pop_fault.
  destruct (faults s) as [|[c|] rest].
  - destruct (sem s) as [c|[a s1]]; [right; left|left]; eauto.
  - destruct (refusable op (set_faults rest s)) eqn:R.
    + right. right. eexists. split; [reflexivity|]. split; [exact R|]. split; reflexivity.
    + right. left. eauto.
  - destruct (sem (set_faults rest s)) as [c|[a s1]]; [right; left|left]; eauto.
Qed.

(** A call on a path that names something is never refused. *)
Lemma present_not_refused (p : path) s :
  present (fs s) p = true ->
  refusable (Rmdir p) s = false /\ refusable (Rmtree p) s = false /\
  refusable (Chmod p 493) s = false /\
  (forall t, Py.has_nul t = false -> refusable (SymlinkTo p t) s = false).
Proof.
  intros H. unfold refusable. rewrite H. simpl. rewrite !andb_false_r.
  repeat split. intros t ->. reflexivity.
Qed.

Lemma exists_is_present f p : exists_ f p = true -> present f p = true.
Proof.
  unfold exists_, present, stat. intros H.
  destruct (lstat f p) as [n|] eqn:E; [reflexivity|].
  destruct MAXSYMLINKS; simpl in H; rewrite E in H; simpl in H; rewrite ?E in H;
    discriminate.
Qed.

(** [CGroupManager.cleanup] calls [rmdir]; whatever the kernel answers is
    swallowed, a refusal is not. *)
Lemma cgroup_cleanup_cases self s :
  (exists r s', CGroupManager_cleanup self s =
     ([Call "CGroupManager.cleanup"; Sys (Rmdir (cg_path self)) r], s', Ret tt)) \/
  (exists s', CGroupManager_cleanup self s =
     ([Call "CGroupManager.cleanup"; Refused (Rmdir (cg_path self))], s',
      Raise ValueError) /\
     nul_in (cg_path self) = true /\ present (fs s) (cg_path self) = false).
Proof.
  unfold CGroupManager_cleanup. rewrite emit_bind. unfold try_except, Path_rmdir.
  destruct (syscall_cases (Rmdir (cg_path self)) (on_fs (rmdir_sem (cg_path self))) s)
    as [([] & s' & E)|[(c & s' & E)|(s' & E & R & F & _)]]; rewrite E; simpl.
  - left. eauto.
  - left. eauto.
  - right. exists s'. split; [reflexivity|].
    unfold refusable in R. rewrite F in R. apply andb_true_iff in R as [R1 R2].
    split; [exact R1|]. now destruct (present (fs s) (cg_path self)).
Qed.

Lemma cgroup_cleanup_head self s :
  exists t, trace_of (CGroupManager_cleanup self s) = Call "CGroupManager.cleanup" :: t.
Proof.
  destruct (cgroup_cleanup_cases self s) as [(r & s' & E)|(s' & E & _)]; rewrite E;
    simpl; eauto.
Qed.

Lemma rootfs_cleanup_shape self s :
  exists t, trace_of (RootFSManager_cleanup self s) =
    Call "RootFSManager.cleanup" :: t.
Proof. unfold RootFSManager_cleanup. rewrite emit_bind. simpl. eauto. Qed.

Lemma rootfs_cleanup_cases self s :
  match rootfs s with
  | None => RootFSManager_cleanup self s = ([Call "RootFSManager.cleanup"], s, Ret tt)
  | Some root =>
      if exists_ (fs s) root
      then RootFSManager_cleanup self s =
             (Call "RootFSManager.cleanup" :: trace_of (shutil_rmtree root s),
              final (shutil_rmtree root s), outcome (shutil_rmtree root s))
      else RootFSManager_cleanup self s = ([Call "RootFSManager.cleanup"], s, Ret tt)
  end.
Proof.
  unfold RootFSManager_cleanup. rewrite emit_bind.
  unfold bind, get, Path_exists. simpl.
  destruct (rootfs s) as [root|]; [|reflexivity]. simpl.
  destruct (exists_ (fs s) root); [|reflexivity].
  destruct (shutil_rmtree root s) as [[t s'] r]. reflexivity.
Qed.

(** [rmtree] of a root that is there is made, not refused. *)
Lemma rmtree_cases root s :
  exists_ (fs s) root = true ->
  (exists s', shutil_rmtree root s = ([Sys (Rmtree root) None], s', Ret tt)) \/
  (exists c s', shutil_rmtree root s =
     ([Sys (Rmtree root) (Some c)], s', Raise (OSError c))).
Proof.
  intros X. unfold shutil_rmtree.
  destruct (syscall_cases (Rmtree root) (on_fs (rmtree_sem root)) s)
    as [([] & s' & E)|[(c & s' & E)|(s' & E & R & F & _)]].
  - left. eauto.
  - right. eauto.
  - exfalso. apply exists_is_present in X. rewrite <- F in X.
    destruct (present_not_refused root s' X) as (_ & H & _). congruence.
Qed.

(** [RootFSManager.cleanup] on a root that is there: [rmtree] is called
    and its result is the result of [cleanup]. *)
Lemma rootfs_cleanup_removal self s root :
  rootfs s = Some root -> exists_ (fs s) root = true ->
  exists r s',
    RootFSManager_cleanup self s =
      ([Call "RootFSManager.cleanup"; Sys (Rmtree root) r], s',
       match r with None => Ret tt | Some c => Raise (OSError c) end).
Proof.
  intros R X. pose proof (rootfs_cleanup_cases self s) as C. rewrite R, X in C.
  destruct (rmtree_cases root s X) as [(s' & E)|(c & s' & E)]; rewrite E in C;
    simpl in C; rewrite C.
  - exists None, s'. reflexivity.
  - exists (Some c), s'. reflexivity.
Qed.

(** How [_cleanup] can go: both managers are called and it returns; both
    are called and a failed [rmtree] leaves it; or [rmdir] is refused and
    the second manager is never called. *)
Lemma teardown_cases self s :
  let head := [Call "Container._cleanup"; Print (nl +:+ banner); Print "Очистка";
               Print banner; Call "CGroupManager.cleanup"] in
  (exists r t s',
     Container__cleanup self s =
       (head ++ Sys (Rmdir (cg_path (cgroup self))) r
             :: Call "RootFSManager.cleanup" :: t ++ [Print ("✓ Готово" +:+ nl)],
        s', Ret tt) /\
     (t = [] \/ exists root, t = [Sys (Rmtree root) None])) \/
  (exists r root c s',
     Container__cleanup self s =
       (head ++ [Sys (Rmdir (cg_path (cgroup self))) r; Call "RootFSManager.cleanup";
                 Sys (Rmtree root) (Some c)],
        s', Raise (OSError c))) \/
  (exists s',
     Container__cleanup self s =
       (head ++ [Refused (Rmdir (cg_path (cgroup self)))], s', Raise ValueError) /\
     nul_in (cg_path (cgroup self)) = true).
Proof.
  intros head. subst head. unfold Container__cleanup, print. rewrite !emit_bind. simpl.
  destruct (cgroup_cleanup_cases (cgroup self) s) as [(r & s1 & E)|(s1 & E & N & _)].
  - rewrite (bind_Ret _ _ _ _ _ _ E). simpl.
    pose proof (rootfs_cleanup_cases (rootfs_mgr self) s1) as C.
    destruct (rootfs s1) as [root|] eqn:R.
    + destruct (exists_ (fs s1) root) eqn:X.
      * destruct (rootfs_cleanup_removal (rootfs_mgr self) s1 root R X)
          as ([c|] & s2 & E2).
        -- rewrite (bind_Raise _ _ _ _ _ _ E2). simpl. right. left.
           exists r, root, c, s2. reflexivity.
        -- rewrite (bind_Ret _ _ _ _ _ _ E2). simpl. left.
           exists r, [Sys (Rmtree root) None], s2. split; [reflexivity|eauto].
      * rewrite (bind_Ret _ _ _ _ _ _ C). simpl. left.
        exists r, [], s1. split; [reflexivity|auto].
    + rewrite (bind_Ret _ _ _ _ _ _ C). simpl. left.
      exists r, [], s1. split; [reflexivity|auto].
  - rewrite (bind_Raise _ _ _ _ _ _ E). simpl. right. right. exists s1.
    split; [reflexivity|exact N].
Qed.





(** ** The host tree *)

Lemma lstat_app f (p : path) e : lstat f (p ++ [e]) = f !! (p ++ [e]).
Proof. destruct p; reflexivity. Qed.

Lemma parent_app (p : path) e : parent (p ++ [e]) = p.
Proof. apply removelast_last. Qed.

Lemma basename_app (p : path) e : basename (p ++ [e]) = e.
Proof. apply last_last. Qed.

Lemma follow_stop n f p :
  (forall t, lstat f p <> Some (Symlink t)) -> follow n f p = Some p.
Proof.
  intros H. destruct n; simpl; destruct (lstat f p) as [[]|] eqn:E;
    try reflexivity; exfalso; eapply H; reflexivity.
Qed.

Lemma follow_S k f p :
  follow (S k) f p =
    match lstat f p with
    | Some (Symlink t) => follow k f (parent p // t)
    | _ => Some p
    end.
Proof. reflexivity. Qed.

Lemma stat_lstat f p n :
  lstat f p = Some n -> (forall t, n <> Symlink t) -> stat f p = Some n.
Proof.
  intros E H. unfold stat. rewrite follow_stop; [exact E|].
  intros t Ht. rewrite E in Ht. injection Ht as ->. now apply (H t).
Qed.

Lemma stat_absent f p : lstat f p = None -> stat f p = None.
Proof.
  intros E. unfold stat. rewrite follow_stop; [exact E|]. now rewrite E.
Qed.

Lemma exists_absent f p : lstat f p = None -> exists_ f p = false.
Proof. intros E. unfold exists_. now rewrite stat_absent. Qed.

Lemma exists_present f p : exists_ f p = true -> exists n, lstat f p = Some n.
Proof.
  intros H. destruct (lstat f p) as [n|] eqn:E; [eauto|].
  rewrite exists_absent in H by exact E. discriminate.
Qed.

Lemma under_refl p : under p p = true.
Proof. unfold under. now apply bool_decide_eq_true. Qed.

Lemma under_app (p : path) l : under p (p ++ l) = true.
Proof. unfold under. apply bool_decide_eq_true. now apply prefix_app_r. Qed.

Lemma under_head a b (p q : path) : under (a :: p) (b :: q) = true -> a = b.
Proof.
  unfold under. intros H. apply bool_decide_eq_true in H.
  destruct H as [k E]. now injection E.
Qed.

Lemma childless_absent f (p q : path) :
  childless f p -> under p q = true -> q <> p -> f !! q = None.
Proof.
  intros H Hu Hne. destruct (f !! q) as [n|] eqn:E; [|reflexivity].
  exfalso. apply Hne. exact (H q n E Hu).
Qed.

Lemma app_last_ne (p : path) e : p ++ [e] <> p.
Proof.
  intros H. apply (f_equal List.length) in H. rewrite length_app in H.
  simpl in H. lia.
Qed.

(** ** Calls on a host that injects no errors *)

Lemma syscall_ok {A} op (sem : machine -> oserr + A * machine) s a s' :
  faults s = [] -> sem s = inr (a, s') ->
  syscall op sem s = ([Sys op None], s', Ret a).
Proof.
  intros F E. unfold syscall, pop_fault. rewrite F, E. reflexivity.
Qed.

Lemma on_fs_ok sem s f :
  sem (fs s) = inr f -> on_fs sem s = inr (tt, set_fs f s).
Proof. intros E. unfold on_fs. now rewrite E. Qed.

Lemma write_cgroup_entry f (g : path) files procs entry data :
  f !! g = Some (CGroup files procs) -> g <> [] ->
  f !! (g ++ [entry]) = None ->
  String.eqb entry "cgroup.procs" = false ->
  write_sem (g ++ [entry]) data f =
    inr (<[g := CGroup (<[entry := data]> files) procs]> f).
Proof.
  intros Hg Hne Habs Hentry. unfold write_sem.
  assert (Lg : lstat f g = Some (CGroup files procs)) by (destruct g; [easy|exact Hg]).
  rewrite follow_stop by (rewrite lstat_app, Habs; discriminate).
  rewrite lstat_app, Habs, parent_app.
  rewrite follow_stop by (rewrite Lg; discriminate).
  rewrite Lg. unfold cgroup_write. rewrite basename_app, Hentry. reflexivity.
Qed.


Lemma step_emit {B} ev (k : unit -> M B) s t s' r :
  k tt s = (t, s', r) -> bind (emit ev) k s = (ev :: t, s', r).
Proof. intros E. unfold bind, emit. now rewrite E. Qed.

Lemma step_ret {A B} (a : A) (k : A -> M B) s : bind (ret a) k s = k a s.
Proof. unfold bind, ret. now destruct (k a s) as [[? ?] ?]. Qed.

Lemma step_get {A B} (f : machine -> A) (k : A -> M B) s :
  bind (get f) k s = k (f s) s.
Proof. unfold bind, get. now destruct (k (f s) s) as [[? ?] ?]. Qed.

Lemma step_modify {B} u (k : unit -> M B) s :
  bind (modify u) k s = k tt (u s).
Proof. unfold bind, modify. now destruct (k tt (u s)) as [[? ?] ?]. Qed.

Lemma step_modify_to {B} u (k : unit -> M B) s x :
  k tt (u s) = x -> bind (modify u) k s = x.
Proof. intros <-. apply step_modify. Qed.

Lemma step_self_rootfs {B} (k : path -> M B) s root :
  rootfs s = Some root -> bind self_rootfs k s = k root s.
Proof.
  intros E. unfold bind, self_rootfs. rewrite E.
  now destruct (k root s) as [[? ?] ?].
Qed.

Lemma step_syscall {A B} op sem (k : A -> M B) s a s' t s'' r :
  faults s = [] -> sem s = inr (a, s') -> k a s' = (t, s'', r) ->
  bind (syscall op sem) k s = (Sys op None :: t, s'', r).
Proof.
  intros F E K. rewrite (bind_Ret _ _ _ _ _ _ (syscall_ok op sem s a s' F E)).
  now rewrite K.
Qed.

Lemma bind_assoc {A B C} (m : M A) (f : A -> M B) (g : B -> M C) s :
  bind (bind m f) g s = bind m (fun x => bind (f x) g) s.
Proof.
  unfold bind. destruct (m s) as [[t1 s1] [a|e]]; [|reflexivity].
  destruct (f a s1) as [[t2 s2] [b|e]]; [|reflexivity].
  destruct (g b s2) as [[t3 s3] r]. now rewrite app_assoc.
Qed.

Lemma step_bind_run {B} argv (k : CompletedProcess -> M B) s :
  bind (subprocess_run argv) k s =
    match spawn s argv with
    | Returned rc out =>
        (Exec argv (Returned rc out)
           :: trace_of (k {| returncode := rc; stdout := EmptyString |} s),
         final (k {| returncode := rc; stdout := EmptyString |} s),
         outcome (k {| returncode := rc; stdout := EmptyString |} s))
    | o => ([Exec argv o], s, launch_failure argv o)
    end.
Proof.
  unfold bind, subprocess_run. destruct (spawn s argv) as [rc out|c|]; try reflexivity.
  now destruct (k _ s) as [[? ?] ?].
Qed.

Lemma step_bind {A B} (m : M A) (k : A -> M B) s t1 s1 a t2 s2 r :
  m s = (t1, s1, Ret a) -> k a s1 = (t2, s2, r) ->
  bind m k s = (t1 ++ t2, s2, r).
Proof. intros E K. rewrite (bind_Ret _ _ _ _ _ _ E). now rewrite K. Qed.

Lemma mkdir_fresh f (p : path) n :
  lstat f p = None -> stat f (parent p) = Some n ->
  mkdir_sem p f =
    match n with
    | Dir => inr (<[p := Dir]> f)
    | CGroup _ _ => inr (<[p := CGroup ∅ []]> f)
    | _ => inl ENOTDIR
    end.
Proof.
  intros E1 E2. unfold mkdir_sem, os_mkdir. rewrite E1, E2. now destruct n.
Qed.

(** ** Resource limits *)

Lemma limits_returns self mb cpu s :
  outcome (CGroupManager_create self mb cpu s) = Ret tt ->
  trace_of (CGroupManager_create self mb cpu s) = limits_trace self mb cpu.
Proof.
  unfold CGroupManager_create, Path_mkdir, Path_write_text, print.
  rewrite emit_bind.
  match goal with |- context [bind (syscall ?op ?sem) ?k s] =>
    destruct (syscall_cases op sem s) as [([] & s1 & E)|[(c & s1 & E)|(s1 & E & _)]] end;
    [rewrite (bind_Ret _ _ _ _ _ _ E)|rewrite (bind_Raise _ _ _ _ _ _ E); discriminate
    |rewrite (bind_Raise _ _ _ _ _ _ E); discriminate].
  match goal with |- context [bind (syscall ?op ?sem) ?k s1] =>
    destruct (syscall_cases op sem s1) as [([] & s2 & E2)|[(c & s2 & E2)|(s2 & E2 & _)]] end;
    [rewrite (bind_Ret _ _ _ _ _ _ E2)|rewrite (bind_Raise _ _ _ _ _ _ E2); discriminate
    |rewrite (bind_Raise _ _ _ _ _ _ E2); discriminate].
  match goal with |- context [bind (syscall ?op ?sem) ?k s2] =>
    destruct (syscall_cases op sem s2) as [([] & s3 & E3)|[(c & s3 & E3)|(s3 & E3 & _)]] end;
    [rewrite (bind_Ret _ _ _ _ _ _ E3)|rewrite (bind_Raise _ _ _ _ _ _ E3); discriminate
    |rewrite (bind_Raise _ _ _ _ _ _ E3); discriminate].
  reflexivity.
Qed.

Lemma limits_writes self mb cpu :
  emits (fun ev =>
           forall p data err, ev = Sys (WriteText p data) err ->
             (p = cg_path self // "memory.max" /\ data = Py.str (mb * 1024 * 1024)) \/
             (p = cg_path self // "cpu.max" /\ data = Py.str (cpu * 1000) +:+ " 100000"))
        (CGroupManager_create self mb cpu).
Proof.
  unfold CGroupManager_create. emits_walk; intros p data err E;
    try discriminate; injection E as <- <- <-; auto.
Qed.

Lemma create_fresh_group self mb cpu s files0 procs0 :
  faults s = [] ->
  lstat (fs s) (cg_path self) = None ->
  childless (fs s) (cg_path self) ->
  stat (fs s) (parent (cg_path self)) = Some (CGroup files0 procs0) ->
  CGroupManager_create self mb cpu s =
    (limits_trace self mb cpu,
     set_fs (<[cg_path self := limited_group mb cpu]> (fs s)) s, Ret tt).
Proof.
  intros F Habs Hch Hpar. unfold limits_trace. set (g := cg_path self) in *.
  assert (Hg : g <> []) by (intros E; rewrite E in Habs; discriminate).
  assert (Hentry : forall e (f : fsmap) n, f !! (g ++ [e]) = None ->
            <[g := n]> f !! (g ++ [e]) = None).
  { intros e f n H. now rewrite lookup_insert_ne by (symmetry; apply app_last_ne). }
  assert (Hfree : forall e, fs s !! (g ++ [e]) = None).
  { intros e. apply (childless_absent _ g);
      [exact Hch|apply under_app|apply app_last_ne]. }
  unfold CGroupManager_create, Path_mkdir, Path_write_text, print.
  fold g. change (g // "memory.max") with (g ++ ["memory.max"]).
  change (g // "cpu.max") with (g ++ ["cpu.max"]).
  apply step_emit.
  eapply step_syscall; [exact F| |].
  { apply on_fs_ok. now rewrite (mkdir_fresh _ _ _ Habs Hpar). }
  eapply step_syscall; [exact F| |].
  { apply on_fs_ok. simpl fs.
    apply (write_cgroup_entry _ g ∅ [] "memory.max");
      [apply lookup_insert_eq|exact Hg|now apply Hentry|reflexivity]. }
  eapply step_syscall; [exact F| |].
  { apply on_fs_ok. simpl fs. rewrite insert_insert_eq.
    eapply (write_cgroup_entry _ g);
      [apply lookup_insert_eq|exact Hg|now apply Hentry|reflexivity]. }
  simpl. rewrite insert_insert_eq. reflexivity.
Qed.

(** C4. For every positive [memory_mb], the only text [create] ever writes
    to the group's [memory.max] is the decimal numeral of
    [memory_mb * 1024 * 1024]; when [create] returns, that write has
    succeeded; the numeral reads back as exactly that number; and in a
    group that [create] made itself the entry holds it afterwards. *)
Theorem memory_ceiling_exact (self : CGroupManager) (memory_mb cpu_percent : Z)
    (s : machine) :
  0 < memory_mb ->
  let bytes := memory_mb * 1024 * 1024 in
  let entry := cg_path self // "memory.max" in
  let run := CGroupManager_create self memory_mb cpu_percent s in
  (forall data err, In (Sys (WriteText entry data) err) (trace_of run) ->
     data = Py.str bytes) /\
  (outcome run = Ret tt -> In (Sys (WriteText entry (Py.str bytes)) None) (trace_of run)) /\
  Py.int (Py.str bytes) = Some bytes /\
  (faults s = [] -> lstat (fs s) (cg_path self) = None ->
   childless (fs s) (cg_path self) ->
   (exists files procs, stat (fs s) (parent (cg_path self)) = Some (CGroup files procs)) ->
   outcome run = Ret tt /\
   exists files,
     fs (final run) !! cg_path self = Some (CGroup files []) /\
     files !! "memory.max" = Some (Py.str bytes)).
Proof.
  intros _ bytes entry run. repeat split.
  - intros data err Hin.
    pose proof (proj1 (List.Forall_forall _ _)
                  (limits_writes self memory_mb cpu_percent s) _ Hin _ _ _ eq_refl) as H.
    destruct H as [[_ H]|[H _]]; [exact H|].
    apply app_inv_head in H. discriminate.
  - intros H. subst run. rewrite (limits_returns _ _ _ _ H).
    right. right. left. reflexivity.
  - apply int_str.
  - subst run. destruct H2 as (files0 & procs0 & H2).
    now rewrite (create_fresh_group _ _ _ _ _ _ H H0 H1 H2).
  - subst run. destruct H2 as (files0 & procs0 & H2).
    rewrite (create_fresh_group _ _ _ _ _ _ H H0 H1 H2). simpl.
    eexists. split; [apply lookup_insert_eq|].
    rewrite lookup_insert_ne by discriminate. apply lookup_insert_eq.
Qed.

Lemma memory_ceiling_exact_witness :
  0 < 50 /\
  In (Sys (WriteText ["sys"; "fs"; "cgroup"; "demo"; "memory.max"] "52428800") None)
     (trace_of (CGroupManager_create (CGroupManager_init "demo") 50 25 Sample.healthy)) /\
  exists files,
    fs (final (CGroupManager_create (CGroupManager_init "demo") 50 25 Sample.healthy))
      !! ["sys"; "fs"; "cgroup"; "demo"] = Some (CGroup files []) /\
    files !! "memory.max" = Some "52428800".
Proof.
  assert (P : 0 < 50) by lia.
  destruct (memory_ceiling_exact (CGroupManager_init "demo") 50 25 Sample.healthy P)
    as (_ & Hret & _ & Hfresh).
  split; [exact P|]. split.
  - apply Hret. vm_compute. reflexivity.
  - apply Hfresh.
    + reflexivity.
    + vm_compute. reflexivity.
    + apply (@bool_decide_unpack _ (childless_dec _ _)). vm_compute. exact I.
    + exists ∅, []. vm_compute. reflexivity.
Defined.

(** C5. For every [cpu_percent], the only text [create] ever writes to the
    group's [cpu.max] is the numeral of [cpu_percent * 1000], one space, and
    [100000]; when [create] returns, that write has succeeded; and in a
    group that [create] made itself the entry holds it afterwards. *)
Theorem cpu_quota_exact (self : CGroupManager) (memory_mb cpu_percent : Z)
    (s : machine) :
  let quota := Py.str (cpu_percent * 1000) +:+ " 100000" in
  let entry := cg_path self // "cpu.max" in
  let run := CGroupManager_create self memory_mb cpu_percent s in
  (forall data err, In (Sys (WriteText entry data) err) (trace_of run) ->
     data = quota) /\
  (outcome run = Ret tt -> In (Sys (WriteText entry quota) None) (trace_of run)) /\
  (Py.int (Py.str (cpu_percent * 1000)) = Some (cpu_percent * 1000) /\
   Py.int "100000" = Some 100000) /\
  (faults s = [] -> lstat (fs s) (cg_path self) = None ->
   childless (fs s) (cg_path self) ->
   (exists files procs, stat (fs s) (parent (cg_path self)) = Some (CGroup files procs)) ->
   outcome run = Ret tt /\
   exists files,
     fs (final run) !! cg_path self = Some (CGroup files []) /\
     files !! "cpu.max" = Some quota).
Proof.
  intros quota entry run. repeat split.
  - intros data err Hin.
    pose proof (proj1 (List.Forall_forall _ _)
                  (limits_writes self memory_mb cpu_percent s) _ Hin _ _ _ eq_refl) as H.
    destruct H as [[H _]|[_ H]]; [|exact H].
    apply app_inv_head in H. discriminate.
  - intros H. subst run. rewrite (limits_returns _ _ _ _ H).
    right. right. right. left. reflexivity.
  - apply int_str.
  - subst run. destruct H2 as (files0 & procs0 & H2).
    now rewrite (create_fresh_group _ _ _ _ _ _ H H0 H1 H2).
  - subst run. destruct H2 as (files0 & procs0 & H2).
    rewrite (create_fresh_group _ _ _ _ _ _ H H0 H1 H2). simpl.
    eexists. split; [apply lookup_insert_eq|]. apply lookup_insert_eq.
Qed.

Lemma cpu_quota_exact_witness :
  In (Sys (WriteText ["sys"; "fs"; "cgroup"; "demo"; "cpu.max"] "25000 100000") None)
     (trace_of (CGroupManager_create (CGroupManager_init "demo") 50 25 Sample.healthy)) /\
  exists files,
    fs (final (CGroupManager_create (CGroupManager_init "demo") 50 25 Sample.healthy))
      !! ["sys"; "fs"; "cgroup"; "demo"] = Some (CGroup files []) /\
    files !! "cpu.max" = Some "25000 100000".
Proof.
  destruct (cpu_quota_exact (CGroupManager_init "demo") 50 25 Sample.healthy)
    as (_ & Hret & _ & Hfresh).
  split.
  - apply Hret. vm_compute. reflexivity.
  - apply Hfresh.
    + reflexivity.
    + vm_compute. reflexivity.
    + apply (@bool_decide_unpack _ (childless_dec _ _)). vm_compute. exact I.
    + exists ∅, []. vm_compute. reflexivity.
Defined.

(** ** The process id never changes *)

Lemma keeps_pid_bind {A B} (m : M A) (k : A -> M B) :
  keeps_pid m -> (forall a, keeps_pid (k a)) -> keeps_pid (bind m k).
Proof.
  intros Hm Hk s. specialize (Hm s).
  destruct (m s) as [[t1 s1] [a|e]] eqn:E.
  - rewrite (bind_Ret _ _ _ _ _ _ E). simpl in *. now rewrite Hk.
  - now rewrite (bind_Raise _ _ _ _ _ _ E).
Qed.

Lemma keeps_pid_for_each {A} (l : list A) body :
  (forall x, keeps_pid (body x)) -> keeps_pid (for_each l body).
Proof.
  intros Hb. induction l as [|x l IH]; simpl; [easy|].
  apply keeps_pid_bind; [apply Hb | intros _; exact IH].
Qed.

Lemma keeps_pid_try_except {A} (m : M A) h :
  keeps_pid m -> (forall e, keeps_pid (h e)) -> keeps_pid (try_except m h).
Proof.
  intros Hm Hh s. specialize (Hm s). unfold try_except.
  destruct (m s) as [[t1 s1] [a|e]]; [exact Hm|].
  specialize (Hh e s1). destruct (h e s1) as [[t2 s2] r]. simpl in *. congruence.
Qed.

Lemma keeps_pid_syscall {A} op (sem : machine -> oserr + A * machine) :
  (forall s a s', sem s = inr (a, s') -> pid s' = pid s) ->
  keeps_pid (syscall op sem).
Proof.
  intros H s. unfold syscall, pop_fault.
  destruct (faults s) as [|[c|] rest]; simpl.
  - destruct (sem s) as [c|[a s1]] eqn:E; simpl; [reflexivity|]. exact (H _ _ _ E).
  - now destruct (refusable op (set_faults rest s)).
  - destruct (sem (set_faults rest s)) as [c|[a s1]] eqn:E; simpl; [reflexivity|].
    exact (H _ _ _ E).
Qed.

Lemma on_fs_pid sem s a s' : on_fs sem s = inr (a, s') -> pid s' = pid s.
Proof.
  unfold on_fs. destruct (sem (fs s)); [discriminate|]. now intros [= _ <-].
Qed.

Lemma keeps_pid_self_rootfs : keeps_pid self_rootfs.
Proof. intros s. unfold self_rootfs. now destruct (rootfs s). Qed.

Lemma keeps_pid_subprocess_run_text argv : keeps_pid (subprocess_run_text argv).
Proof.
  intros s. unfold subprocess_run_text.
  destruct (spawn s argv) as [rc out|c|]; try reflexivity.
  now destruct (Py.utf8 out && Py.utf8 (stderr s argv)).
Qed.

Ltac keeps_pid_walk :=
  repeat (unfold_calls;
    lazymatch goal with
    | |- keeps_pid (bind _ _) => apply keeps_pid_bind; [|intros ?]
    | |- keeps_pid (ret _) => intros ?; reflexivity
    | |- keeps_pid (raise _) => intros ?; reflexivity
    | |- keeps_pid (get _) => intros ?; reflexivity
    | |- keeps_pid (modify _) => intros ?; reflexivity
    | |- keeps_pid (emit _) => intros ?; reflexivity
    | |- keeps_pid (subprocess_run _) => intros ?; reflexivity
    | |- keeps_pid (subprocess_run_text _) => apply keeps_pid_subprocess_run_text
    | |- keeps_pid self_rootfs => apply keeps_pid_self_rootfs
    | |- keeps_pid (for_each _ _) => apply keeps_pid_for_each; intros ?
    | |- keeps_pid (try_except _ _) => apply keeps_pid_try_except; [|intros ?]
    | |- keeps_pid (syscall _ (on_fs _)) =>
        apply keeps_pid_syscall; intros ? ? ?; apply on_fs_pid
    | |- keeps_pid (syscall _ (fun s => on_fs _ s)) =>
        apply keeps_pid_syscall; intros ? ? ?; apply on_fs_pid
    | |- keeps_pid (if ?b then _ else _) => destruct b
    | |- keeps_pid (match ?x with _ => _ end) => destruct x
    end).

Lemma keeps_pid_first_existing l : keeps_pid (first_existing l).
Proof. induction l as [|p l IH]; simpl; keeps_pid_walk. exact IH. Qed.

Lemma keeps_pid_limits self mb cpu : keeps_pid (CGroupManager_create self mb cpu).
Proof. unfold CGroupManager_create. keeps_pid_walk. Qed.

Lemma keeps_pid_provisioning self : keeps_pid (RootFSManager_create self).
Proof.
  unfold RootFSManager_create, RootFSManager__setup_busybox, link_commands,
    link_command, RootFSManager__copy_bash, copy_library.
  keeps_pid_walk; try apply keeps_pid_first_existing.
  apply keeps_pid_syscall. intros s0 tmp s' E.
  destruct (mkdtemp_try _ _ _) as [c|[[file rest] f]]; [discriminate|].
  now injection E as _ <-.
Qed.

(** ** The shape of a run *)

Lemma quiet_split ev : quiet ev = true -> is_launch ev = false /\ is_enroll ev = false.
Proof.
  unfold quiet. intros H. apply andb_true_iff in H as [H1 H2].
  now rewrite negb_true_iff in H1, H2.
Qed.

Lemma split_unique {A} (Q : A -> bool) (a : list A) x b pre ev post :
  a ++ x :: b = pre ++ ev :: post ->
  List.Forall (fun e => Q e = false) a -> List.Forall (fun e => Q e = false) b ->
  Q ev = true ->
  pre = a /\ ev = x /\ post = b.
Proof.
  revert pre. induction a as [|a0 a IH]; intros pre E Ha Hb Hev.
  - destruct pre as [|y pre]; simpl in E.
    + injection E as <- <-. auto.
    + injection E as <- ->. apply List.Forall_app in Hb as [_ Hb].
      apply List.Forall_cons_iff in Hb as [Hb _]. congruence.
  - apply List.Forall_cons_iff in Ha as [Ha0 Ha].
    destruct pre as [|y pre]; simpl in E.
    + injection E as <- _. congruence.
    + injection E as <- E. destruct (IH pre E Ha Hb Hev) as (-> & -> & ->). auto.
Qed.

(** Steps 1 to 4 end in one of three ways: an exception before the
    enrolment is attempted, a failed enrolment, or an enrolment followed
    directly by the launch. *)
Lemma steps_shape self s :
  let g := cg_path (cgroup self) in
  let r := Container_run_steps self s in
  (List.Forall (fun ev => quiet ev = true) (trace_of r) /\ exists e, outcome r = Raise e) \/
  (exists t0 c,
     trace_of r = t0 ++ [Sys (WriteText (g // "cgroup.procs") (Py.str (pid s))) (Some c)] /\
     List.Forall (fun ev => quiet ev = true) t0 /\ outcome r = Raise (OSError c)) \/
  (exists t0 root o,
     trace_of r = t0 ++ [enrolled g (pid s);
                         Exec (launch_argv root (command (config self))) o] /\
     List.Forall (fun ev => quiet ev = true) t0 /\
     outcome r = launch_result (launch_argv root (command (config self))) o).
Proof.
  intros g r. subst r. unfold Container_run_steps.
  pose proof (quiet_limits (cgroup self) (memory_mb (config self))
                (cpu_percent (config self)) s) as Q1.
  pose proof (keeps_pid_limits (cgroup self) (memory_mb (config self))
                (cpu_percent (config self)) s) as P1.
  destruct (CGroupManager_create _ _ _ s) as [[t1 s1] [[]|e]] eqn:E1; simpl in Q1, P1.
  2:{ rewrite (bind_Raise _ _ _ _ _ _ E1). left. simpl. eauto. }
  rewrite (bind_Ret _ _ _ _ _ _ E1).
  pose proof (quiet_provisioning (rootfs_mgr self) s1) as Q2.
  pose proof (keeps_pid_provisioning (rootfs_mgr self) s1) as P2.
  destruct (RootFSManager_create _ s1) as [[t2 s2] [root|e]] eqn:E2; simpl in Q2, P2.
  2:{ rewrite (bind_Raise _ _ _ _ _ _ E2). left. simpl. split; [|eauto].
      apply List.Forall_app. now split. }
  rewrite (bind_Ret _ _ _ _ _ _ E2).
  unfold print, os_getpid, CGroupManager_add_process, Path_write_text.
  rewrite emit_bind, step_get, bind_assoc, emit_bind.
  replace (pid s2) with (pid s) by congruence. fold g.
  match goal with |- context [bind (syscall ?op ?sem) ?k s2] =>
    destruct (syscall_cases op sem s2) as [([] & s3 & E3)|[(c & s3 & E3)|(s3 & E3 & _)]] end.
  - rewrite (bind_Ret _ _ _ _ _ _ E3). right. right. rewrite step_bind_run.
    exists (t1 ++ t2 ++ [Print ("🚀 Команда: " +:+ command (config self) +:+ nl);
                         Call "CGroupManager.add_process"]),
      root, (spawn s3 (launch_argv root (command (config self)))).
    split; [|split].
    + rewrite <- !app_assoc.
      destruct (spawn s3 _) as [rc out|c|]; reflexivity.
    + apply List.Forall_app. split; [exact Q1|].
      apply List.Forall_app. split; [exact Q2|]. repeat constructor.
    + destruct (spawn s3 _) as [rc out|c|]; reflexivity.
  - rewrite (bind_Raise _ _ _ _ _ _ E3). right. left.
    exists (t1 ++ t2 ++ [Print ("🚀 Команда: " +:+ command (config self) +:+ nl);
                         Call "CGroupManager.add_process"]), c.
    split; [|split].
    + simpl. rewrite <- !app_assoc. reflexivity.
    + apply List.Forall_app. split; [exact Q1|].
      apply List.Forall_app. split; [exact Q2|]. repeat constructor.
    + reflexivity.
  - rewrite (bind_Raise _ _ _ _ _ _ E3). left. simpl. split; [|eauto].
    apply List.Forall_app. split; [exact Q1|].
    apply List.Forall_app. split; [exact Q2|]. repeat constructor.
Qed.

Lemma teardown_cleanup self :
  emits (fun ev => teardown_event ev = true) (Container__cleanup self).
Proof.
  unfold Container__cleanup, CGroupManager_cleanup, RootFSManager_cleanup.
  emits_walk; reflexivity.
Qed.

(** [_cleanup] returns, or its last call raised something no handler
    catches. *)
Lemma cleanup_outcome self s :
  (outcome (Container__cleanup self s) = Ret tt /\
   List.Forall (fun ev => escapes ev = None) (trace_of (Container__cleanup self s))) \/
  (exists t ev e,
     trace_of (Container__cleanup self s) = t ++ [ev] /\
     List.Forall (fun ev => escapes ev = None) t /\
     escapes ev = Some e /\ outcome (Container__cleanup self s) = Raise e).
Proof.
  destruct (teardown_cases self s)
    as [(r & t & s' & E & Ht)|[(r & root & c & s' & E)|(s' & E & N)]];
    cbv zeta in E; rewrite E; simpl.
  - left. split; [reflexivity|].
    destruct Ht as [->|(root & ->)]; repeat constructor.
  - right.
    exists [Call "Container._cleanup"; Print (nl +:+ banner); Print "Очистка";
            Print banner; Call "CGroupManager.cleanup";
            Sys (Rmdir (cg_path (cgroup self))) r; Call "RootFSManager.cleanup"],
      (Sys (Rmtree root) (Some c)), (OSError c).
    split; [reflexivity|]. split; [repeat constructor|]. split; reflexivity.
  - right.
    exists [Call "Container._cleanup"; Print (nl +:+ banner); Print "Очистка";
            Print banner; Call "CGroupManager.cleanup"],
      (Refused (Rmdir (cg_path (cgroup self)))), ValueError.
    split; [reflexivity|]. split; [repeat constructor|]. split; reflexivity.
Qed.

Lemma prints_contained (l : list event) :
  List.Forall (fun ev => is_print ev = true) l ->
  List.Forall (fun ev => escapes ev = None) l.
Proof. apply List.Forall_impl. intros [] H; try discriminate H; reflexivity. Qed.

Lemma except_prints_only self s :
  exists th,
    try_except (Container_run_steps self) Container_run_except s =
      (trace_of (Container_run_steps self s) ++ th,
       final (Container_run_steps self s),
       resolve (outcome (Container_run_steps self s))) /\
    List.Forall (fun ev => is_print ev = true) th.
Proof.
  unfold try_except.
  destruct (Container_run_steps self s) as [[t s1] [rc|e]]; simpl.
  - exists []. rewrite app_nil_r. split; [reflexivity|constructor].
  - destruct e; simpl; eexists; (split; [reflexivity|repeat constructor]).
Qed.

(** A run is its four opening lines, steps 1 to 4, and a tail made of
    what the [except] clauses print and of the tear-down; it resolves the
    outcome of the steps unless the last call of the tear-down raised. *)
Lemma run_decomp self s :
  exists tail,
    trace_of (Container_run self s) =
      prelude self ++ trace_of (Container_run_steps self s) ++ tail /\
    List.Forall (fun ev => teardown_event ev = true) tail /\
    ((outcome (Container_run self s) = resolve (outcome (Container_run_steps self s)) /\
      List.Forall (fun ev => escapes ev = None) tail) \/
     exists t ev e,
       tail = t ++ [ev] /\ List.Forall (fun ev => escapes ev = None) t /\
       escapes ev = Some e /\ outcome (Container_run self s) = Raise e).
Proof.
  unfold Container_run, print. rewrite !emit_bind. simpl.
  rewrite try_finally_trace, try_finally_outcome.
  destruct (except_prints_only self s) as (th & E & Hth). rewrite E. simpl.
  set (s1 := final (Container_run_steps self s)).
  exists (th ++ trace_of (Container__cleanup self s1)).
  split; [now rewrite app_assoc|]. split.
  - apply List.Forall_app. split; [|apply teardown_cleanup].
    eapply List.Forall_impl; [|exact Hth]. intros [] H; try discriminate H; reflexivity.
  - destruct (cleanup_outcome self s1) as [(H & C)|(t & ev & e & T & C & X & H)];
      rewrite H.
    + left. split; [reflexivity|]. apply List.Forall_app. split; [|exact C].
      now apply prints_contained.
    + right. exists (th ++ t), ev, e. rewrite T, app_assoc.
      split; [reflexivity|]. split; [|split; [exact X|reflexivity]].
      apply List.Forall_app. split; [now apply prints_contained|exact C].
Qed.

Lemma teardown_quiet ev : teardown_event ev = true -> quiet ev = true.
Proof.
  destruct ev as [| |[] ?| |[]|]; simpl; intros H; try discriminate; reflexivity.
Qed.

Lemma teardown_no_failure ev e :
  teardown_event ev = true -> raised_by ev = Some e -> is_removal ev = true.
Proof.
  destruct ev as [| |[] [?|]|? []|[]|]; simpl; intros H1 H2; try discriminate;
    reflexivity.
Qed.

(** Steps 1 to 4 remove nothing. *)
Lemma steps_contained self :
  emits (fun ev => escapes ev = None) (Container_run_steps self).
Proof.
  unfold Container_run_steps, CGroupManager_create, CGroupManager_add_process,
    RootFSManager_create, RootFSManager__setup_busybox, link_commands, link_command,
    RootFSManager__copy_bash, copy_library.
  emits_walk; try reflexivity. apply emits_first_existing.
Qed.

Lemma quiet_prelude self : List.Forall (fun ev => quiet ev = true) (prelude self).
Proof. repeat constructor. Qed.

(** C3. In every execution of [run] in which the isolated process is
    launched, the text [str(os.getpid())] has been written successfully to
    the group's [cgroup.procs] before that launch; nothing is enrolled
    after the launch; and no execution ever writes anything but the
    orchestrator's own pid to a member list. *)
Theorem enrolment_precedes_launch (self : Container) (s : machine)
    (pre post : list event) (ev : event) :
  trace_of (Container_run self s) = pre ++ ev :: post ->
  is_launch ev = true ->
  In (enrolled (cg_path (cgroup self)) (pid s)) pre /\
  List.Forall (fun e => is_enroll e = false) post /\
  (forall p data err,
     In (Sys (WriteText p data) err) (pre ++ ev :: post) ->
     is_enroll (Sys (WriteText p data) err) = true ->
     p = cg_path (cgroup self) // "cgroup.procs" /\ data = Py.str (pid s)).
Proof.
  intros E Hev. destruct (run_decomp self s) as (tail & D & Htail & _).
  assert (Qtail : List.Forall (fun e => quiet e = true) tail).
  { eapply List.Forall_impl; [|exact Htail]. apply teardown_quiet. }
  assert (Launch : forall l, List.Forall (fun e => quiet e = true) l ->
                     List.Forall (fun e => is_launch e = false) l).
  { intros l. apply List.Forall_impl. intros a H. now apply quiet_split in H. }
  assert (Enroll : forall l, List.Forall (fun e => quiet e = true) l ->
                     List.Forall (fun e => is_enroll e = false) l).
  { intros l. apply List.Forall_impl. intros a H. now apply quiet_split in H. }
  rewrite E in D.
  destruct (steps_shape self s) as [(Q & _)|[(t0 & c & T & Q & _)|(t0 & root & o & T & Q & _)]].
  - exfalso.
    assert (A : List.Forall (fun e => is_launch e = false) (pre ++ ev :: post)).
    { rewrite D. apply Launch. apply List.Forall_app. split; [apply quiet_prelude|].
      apply List.Forall_app. now split. }
    apply List.Forall_app in A as [_ A]. apply List.Forall_cons_iff in A as [A _].
    congruence.
  - exfalso.
    assert (A : List.Forall (fun e => is_launch e = false) (pre ++ ev :: post)).
    { rewrite D, T. apply List.Forall_app. split; [apply Launch, quiet_prelude|].
      apply List.Forall_app. split; [|now apply Launch].
      apply List.Forall_app. split; [now apply Launch|]. repeat constructor. }
    apply List.Forall_app in A as [_ A]. apply List.Forall_cons_iff in A as [A _].
    congruence.
  - rewrite T in D.
    assert (D' : (prelude self ++ t0 ++ [enrolled (cg_path (cgroup self)) (pid s)])
                 ++ Exec (launch_argv root (command (config self))) o :: tail
                 = pre ++ ev :: post).
    { rewrite D. rewrite <- !app_assoc. reflexivity. }
    apply (split_unique is_launch) in D' as (-> & -> & ->); [| |now apply Launch|exact Hev].
    2:{ apply List.Forall_app. split; [apply Launch, quiet_prelude|].
        apply List.Forall_app. split; [now apply Launch|]. repeat constructor. }
    split; [|split].
    + apply in_or_app. right. apply in_or_app. right. now left.
    + now apply Enroll.
    + intros p data err Hin Hen.
      assert (Hq : forall l, List.Forall (fun e => quiet e = true) l ->
                     In (Sys (WriteText p data) err) l -> False).
      { intros l Hl Hi. apply Enroll in Hl.
        rewrite List.Forall_forall in Hl. specialize (Hl _ Hi). congruence. }
      apply in_app_or in Hin as [Hin|[Hin|Hin]].
      * apply in_app_or in Hin as [Hin|Hin]; [destruct (Hq _ (quiet_prelude self) Hin)|].
        apply in_app_or in Hin as [Hin|[Hin|[]]]; [destruct (Hq _ Q Hin)|].
        unfold enrolled in Hin. now injection Hin as <- <- <-.
      * discriminate.
      * destruct (Hq _ Qtail Hin).
Qed.

Lemma enrolment_precedes_launch_witness :
  let tr := trace_of (Container_run Sample.self Sample.healthy) in
  In (enrolled ["sys"; "fs"; "cgroup"; "demo"] 4242) (firstn 43 tr) /\
  List.Forall (fun e => is_enroll e = false) (skipn 44 tr).
Proof.
  intros tr.
  destruct (enrolment_precedes_launch Sample.self Sample.healthy
              (firstn 43 tr) (skipn 44 tr) (nth 43 tr (Call EmptyString)))
    as (H1 & H2 & _).
  - vm_compute. reflexivity.
  - vm_compute. reflexivity.
  - split; [exact H1|exact H2].
Defined.




(** ** Growing trees *)

Lemma lstat_mono (f f' : fsmap) p n :
  f ⊆ f' -> lstat f p = Some n -> lstat f' p = Some n.
Proof.
  intros Hsub. destruct p as [|c p]; [easy|]. simpl.
  intros H. exact (lookup_weaken _ _ _ _ H Hsub).
Qed.

Lemma follow_mono (f f' : fsmap) k :
  f ⊆ f' -> forall p q x,
  follow k f p = Some q -> lstat f q = Some x -> follow k f' p = Some q.
Proof.
  intros Hsub. induction k as [|k IH]; intros p q x; simpl;
    destruct (lstat f p) as [n|] eqn:E.
  - rewrite (lstat_mono _ _ _ _ Hsub E). now destruct n.
  - intros [= <-] H. congruence.
  - rewrite (lstat_mono _ _ _ _ Hsub E). destruct n; try easy. apply IH.
  - intros [= <-] H. congruence.
Qed.

Lemma stat_mono (f f' : fsmap) p x :
  f ⊆ f' -> stat f p = Some x -> stat f' p = Some x.
Proof.
  intros Hsub. unfold stat.
  destruct (follow MAXSYMLINKS f p) as [q|] eqn:E; [|discriminate].
  intros H. rewrite (follow_mono _ _ _ Hsub _ _ _ E H).
  exact (lstat_mono _ _ _ _ Hsub H).
Qed.

Lemma exists_mono (f f' : fsmap) p :
  f ⊆ f' -> exists_ f p = true -> exists_ f' p = true.
Proof.
  intros Hsub. unfold exists_. destruct (stat f p) as [x|] eqn:E; [|discriminate].
  now rewrite (stat_mono _ _ _ _ Hsub E).
Qed.

Lemma lstat_None_lookup (f : fsmap) p : lstat f p = None -> f !! p = None.
Proof. destruct p; [discriminate|easy]. Qed.

(** ** The command links *)

Lemma link_command_cases cmd s root :
  rootfs s = Some root ->
  link_command cmd s =
    if exists_ (fs s) (root // "bin" // cmd) then ([], s, Ret tt)
    else Path_symlink_to (root // "bin" // cmd) "busybox" s.
Proof.
  intros R. unfold link_command. rewrite (step_self_rootfs _ _ _ R).
  unfold Path_exists. rewrite step_get. now destruct (exists_ _ _).
Qed.

Lemma link_command_no_root cmd s :
  rootfs s = None -> link_command cmd s = ([], s, Raise TypeError).
Proof. intros R. unfold link_command, bind, self_rootfs. now rewrite R. Qed.

Lemma symlink_cases link target s :
  (exists s',
     Path_symlink_to link target s = ([Sys (SymlinkTo link target) None], s', Ret tt) /\
     lstat (fs s) link = None /\ fs s' = <[link := Symlink target]> (fs s) /\
     rootfs s' = rootfs s /\ faults s' = tl (faults s)) \/
  (exists t e s',
     Path_symlink_to link target s = (t, s', Raise e) /\
     fs s' = fs s /\ rootfs s' = rootfs s /\ faults s' = tl (faults s) /\
     (Py.has_nul target = false -> lstat (fs s) link <> None ->
      let c := match faults s with Some c' :: _ => c' | _ => EEXIST end in
      t = [Sys (SymlinkTo link target) (Some c)] /\ e = OSError c)).
Proof.
  unfold Path_symlink_to, syscall, pop_fault, on_fs, symlink_sem.
  destruct (faults s) as [|[c|] rest] eqn:F.
  - destruct (lstat (fs s) link) as [n|] eqn:L.
    + right. eexists _, _, s. rewrite F. repeat split; reflexivity.
    + destruct (stat (fs s) (parent link)) as [[]|];
        try (right; eexists _, _, s; rewrite F; repeat split; easy).
      left. eexists. split; [reflexivity|]. simpl. rewrite F. auto.
  - destruct (refusable _ _) eqn:Rf.
    + right. eexists _, _, (set_faults rest s). split; [reflexivity|].
      split; [reflexivity|split; [reflexivity|split; [reflexivity|]]].
      intros N L. exfalso.
      simpl in Rf. rewrite N in Rf. simpl in Rf.
      apply andb_prop in Rf as [_ Rf]. unfold present in Rf.
      destruct (lstat (fs s) link); [discriminate|now apply L].
    + right. eexists _, _, (set_faults rest s). repeat split; reflexivity.
  - simpl fs. destruct (lstat (fs s) link) as [n|] eqn:L.
    + right. eexists _, _, (set_faults rest s). repeat split; reflexivity.
    + destruct (stat (fs s) (parent link)) as [[]|];
        try (right; eexists _, _, (set_faults rest s); simpl; repeat split; easy).
      left. eexists. split; [reflexivity|]. simpl. auto.
Qed.

(** One pass of the loop body only ever adds an entry where there was
    none. *)
Lemma link_command_frame cmd s :
  fs s ⊆ fs (final (link_command cmd s)) /\
  rootfs (final (link_command cmd s)) = rootfs s.
Proof.
  destruct (rootfs s) as [root|] eqn:R.
  - rewrite (link_command_cases _ _ _ R).
    destruct (exists_ _ _); [simpl; split; [reflexivity|exact R]|].
    destruct (symlink_cases (root // "bin" // cmd) "busybox" s)
      as [(s' & E & L & F & R' & _)|(t & e & s' & E & F & R' & _)];
      rewrite E; simpl; rewrite ?F, R'; (split; [|exact R]); try reflexivity.
    apply insert_subseteq. now apply lstat_None_lookup.
  - rewrite (link_command_no_root _ _ R). simpl. split; [reflexivity|exact R].
Qed.

Lemma link_commands_frame cmds s :
  fs s ⊆ fs (final (link_commands cmds s)) /\
  rootfs (final (link_commands cmds s)) = rootfs s.
Proof.
  unfold link_commands. revert s. induction cmds as [|c rest IH]; intros s; simpl.
  - split; reflexivity.
  - destruct (link_command_frame c s) as [F R].
    destruct (link_command c s) as [[t1 s1] [[]|e]] eqn:E; simpl in F, R.
    + rewrite (bind_Ret _ _ _ _ _ _ E). simpl.
      destruct (IH s1) as [F' R']. split; [now transitivity (fs s1)|congruence].
    + rewrite (bind_Raise _ _ _ _ _ _ E). simpl. now split.
Qed.

Lemma link_commands_cons c rest s :
  link_commands (c :: rest) s = bind (link_command c) (fun _ => link_commands rest) s.
Proof. reflexivity. Qed.

(** After a pass that returned, every command has an entry. *)
Lemma links_present cmds : forall s root cmd,
  rootfs s = Some root -> In cmd cmds ->
  outcome (link_commands cmds s) = Ret tt ->
  exists n, lstat (fs (final (link_commands cmds s))) (root // "bin" // cmd) = Some n.
Proof.
  induction cmds as [|c rest IH]; intros s root cmd R Hin; [destruct Hin|].
  rewrite link_commands_cons.
  destruct (link_command_frame c s) as [F R1].
  pose proof (link_command_cases c s root R) as C.
  destruct (link_command c s) as [[t1 s1] [[]|e]] eqn:E; simpl in F, R1.
  2:{ rewrite (bind_Raise _ _ _ _ _ _ E). discriminate. }
  rewrite (bind_Ret _ _ _ _ _ _ E). simpl. intros O.
  destruct (link_commands_frame rest s1) as [F2 _].
  destruct Hin as [->|Hin]; [|apply (IH s1 root cmd); congruence].
  assert (exists n, lstat (fs s1) (root // "bin" // cmd) = Some n) as [n Hn].
  { destruct (exists_ (fs s) (root // "bin" // cmd)) eqn:X.
    - injection C as _ <-. now apply exists_present.
    - destruct (symlink_cases (root // "bin" // cmd) "busybox" s)
        as [(s' & E' & L & F' & _)|(t & e & s' & E' & _)]; rewrite E' in C;
        [|discriminate].
      injection C as _ <-. rewrite F'. exists (Symlink "busybox").
      destruct (root // "bin" // cmd); [discriminate|]. apply lookup_insert_eq. }
  exists n. exact (lstat_mono _ _ _ _ F2 Hn).
Qed.

(** A pass over commands that all have an entry changes nothing in the
    tree, however it ends. *)
Lemma links_stable cmds : forall s root,
  rootfs s = Some root ->
  (forall cmd, In cmd cmds -> exists n, lstat (fs s) (root // "bin" // cmd) = Some n) ->
  fs (final (link_commands cmds s)) = fs s.
Proof.
  induction cmds as [|c rest IH]; intros s root R H; [reflexivity|].
  rewrite link_commands_cons.
  destruct (H c (or_introl eq_refl)) as [n Hn].
  pose proof (link_command_cases c s root R) as C.
  destruct (exists_ (fs s) (root // "bin" // c)).
  - rewrite (bind_Ret _ _ _ _ _ _ C). simpl.
    apply (IH s root R). intros cmd Hin. apply H. now right.
  - destruct (symlink_cases (root // "bin" // c) "busybox" s)
      as [(s' & E' & L & _)|(t & e & s' & E' & F' & R' & _)]; [congruence|].
    rewrite E' in C. rewrite (bind_Raise _ _ _ _ _ _ C). exact F'.
Qed.

(** A link that was absent or already pointed at BusyBox points at BusyBox
    once the pass has returned. *)
Lemma links_created cmds : forall s root cmd,
  rootfs s = Some root -> In cmd cmds ->
  lstat (fs s) (root // "bin" // cmd) = None \/
  lstat (fs s) (root // "bin" // cmd) = Some (Symlink "busybox") ->
  outcome (link_commands cmds s) = Ret tt ->
  lstat (fs (final (link_commands cmds s))) (root // "bin" // cmd)
    = Some (Symlink "busybox").
Proof.
  induction cmds as [|c rest IH]; intros s root cmd R Hin Hst; [destruct Hin|].
  rewrite link_commands_cons.
  destruct (link_command_frame c s) as [F R1].
  pose proof (link_command_cases c s root R) as C.
  destruct (link_command c s) as [[t1 s1] [[]|e]] eqn:E; simpl in F, R1.
  2:{ rewrite (bind_Raise _ _ _ _ _ _ E). discriminate. }
  rewrite (bind_Ret _ _ _ _ _ _ E). simpl. intros O.
  destruct (link_commands_frame rest s1) as [F2 _].
  assert (St1 : In cmd rest \/ cmd = c ->
            (In cmd rest /\ lstat (fs s1) (root // "bin" // cmd) = None) \/
            lstat (fs s1) (root // "bin" // cmd) = Some (Symlink "busybox")).
  { intros Hc.
    destruct (exists_ (fs s) (root // "bin" // c)) eqn:X.
    - injection C as _ <-. destruct Hst as [Hst|Hst]; [|now right].
      destruct Hc as [Hc| ->]; [left; now split|].
      rewrite (exists_absent _ _ Hst) in X. discriminate.
    - destruct (symlink_cases (root // "bin" // c) "busybox" s)
        as [(s' & E' & L & F' & _)|(t & e & s' & E' & _)]; rewrite E' in C;
        [|discriminate].
      injection C as _ <-. rewrite F'.
      destruct (decide (root // "bin" // c = root // "bin" // cmd)) as [Heq|Hne].
      + right. rewrite <- Heq.
        destruct (root // "bin" // c); [discriminate|]. apply lookup_insert_eq.
      + destruct Hc as [Hc| ->]; [|congruence].
        destruct Hst as [Hst|Hst].
        * left. split; [exact Hc|].
          destruct (root // "bin" // cmd) eqn:P; [discriminate|].
          simpl. rewrite lookup_insert_ne by congruence. exact Hst.
        * right. destruct (root // "bin" // cmd) eqn:P; [discriminate|].
          simpl. rewrite lookup_insert_ne by congruence. exact Hst. }
  destruct St1 as [[Hr Hn]|Hs].
  - destruct Hin as [->|Hin]; [now right|now left].
  - apply (IH s1 root cmd); [congruence|exact Hr|now left|exact O].
  - exact (lstat_mono _ _ _ _ F2 Hs).
Qed.

Lemma symlink_ok link target s :
  faults s = [] -> lstat (fs s) link = None ->
  stat (fs s) (parent link) = Some Dir ->
  Path_symlink_to link target s =
    ([Sys (SymlinkTo link target) None],
     set_fs (<[link := Symlink target]> (fs s)) s, Ret tt).
Proof.
  intros F L P. apply syscall_ok; [exact F|]. apply on_fs_ok.
  unfold symlink_sem. now rewrite L, P.
Qed.

(** On a host that injects no error, in a directory that exists, a pass
    over distinct links that are each absent or resolvable returns. *)
Lemma links_succeed cmds : forall s root,
  rootfs s = Some root -> faults s = [] ->
  List.NoDup (List.map (fun cmd => root // "bin" // cmd) cmds) ->
  (forall cmd, In cmd cmds -> stat (fs s) (parent (root // "bin" // cmd)) = Some Dir) ->
  (forall cmd, In cmd cmds ->
     lstat (fs s) (root // "bin" // cmd) = None \/
     exists_ (fs s) (root // "bin" // cmd) = true) ->
  outcome (link_commands cmds s) = Ret tt.
Proof.
  induction cmds as [|c rest IH]; intros s root R F ND Hpar Hst; [reflexivity|].
  rewrite link_commands_cons. simpl in ND.
  apply List.NoDup_cons_iff in ND as [Hnotin ND].
  pose proof (link_command_cases c s root R) as C.
  destruct (exists_ (fs s) (root // "bin" // c)) eqn:X.
  - rewrite (bind_Ret _ _ _ _ _ _ C). simpl.
    apply (IH s root R F ND); intros cmd Hin; [apply Hpar|apply Hst]; now right.
  - destruct (Hst c (or_introl eq_refl)) as [L|L]; [|congruence].
    rewrite (symlink_ok _ _ _ F L (Hpar c (or_introl eq_refl))) in C.
    rewrite (bind_Ret _ _ _ _ _ _ C). simpl.
    assert (Sub : fs s ⊆ <[root // "bin" // c := Symlink "busybox"]> (fs s)).
    { apply insert_subseteq. now apply lstat_None_lookup. }
    apply (IH _ root); [exact R|exact F|exact ND| |].
    + intros cmd Hin. apply (stat_mono _ _ _ _ Sub). apply Hpar. now right.
    + intros cmd Hin.
      assert (Hne : root // "bin" // c <> root // "bin" // cmd).
      { intros Heq. apply Hnotin. rewrite Heq.
        apply (List.in_map (fun cmd => root // "bin" // cmd)). exact Hin. }
      destruct (Hst cmd (or_intror Hin)) as [L'|L'].
      * left. simpl. destruct (root // "bin" // cmd) eqn:P; [discriminate|].
        simpl. rewrite lookup_insert_ne by congruence. exact L'.
      * right. exact (exists_mono _ _ _ Sub L').
Qed.

Lemma command_link root cmd :
  In cmd commands -> root // "bin" // cmd = (root ++ ["bin"]) ++ [cmd].
Proof.
  intros H. repeat (destruct H as [<-|H]; [reflexivity|]). destruct H.
Qed.

Lemma command_links_distinct root :
  List.NoDup (List.map (fun cmd => root // "bin" // cmd) commands).
Proof.
  assert (E : List.map (fun cmd => root // "bin" // cmd) commands
              = List.map (fun cmd => (root ++ ["bin"]) ++ [cmd]) commands)
    by reflexivity.
  rewrite E. apply List.NoDup_map_NoDup_ForallPairs.
  - intros a b _ _ H. apply app_inv_head in H. now injection H.
  - unfold commands. repeat (constructor; [simpl; intuition discriminate|]).
    constructor.
Qed.

Lemma busybox_link_resolves (f : fsmap) root cmd data :
  In cmd commands ->
  lstat f (root // "bin" // cmd) = Some (Symlink "busybox") ->
  lstat f (root // "bin/busybox") = Some (File data) ->
  stat f (root // "bin" // cmd) = Some (File data).
Proof.
  intros Hin L B. unfold stat. change MAXSYMLINKS with (S 39).
  rewrite follow_S, L, (command_link root cmd Hin), parent_app.
  change ((root ++ ["bin"]) // "busybox") with ((root ++ ["bin"]) ++ ["busybox"]).
  change (root // "bin/busybox") with (root ++ ["bin"; "busybox"]) in B.
  rewrite <- app_assoc. simpl app.
  rewrite follow_stop by (rewrite B; discriminate). exact B.
Qed.

(** C9. For every command of the fixed set: an entry already at
    [bin/<command>] is left exactly as it was (whatever the pass does
    next); where there was no entry, a symbolic link to [busybox] is there
    once the pass has returned; the pass does return on a host that injects
    no error when [bin/] is a directory and every link path is free or
    resolvable; a second pass leaves the tree as the first one left it; and
    such a link resolves to the BusyBox binary installed in [bin/]. *)
Theorem links_idempotent (s : machine) (root : path) :
  rootfs s = Some root ->
  let once := link_commands commands s in
  let twice := link_commands commands (final once) in
  let link cmd := root // "bin" // cmd in
  (forall cmd n, In cmd commands -> lstat (fs s) (link cmd) = Some n ->
     lstat (fs (final once)) (link cmd) = Some n) /\
  (forall cmd, In cmd commands -> lstat (fs s) (link cmd) = None ->
     outcome once = Ret tt ->
     lstat (fs (final once)) (link cmd) = Some (Symlink "busybox")) /\
  (faults s = [] -> stat (fs s) (root ++ ["bin"]) = Some Dir ->
   (forall cmd, In cmd commands ->
      lstat (fs s) (link cmd) = None \/ exists_ (fs s) (link cmd) = true) ->
   outcome once = Ret tt) /\
  (outcome once = Ret tt -> fs (final twice) = fs (final once)) /\
  (forall cmd data, In cmd commands ->
     lstat (fs (final once)) (link cmd) = Some (Symlink "busybox") ->
     lstat (fs (final once)) (root // "bin/busybox") = Some (File data) ->
     stat (fs (final once)) (link cmd) = Some (File data)).
Proof.
  intros R once twice link. subst once twice link.
  destruct (link_commands_frame commands s) as [Sub R1].
  split; [|split; [|split; [|split]]].
  - intros cmd n _ H. exact (lstat_mono _ _ _ _ Sub H).
  - intros cmd Hin L O. apply (links_created commands s root cmd R Hin); auto.
  - intros F Hbin Hst.
    apply (links_succeed commands s root R F (command_links_distinct root)); [|exact Hst].
    intros cmd Hin. rewrite (command_link root cmd Hin), parent_app. exact Hbin.
  - intros O. apply (links_stable commands _ root); [congruence|].
    intros cmd Hin. exact (links_present commands s root cmd R Hin O).
  - intros cmd data. apply busybox_link_resolves.
Qed.

Lemma links_idempotent_witness :
  let once := link_commands commands Sample.fresh_bin in
  outcome once = Ret tt /\
  lstat (fs (final once)) (Sample.new_root // "bin" // "sh") = Some (Symlink "busybox") /\
  lstat (fs (final once)) (Sample.new_root // "bin" // "busybox")
    = Some (File "busybox-elf") /\
  fs (final (link_commands commands (final once))) = fs (final once).
Proof.
  intros once.
  destruct (links_idempotent Sample.fresh_bin Sample.new_root eq_refl)
    as (Hkeep & Hnew & Hret & Hstable & _).
  assert (O : outcome once = Ret tt) by (vm_compute; reflexivity).
  split; [exact O|]. split; [|split].
  - apply Hnew; [simpl; auto|vm_compute; reflexivity|exact O].
  - exact (lstat_mono _ _ _ _ (proj1 (link_commands_frame commands Sample.fresh_bin))
             (eq_refl : lstat (fs Sample.fresh_bin) (Sample.new_root // "bin" // "busybox")
                        = Some (File "busybox-elf"))).
  - exact (Hstable O).
Defined.

(** C10. The guard of the link loop follows links: when [bin/<command>]
    is a symbolic link whose target does not exist, the guard takes the
    path for free, [symlink_to] is called on it and fails -- with
    [FileExistsError], unless the host injects another error for that very
    call -- the tree is left as it was, and the exception ends the loop;
    no handler in [_setup_busybox] or [create] catches a failed
    [symlink_to], so provisioning is aborted. *)
Theorem dangling_link_aborts (s : machine) (root : path) (cmd target : string) :
  rootfs s = Some root ->
  let link := root // "bin" // cmd in
  lstat (fs s) link = Some (Symlink target) ->
  exists_ (fs s) link = false ->
  let c := match faults s with Some c' :: _ => c' | _ => EEXIST end in
  trace_of (link_command cmd s) = [Sys (SymlinkTo link "busybox") (Some c)] /\
  outcome (link_command cmd s) = Raise (OSError c) /\
  fs (final (link_command cmd s)) = fs s /\
  (forall rest, outcome (link_commands (cmd :: rest) s) = Raise (OSError c)) /\
  (forall mgr s' l t c',
     In (Sys (SymlinkTo l t) (Some c')) (trace_of (RootFSManager_create mgr s')) ->
     outcome (RootFSManager_create mgr s') = Raise (OSError c')).
Proof.
  intros R link L X c. subst link.
  pose proof (link_command_cases cmd s root R) as C. rewrite X in C.
  destruct (symlink_cases (root // "bin" // cmd) "busybox" s)
    as [(s' & E & L' & _)|(t0 & e0 & s' & E & F & _ & _ & Hc)]; [congruence|].
  destruct Hc as (-> & ->); [reflexivity|congruence|]. fold c in E.
  rewrite E in C. split; [|split; [|split; [|split]]].
  - now rewrite C.
  - now rewrite C.
  - rewrite C. exact F.
  - intros rest. rewrite link_commands_cons. now rewrite (bind_Raise _ _ _ _ _ _ C).
  - intros mgr s2 l t c' Hin.
    exact (failstop_provisioning mgr s2 _ _ Hin eq_refl).
Qed.

Lemma dangling_link_aborts_witness :
  outcome (link_command "sh" Sample.dangling_sh) = Raise FileExistsError /\
  fs (final (link_command "sh" Sample.dangling_sh)) = fs Sample.dangling_sh.
Proof.
  destruct (dangling_link_aborts Sample.dangling_sh Sample.new_root "sh" "ash")
    as (_ & H1 & H2 & _).
  - reflexivity.
  - vm_compute. reflexivity.
  - vm_compute. reflexivity.
  - split; [exact H1|exact H2].
Defined.

(** The same dangling link met by [_setup_busybox] as a whole: BusyBox is
    found and copied, then the loop stops at [sh]. *)
Example setup_busybox_dangling :
  outcome (RootFSManager__setup_busybox (rootfs_mgr Sample.self) Sample.dangling_sh)
  = Raise FileExistsError.
Proof. vm_compute. reflexivity. Qed.

(** ** Provisioning without BusyBox *)

Lemma makedirs_direct n p f r : mkdir_sem p f = inr r -> makedirs n p f = inr r.
Proof. intros H. destruct n; simpl; now rewrite H. Qed.

Lemma mkdir_child (f : fsmap) (root : path) d n :
  root <> [] -> only_dirs_below root f -> f !! root = Some Dir ->
  exists f',
    makedirs n (root ++ [d]) f = inr f' /\
    only_dirs_below root f' /\ f' !! root = Some Dir /\
    (forall q, under root q = false -> f' !! q = f !! q).
Proof.
  intros Hne Hdirs Hroot.
  assert (Lroot : lstat f root = Some Dir) by (destruct root; [easy|exact Hroot]).
  destruct (f !! (root ++ [d])) as [x|] eqn:E.
  - assert (x = Dir) as -> by (apply (Hdirs _ _ (under_app root [d]) E)).
    exists f. split; [|auto]. apply makedirs_direct.
    unfold mkdir_sem, os_mkdir, is_dir. rewrite lstat_app, E.
    rewrite (stat_lstat f (root ++ [d]) Dir); [reflexivity| |discriminate].
    now rewrite lstat_app.
  - exists (<[root ++ [d] := Dir]> f). split; [|split; [|split]].
    + apply makedirs_direct. unfold mkdir_sem, os_mkdir.
      rewrite lstat_app, E, parent_app.
      rewrite (stat_lstat f root Dir Lroot); [reflexivity|discriminate].
    + intros q x Hu Hq. destruct (decide (root ++ [d] = q)) as [<-|Hq'].
      * rewrite lookup_insert_eq in Hq. congruence.
      * rewrite lookup_insert_ne in Hq by exact Hq'. exact (Hdirs _ _ Hu Hq).
    + rewrite lookup_insert_ne by apply app_last_ne. exact Hroot.
    + intros q Hu. apply lookup_insert_ne. intros <-.
      rewrite under_app in Hu. discriminate.
Qed.

Lemma skeleton_made ds : forall s root,
  (forall d, In d ds -> root // d = root ++ [d]) ->
  faults s = [] -> rootfs s = Some root -> root <> [] ->
  only_dirs_below root (fs s) -> fs s !! root = Some Dir ->
  exists t s',
    for_each ds (fun d => root <- self_rootfs ;; Path_mkdir (root // d) true) s
      = (t, s', Ret tt) /\
    faults s' = [] /\ rootfs s' = Some root /\
    only_dirs_below root (fs s') /\ fs s' !! root = Some Dir /\
    (forall q, under root q = false -> fs s' !! q = fs s !! q).
Proof.
  induction ds as [|d ds IH]; intros s root Hsimple F R Hne Hdirs Hroot.
  - exists [], s. simpl. repeat split; auto.
  - destruct (mkdir_child (fs s) root d (List.length (root ++ [d])) Hne Hdirs Hroot)
      as (f' & Hmk & Hdirs' & Hroot' & Hframe).
    destruct (IH (set_fs f' s) root) as (t & s' & E & F' & R' & D' & Hr' & Fr');
      auto.
    { intros d' Hin. apply Hsimple. now right. }
    exists (Sys (Mkdir (root ++ [d]) true) None :: t), s'.
    split; [|repeat split; auto].
    + cbn [for_each]. eapply (step_bind _ _ s [Sys (Mkdir (root ++ [d]) true) None]);
        [|exact E].
      rewrite (step_self_rootfs _ _ _ R). rewrite (Hsimple d (or_introl eq_refl)).
      apply syscall_ok; [exact F|]. now apply on_fs_ok.
    + intros q Hq. rewrite (Fr' q Hq). simpl. now apply Hframe.
Qed.

Lemma skeleton_simple root d : In d skeleton -> root // d = root ++ [d].
Proof.
  intros H. repeat (destruct H as [<-|H]; [reflexivity|]). destruct H.
Qed.

Lemma setup_without_busybox self s :
  (forall p, In p busybox_paths -> lstat (fs s) (cwd s // p) = None) ->
  RootFSManager__setup_busybox self s =
    ([Call "RootFSManager._setup_busybox"], s, Ret false).
Proof.
  intros H. unfold RootFSManager__setup_busybox. apply step_emit.
  unfold busybox_paths in *. cbn [first_existing]. unfold os_path_exists.
  rewrite bind_assoc, step_get, exists_absent by (apply H; simpl; auto).
  rewrite bind_assoc, step_get, exists_absent by (apply H; simpl; auto).
  rewrite bind_assoc, step_get, exists_absent by (apply H; simpl; auto).
  rewrite step_ret. reflexivity.
Qed.

Lemma root_for_tmp n sfx :
  root_for n sfx = "tmp" :: parts (("container_" +:+ n +:+ "_") +:+ sfx).
Proof. reflexivity. Qed.

Lemma cg_path_sys n :
  cg_path (CGroupManager_init n) = "sys" :: "fs" :: "cgroup" :: parts n.
Proof. reflexivity. Qed.

Lemma mkdtemp_fresh prefix sfx rest s :
  faults s = [] -> tmp_names s = sfx :: rest ->
  lstat (fs s) (Path ("/tmp/" +:+ prefix +:+ sfx)) = None ->
  stat (fs s) (parent (Path ("/tmp/" +:+ prefix +:+ sfx))) = Some Dir ->
  tempfile_mkdtemp prefix s =
    ([Sys (Mkdtemp prefix) None],
     set_tmp_names rest
       (set_fs (<[Path ("/tmp/" +:+ prefix +:+ sfx) := Dir]> (fs s)) s),
     Ret ("/tmp/" +:+ prefix +:+ sfx)).
Proof.
  intros F T L P. unfold tempfile_mkdtemp. apply syscall_ok; [exact F|].
  rewrite T. cbn [mkdtemp_try]. unfold os_mkdir. now rewrite L, P.
Qed.

Lemma try_except_Raise {A} (m : M A) h s t1 s1 e t2 s2 r :
  m s = (t1, s1, Raise e) -> h e s1 = (t2, s2, r) ->
  try_except m h s = (t1 ++ t2, s2, r).
Proof. intros E H. unfold try_except. now rewrite E, H. Qed.

Lemma try_except_Ret {A} (m : M A) h s t1 s1 a :
  m s = (t1, s1, Ret a) -> try_except m h s = (t1, s1, Ret a).
Proof. intros E. unfold try_except. now rewrite E. Qed.

Lemma try_finally_Ret {A} (m : M A) c s t1 s1 r t2 s2 u :
  m s = (t1, s1, r) -> c s1 = (t2, s2, Ret u) ->
  try_finally m c s = (t1 ++ t2, s2, r).
Proof. intros E H. unfold try_finally. now rewrite E, H. Qed.

Lemma under_other_head a b (p q : path) : a <> b -> under (a :: p) (b :: q) = false.
Proof.
  intros H. destruct (under (a :: p) (b :: q)) eqn:E; [|reflexivity].
  apply under_head in E. contradiction.
Qed.

Lemma busybox_path_shape p :
  In p busybox_paths ->
  Py.startswith p "/" = true /\
  exists a b, Path p = a :: b /\ a <> "tmp" /\ a <> "sys".
Proof.
  intros H. unfold busybox_paths in H.
  destruct H as [<-|[<-|[<-|[]]]]; (split; [reflexivity|]).
  - exists "usr", ["bin"; "busybox"]. split; [vm_compute; reflexivity|easy].
  - exists "bin", ["busybox"]. split; [vm_compute; reflexivity|easy].
  - exists "usr", ["bin"; "busybox-static"]. split; [vm_compute; reflexivity|easy].
Qed.

Lemma joinpath_absolute (c : path) p : Py.startswith p "/" = true -> c // p = Path p.
Proof. intros H. unfold joinpath. now rewrite H. Qed.

Lemma provision_core (mgr : RootFSManager) (s : machine) sfx rest (root tail : path) :
  Path ("/tmp/" +:+ ("container_" +:+ rfs_name mgr +:+ "_") +:+ sfx) = root ->
  root = "tmp" :: tail ->
  faults s = [] -> tmp_names s = sfx :: rest ->
  (forall q, under root q = true -> fs s !! q = None) ->
  stat (fs s) (parent root) = Some Dir ->
  (forall p, In p busybox_paths -> fs s !! Path p = None) ->
  exists t s',
    RootFSManager_create mgr s = (t, s', Raise (RuntimeError busybox_missing)) /\
    faults s' = [] /\ rootfs s' = Some root /\ fs s' !! root = Some Dir /\
    (forall q, under root q = false -> fs s' !! q = fs s !! q).
Proof.
  intros Hpath Hroot F T Hfree Hpar Hbb.
  assert (Hne : root <> []) by (rewrite Hroot; discriminate).
  assert (L0 : lstat (fs s) root = None).
  { rewrite Hroot. simpl. rewrite <- Hroot. apply Hfree, under_refl. }
  pose proof (mkdtemp_fresh ("container_" +:+ rfs_name mgr +:+ "_") sfx rest s F T) as Mk.
  rewrite Hpath in Mk. specialize (Mk L0 Hpar).
  set (s1 := set_rootfs (Some root)
               (set_tmp_names rest (set_fs (<[root := Dir]> (fs s)) s))).
  destruct (skeleton_made skeleton s1 root) as (t & s2 & E & F2 & R2 & _ & Hr2 & Fr2).
  { intros d. apply skeleton_simple. }
  { exact F. }
  { reflexivity. }
  { exact Hne. }
  { intros q n Hu. simpl. destruct (decide (root = q)) as [<-|Hq].
    - rewrite lookup_insert_eq. congruence.
    - rewrite lookup_insert_ne by exact Hq. rewrite (Hfree q Hu). discriminate. }
  { simpl. apply lookup_insert_eq. }
  assert (Hbb2 : forall p, In p busybox_paths -> lstat (fs s2) (cwd s2 // p) = None).
  { intros p Hin.
    destruct (busybox_path_shape p Hin) as (Habs & a & b & Hp & Ha & _).
    rewrite (joinpath_absolute _ _ Habs).
    assert (Hu : under root (Path p) = false).
    { rewrite Hroot, Hp. apply under_other_head. congruence. }
    assert (Hl : lstat (fs s2) (Path p) = fs s2 !! Path p) by now rewrite Hp.
    rewrite Hl, (Fr2 _ Hu). simpl.
    rewrite lookup_insert_ne by (intros Heq; rewrite <- Heq, under_refl in Hu; discriminate).
    now apply Hbb. }
  eexists _, s2. split; [|repeat split; auto].
  - unfold RootFSManager_create. apply step_emit.
    eapply step_bind; [exact Mk|].
    apply step_modify_to. rewrite Hpath. fold s1.
    eapply step_bind; [exact E|].
    eapply step_bind; [exact (setup_without_busybox mgr s2 Hbb2)|].
    reflexivity.
  - intros q Hq. rewrite (Fr2 q Hq). simpl.
    apply lookup_insert_ne. intros <-. rewrite under_refl in Hq. discriminate.
Qed.

Lemma provision_without_busybox (mgr : RootFSManager) (s : machine) sfx rest :
  faults s = [] -> tmp_names s = sfx :: rest ->
  (forall q, under (root_for (rfs_name mgr) sfx) q = true -> fs s !! q = None) ->
  stat (fs s) (parent (root_for (rfs_name mgr) sfx)) = Some Dir ->
  (forall p, In p busybox_paths -> fs s !! Path p = None) ->
  exists t s',
    RootFSManager_create mgr s = (t, s', Raise (RuntimeError busybox_missing)) /\
    faults s' = [] /\ rootfs s' = Some (root_for (rfs_name mgr) sfx) /\
    fs s' !! root_for (rfs_name mgr) sfx = Some Dir /\
    (forall q, under (root_for (rfs_name mgr) sfx) q = false -> fs s' !! q = fs s !! q).
Proof.
  apply (provision_core mgr s sfx rest (root_for (rfs_name mgr) sfx) _ eq_refl
           (root_for_tmp (rfs_name mgr) sfx)).
Qed.

Lemma rmdir_group (f : fsmap) (g : path) files :
  g <> [] -> f !! g = Some (CGroup files []) -> childless f g ->
  rmdir_sem g f = inr (delete g f).
Proof.
  intros Hne Hg Hch. unfold rmdir_sem. destruct g as [|c g]; [easy|].
  rewrite Hg. now destruct (decide (childless f (c :: g))).
Qed.

Lemma teardown_clean (self : Container) (s : machine) (root : path) files :
  faults s = [] -> rootfs s = Some root ->
  cg_path (cgroup self) <> [] ->
  fs s !! cg_path (cgroup self) = Some (CGroup files []) ->
  childless (fs s) (cg_path (cgroup self)) ->
  root <> [] -> root <> cg_path (cgroup self) -> fs s !! root = Some Dir ->
  exists t s',
    Container__cleanup self s = (t, s', Ret tt) /\
    fs s' = filter (fun kv => under root kv.1 = false) (delete (cg_path (cgroup self)) (fs s)).
Proof.
  intros F R Hg Hlk Hch Hroot Hne Hdir. set (g := cg_path (cgroup self)) in *.
  set (s1 := set_fs (delete g (fs s)) s).
  assert (E1 : CGroupManager_cleanup (cgroup self) s
               = ([Call "CGroupManager.cleanup"; Sys (Rmdir g) None], s1, Ret tt)).
  { unfold CGroupManager_cleanup. apply step_emit. apply try_except_Ret.
    apply syscall_ok; [exact F|]. apply on_fs_ok.
    exact (rmdir_group _ _ _ Hg Hlk Hch). }
  assert (Hdir1 : lstat (fs s1) root = Some Dir).
  { destruct root as [|c r]; [easy|]. simpl.
    rewrite lookup_delete_ne by congruence. exact Hdir. }
  set (s2 := set_fs (filter (fun kv => under root kv.1 = false) (fs s1)) s1).
  assert (E2 : RootFSManager_cleanup (rootfs_mgr self) s1
               = ([Call "RootFSManager.cleanup"; Sys (Rmtree root) None], s2, Ret tt)).
  { pose proof (rootfs_cleanup_cases (rootfs_mgr self) s1) as C.
    change (rootfs s1) with (rootfs s) in C. rewrite R in C.
    unfold exists_ in C. rewrite (stat_lstat _ _ _ Hdir1) in C by discriminate.
    rewrite C.
    assert (E : shutil_rmtree root s1 = ([Sys (Rmtree root) None], s2, Ret tt)).
    { apply syscall_ok; [exact F|]. apply on_fs_ok.
      unfold rmtree_sem. now rewrite Hdir1. }
    now rewrite E. }
  eexists _, s2. split; [|reflexivity].
  unfold Container__cleanup, print.
  do 4 apply step_emit.
  eapply step_bind; [exact E1|].
  eapply step_bind; [exact E2|]. reflexivity.
Qed.

Lemma pruned_below (f : fsmap) (root q : path) :
  under root q = true -> filter (fun kv => under root kv.1 = false) f !! q = None.
Proof.
  intros H. apply map_lookup_filter_None_2. right. intros x _ Hx.
  simpl in Hx. congruence.
Qed.

Lemma pruned_elsewhere (f : fsmap) (root q : path) :
  under root q = false -> filter (fun kv => under root kv.1 = false) f !! q = f !! q.
Proof.
  intros H. destruct (f !! q) as [x|] eqn:E.
  - now apply map_lookup_filter_Some_2.
  - apply map_lookup_filter_None_2. now left.
Qed.

(** The whole run on a host that lacks nothing but BusyBox. *)
Lemma run_without_busybox (cfg : ContainerConfig) (sfx : string) (s : machine) :
  busybox_less cfg sfx s ->
  exists t2 t3 s3,
    container_main cfg s =
      (prelude {| config := cfg; cgroup := CGroupManager_init (name cfg);
                  rootfs_mgr := {| rfs_name := name cfg |} |}
       ++ ((limits_trace (CGroupManager_init (name cfg)) (memory_mb cfg) (cpu_percent cfg)
            ++ t2) ++ [Print (nl +:+ "✗ Ошибка: " +:+ busybox_missing)]) ++ t3,
       s3, Ret 1) /\
    fs s3 = filter (fun kv => under (root_for (name cfg) sfx) kv.1 = false)
              (delete (cg_path (CGroupManager_init (name cfg))) (fs s)).
Proof.
  intros [F Gabs Gch (files0 & procs0 & Gpar) (rest & T) Rfree Rpar Bb].
  pose proof (cg_path_sys (name cfg)) as Hg.
  pose proof (root_for_tmp (name cfg) sfx) as Hroot.
  set (g := cg_path (CGroupManager_init (name cfg))) in *.
  set (root := root_for (name cfg) sfx) in *.
  set (self := {| config := cfg; cgroup := CGroupManager_init (name cfg);
                  rootfs_mgr := {| rfs_name := name cfg |} |}).
  assert (Hgl : fs s !! g = None) by now apply lstat_None_lookup.
  assert (Hrg : under root g = false).
  { rewrite Hroot, Hg. now apply under_other_head. }
  assert (Hgr : forall q, under root q = true -> g <> q).
  { intros q Hq <-. congruence. }
  set (s0 := set_rootfs None s).
  set (s1 := set_fs (<[g := limited_group (memory_mb cfg) (cpu_percent cfg)]> (fs s)) s0).
  assert (E1 : CGroupManager_create (CGroupManager_init (name cfg))
                 (memory_mb cfg) (cpu_percent cfg) s0
               = (limits_trace (CGroupManager_init (name cfg)) (memory_mb cfg)
                    (cpu_percent cfg), s1, Ret tt)).
  { exact (create_fresh_group _ _ _ s0 files0 procs0 F Gabs Gch Gpar). }
  assert (Sub : fs s ⊆ fs s1) by now apply insert_subseteq.
  destruct (provision_without_busybox {| rfs_name := name cfg |} s1 sfx rest)
    as (t2 & s2 & E2 & F2 & R2 & Hr2 & Fr2).
  { exact F. }
  { exact T. }
  { intros q Hq. simpl. rewrite lookup_insert_ne by now apply Hgr. now apply Rfree. }
  { exact (stat_mono _ _ _ _ Sub Rpar). }
  { intros p Hin. simpl.
    destruct (busybox_path_shape p Hin) as (_ & a & b & Hp & _ & Hs).
    rewrite lookup_insert_ne by (rewrite Hg, Hp; congruence). now apply Bb. }
  simpl rfs_name in *. fold root in R2, Hr2, Fr2.
  assert (Hg2 : fs s2 !! g = Some (limited_group (memory_mb cfg) (cpu_percent cfg))).
  { rewrite (Fr2 g Hrg). apply lookup_insert_eq. }
  unfold limited_group in Hg2.
  assert (Hself : cg_path (cgroup self) = g) by reflexivity.
  edestruct (teardown_clean self s2 root) as (t3 & s3 & E3 & Hfs3).
  { exact F2. }
  { exact R2. }
  { rewrite Hself, Hg. discriminate. }
  { rewrite Hself. exact Hg2. }
  { rewrite Hself. intros q n Hq Hu.
    destruct (under root q) eqn:Hrq.
    - exfalso. rewrite Hg in Hu. rewrite Hroot in Hrq.
      destruct q as [|c q]; [discriminate|].
      apply under_head in Hu. apply under_head in Hrq. congruence.
    - rewrite (Fr2 q Hrq) in Hq. simpl in Hq.
      destruct (decide (g = q)) as [Heq|Hne]; [now symmetry|].
      rewrite lookup_insert_ne in Hq by exact Hne. exact (Gch q n Hq Hu). }
  { rewrite Hroot. discriminate. }
  { rewrite Hself. intros Heq. rewrite Heq, under_refl in Hrg. discriminate. }
  { exact Hr2. }
  rewrite Hself in Hfs3.
  exists t2, t3, s3. split.
  - unfold container_main, Container_init, RootFSManager_init.
    rewrite bind_assoc, bind_assoc, step_modify, step_ret, step_ret.
    fold self s0. unfold Container_run, print.
    do 4 apply step_emit.
    eapply try_finally_Ret; [|exact E3].
    eapply try_except_Raise.
    { unfold Container_run_steps.
      eapply step_bind; [exact E1|]. apply bind_Raise. exact E2. }
    reflexivity.
  - rewrite Hfs3. apply map_eq. intros k.
    destruct (under root k) eqn:Hk.
    + now rewrite !pruned_below.
    + rewrite !pruned_elsewhere by exact Hk.
      destruct (decide (g = k)) as [<-|Hne].
      * now rewrite !lookup_delete_eq.
      * rewrite !lookup_delete_ne by exact Hne. rewrite (Fr2 k Hk). simpl.
        now apply lookup_insert_ne.
Qed.

(** C6. On a host that lacks nothing but BusyBox -- no entry at any of
    the three places searched -- provisioning raises the "BusyBox is not
    available" [RuntimeError], [run] reports that error and returns 1, and
    afterwards neither the resource group nor anything at or below the
    fresh root is left: the host tree is exactly what it was before. *)
Theorem missing_busybox_fails_cleanly (cfg : ContainerConfig) (sfx : string)
    (s : machine) :
  busybox_less cfg sfx s ->
  let run := container_main cfg s in
  outcome (RootFSManager_create {| rfs_name := name cfg |} s)
    = Raise (RuntimeError busybox_missing) /\
  In (Print (nl +:+ "✗ Ошибка: " +:+ busybox_missing)) (trace_of run) /\
  outcome run = Ret 1 /\
  fs (final run) !! cg_path (CGroupManager_init (name cfg)) = None /\
  (forall q, under (root_for (name cfg) sfx) q = true -> fs (final run) !! q = None) /\
  fs (final run) = fs s.
Proof.
  intros H run. subst run.
  destruct (run_without_busybox cfg sfx s H) as (t2 & t3 & s3 & E & Hfs).
  destruct H as [F Gabs Gch _ (rest & T) Rfree Rpar Bb].
  assert (Hrg : under (root_for (name cfg) sfx) (cg_path (CGroupManager_init (name cfg)))
                = false).
  { rewrite root_for_tmp, cg_path_sys. now apply under_other_head. }
  split; [|rewrite E; cbn [trace_of final outcome fst snd]; repeat split].
  - destruct (provision_without_busybox {| rfs_name := name cfg |} s sfx rest
                F T Rfree Rpar Bb) as (t & s' & E' & _).
    now rewrite E'.
  - apply in_or_app. right. apply in_or_app. left. apply in_or_app. right. now left.
  - rewrite Hfs, pruned_elsewhere by exact Hrg. apply lookup_delete_eq.
  - intros q Hq. rewrite Hfs. now apply pruned_below.
  - rewrite Hfs. apply map_eq. intros k.
    destruct (under (root_for (name cfg) sfx) k) eqn:Hk.
    + rewrite pruned_below by exact Hk. symmetry. now apply Rfree.
    + rewrite pruned_elsewhere by exact Hk.
      destruct (decide (cg_path (CGroupManager_init (name cfg)) = k)) as [<-|Hne].
      * rewrite lookup_delete_eq. symmetry. now apply lstat_None_lookup.
      * now apply lookup_delete_ne.
Qed.


Lemma free_below (f : fsmap) (root : path) :
  map_Forall (fun q _ => under root q = false) f ->
  forall q, under root q = true -> f !! q = None.
Proof.
  intros H q Hq. destruct (f !! q) as [n|] eqn:E; [|reflexivity].
  specialize (H q n E). simpl in H. congruence.
Qed.

Lemma missing_busybox_fails_cleanly_witness :
  let host := Sample.host Sample.tree_without_busybox [] (Sample.programs 0) in
  outcome (container_main Sample.cfg host) = Ret 1 /\
  fs (final (container_main Sample.cfg host)) = fs host.
Proof.
  intros host.
  assert (H : busybox_less Sample.cfg "k3x9" host).
  { constructor.
    - reflexivity.
    - vm_compute. reflexivity.
    - apply (@bool_decide_unpack _ (childless_dec _ _)). vm_compute. exact I.
    - exists ∅, []. vm_compute. reflexivity.
    - exists []. reflexivity.
    - apply free_below. apply (@bool_decide_unpack _ _). vm_compute. exact I.
    - vm_compute. reflexivity.
    - intros p Hp. unfold busybox_paths in Hp.
      destruct Hp as [<-|[<-|[<-|[]]]]; vm_compute; reflexivity. }
  destruct (missing_busybox_fails_cleanly Sample.cfg "k3x9" host H)
    as (_ & _ & Hret & _ & _ & Hfs).
  split; [exact Hret|exact Hfs].
Defined.

(** C7, the code at the failing input: bash and BusyBox are installed,
    [ldd] is not.  [subprocess.run] raises [FileNotFoundError], which the
    handler for [CalledProcessError] does not catch: [create] raises,
    [run] returns 1, and the container command is never launched. *)
Theorem ldd_missing_aborts_provisioning :
  let host := Sample.host Sample.tree [] Sample.programs_without_ldd in
  List.last (trace_of (RootFSManager_create (rootfs_mgr Sample.self) host)) (Call EmptyString)
    = Exec ["ldd"; "/usr/bin/bash"] (SpawnFailed ENOENT) /\
  outcome (RootFSManager_create (rootfs_mgr Sample.self) host) = Raise FileNotFoundError /\
  outcome (Container_run Sample.self host) = Ret 1 /\
  existsb is_launch (trace_of (Container_run Sample.self host)) = false.
Proof. vm_compute. repeat split. Qed.

(** What the optional step does tolerate: an [ldd] that runs and fails
    (check=False raises nothing), and a host without bash. *)
Example ldd_failure_tolerated :
  outcome (RootFSManager_create (rootfs_mgr Sample.self)
             (Sample.host Sample.tree [] Sample.programs_ldd_fails))
  = Ret Sample.new_root.
Proof. vm_compute. reflexivity. Qed.

(** No failed call inside the optional step is swallowed: whatever
    [copy2], [chmod], [mkdir] or the start of [ldd] raises leaves
    [_copy_bash]. *)
Lemma copy_bash_failstop self : failstop (RootFSManager__copy_bash self).
Proof.
  unfold RootFSManager__copy_bash, copy_library. failstop_walk.
Qed.

(** A healthy run leaves the group behind: the orchestrator enrolled
    itself, so [rmdir] reports [EBUSY], which [cleanup] swallows. *)
Example group_survives_healthy_run :
  In (Sys (Rmdir ["sys"; "fs"; "cgroup"; "demo"]) (Some EBUSY))
     (trace_of (Container_run Sample.self Sample.healthy)) /\
  outcome (Container_run Sample.self Sample.healthy) = Ret 0.
Proof. vm_compute. split; [|reflexivity]. do 49 right. left. reflexivity. Qed.

(** When the final [rmtree] fails, its error leaves [run] in place of the
    exit status. *)
Example rmtree_failure_leaves_run :
  outcome (Container_run Sample.self
             (Sample.host Sample.tree (replicate 31 None ++ [Some EBUSY])
                (Sample.programs 0)))
  = Raise (OSError EBUSY).
Proof. vm_compute. reflexivity. Qed.

(** * Further properties

    What the methods do beyond the numbered claims above. *)

(** ** How a run ends *)

Lemma resolve_returns r : exists rc, resolve r = Ret rc.
Proof. destruct r as [rc|[]]; simpl; eauto. Qed.

Lemma steps_no_removal self :
  emits (fun ev => is_removal ev = false) (Container_run_steps self).
Proof.
  unfold Container_run_steps, CGroupManager_create, CGroupManager_add_process,
    RootFSManager_create, RootFSManager__setup_busybox, link_commands, link_command,
    RootFSManager__copy_bash, copy_library.
  emits_walk; try reflexivity. apply emits_first_existing.
Qed.

(** [run], laid out: the four opening events, steps 1 to 4, what the
    [except] clause prints, and the tear-down, whose exception (if any)
    replaces the result. *)
Lemma run_unfold self s :
  exists th,
    let s1 := final (Container_run_steps self s) in
    trace_of (Container_run self s) =
      prelude self ++ trace_of (Container_run_steps self s) ++ th
        ++ trace_of (Container__cleanup self s1) /\
    List.Forall (fun ev => is_print ev = true) th /\
    final (Container_run self s) = final (Container__cleanup self s1) /\
    outcome (Container_run self s) =
      match outcome (Container__cleanup self s1) with
      | Ret _ => resolve (outcome (Container_run_steps self s))
      | Raise e => Raise e
      end.
Proof.
  unfold Container_run, print. rewrite !emit_bind. simpl.
  rewrite try_finally_trace, try_finally_outcome.
  assert (E : exists th,
    try_except (Container_run_steps self) Container_run_except s =
      (trace_of (Container_run_steps self s) ++ th,
       final (Container_run_steps self s),
       resolve (outcome (Container_run_steps self s))) /\
    List.Forall (fun ev => is_print ev = true) th).
  { unfold try_except.
    destruct (Container_run_steps self s) as [[t s1] [rc|e]]; simpl.
    - exists []. rewrite app_nil_r. split; [reflexivity|constructor].
    - destruct e; simpl; eexists; (split; [reflexivity|repeat constructor]). }
  destruct E as (th & E & Hth). exists th. rewrite E. simpl.
  split; [now rewrite <- app_assoc|]. split; [exact Hth|]. split; [|reflexivity].
  unfold try_finally. rewrite E.
  destruct (Container__cleanup self (final (Container_run_steps self s))) as [[t2 s2] [u|e]];
    reflexivity.
Qed.

Lemma contained_no_rmtree (l : list event) :
  List.Forall (fun ev => escapes ev = None) l ->
  List.Forall (fun ev => rmtree_failed ev = false) l.
Proof.
  apply List.Forall_impl. intros [| |[] [?|]| |[]|]; simpl; congruence.
Qed.

(** Before the tear-down nothing is removed. *)
Lemma run_head_contained self s th :
  List.Forall (fun ev => is_print ev = true) th ->
  List.Forall (fun ev => escapes ev = None)
    (prelude self ++ trace_of (Container_run_steps self s) ++ th).
Proof.
  intros Hth. apply List.Forall_app. split; [repeat constructor|].
  apply List.Forall_app. split; [apply steps_contained|now apply prints_contained].
Qed.

(** [run] either returns what steps 1 to 4 resolve to, with no call of
    the tear-down raising past it, or its last event is the failed
    [rmtree], or the refused [rmdir], whose exception leaves it. *)
Lemma run_cases self s :
  (outcome (Container_run self s) = resolve (outcome (Container_run_steps self s)) /\
   List.Forall (fun ev => rmtree_failed ev = false) (trace_of (Container_run self s)) /\
   List.Forall (fun ev => escapes ev = None) (trace_of (Container_run self s))) \/
  (exists ev e t,
     outcome (Container_run self s) = Raise e /\
     trace_of (Container_run self s) = t ++ [ev] /\
     List.Forall (fun ev => escapes ev = None) t /\
     ((exists root c, ev = Sys (Rmtree root) (Some c) /\ e = OSError c) \/
      (ev = Refused (Rmdir (cg_path (cgroup self))) /\ e = ValueError /\
       nul_in (cg_path (cgroup self)) = true))).
Proof.
  destruct (run_unfold self s) as (th & T & Hth & _ & O). cbv zeta in *.
  pose proof (run_head_contained self s th Hth) as Hhead.
  rewrite !app_assoc in T. rewrite <- (app_assoc (prelude self)) in T.
  destruct (teardown_cases self (final (Container_run_steps self s)))
    as [(r & t & s' & E & Ht)|[(r & root & c & s' & E)|(s' & E & N)]];
    cbv zeta in E; rewrite E in T, O; cbn [trace_of outcome fst snd] in T, O.
  - left. split; [exact O|].
    assert (C : List.Forall (fun ev => escapes ev = None) (trace_of (Container_run self s))).
    { rewrite T. apply List.Forall_app. split; [exact Hhead|].
      destruct Ht as [->|(root & ->)]; repeat constructor. }
    split; [now apply contained_no_rmtree|exact C].
  - right.
    exists (Sys (Rmtree root) (Some c)), (OSError c),
      ((prelude self ++ trace_of (Container_run_steps self s) ++ th)
       ++ [Call "Container._cleanup"; Print (nl +:+ banner); Print "Очистка";
           Print banner; Call "CGroupManager.cleanup";
           Sys (Rmdir (cg_path (cgroup self))) r; Call "RootFSManager.cleanup"]).
    split; [exact O|]. split; [rewrite T, <- !app_assoc; reflexivity|].
    split; [|left; eauto].
    apply List.Forall_app. split; [exact Hhead|repeat constructor].
  - right.
    exists (Refused (Rmdir (cg_path (cgroup self)))), ValueError,
      ((prelude self ++ trace_of (Container_run_steps self s) ++ th)
       ++ [Call "Container._cleanup"; Print (nl +:+ banner); Print "Очистка";
           Print banner; Call "CGroupManager.cleanup"]).
    split; [exact O|]. split; [rewrite T, <- !app_assoc; reflexivity|].
    split; [|right; auto].
    apply List.Forall_app. split; [exact Hhead|repeat constructor].
Qed.



(** ** The command line *)

Lemma container_main_unfold cfg s :
  container_main cfg s = Container_run (new_container cfg) (set_rootfs None s).
Proof.
  unfold container_main, Container_init, RootFSManager_init.
  now rewrite bind_assoc, bind_assoc, step_modify, step_ret, step_ret.
Qed.

Lemma bind_ret_after {A B} (m : M A) (b : B) s :
  bind m (fun _ => ret b) s =
    (trace_of (m s), final (m s),
     match outcome (m s) with Ret _ => Ret b | Raise e => Raise e end).
Proof.
  unfold bind, ret. destruct (m s) as [[t s1] [a|e]]; simpl; [|reflexivity].
  now rewrite app_nil_r.
Qed.

Lemma main_commands_lookup env cmd :
  main_commands env !! cmd =
    if String.eqb cmd "shell" then Some demo_interactive
    else if String.eqb cmd "run" then Some demo_command
    else if String.eqb cmd "memory" then Some (demo_memory_limit env)
    else if String.eqb cmd "help" then Some print_help
    else None.
Proof.
  unfold main_commands.
  destruct (String.eqb_spec cmd "shell") as [->|H1]; [apply lookup_insert_eq|].
  rewrite lookup_insert_ne by congruence.
  destruct (String.eqb_spec cmd "run") as [->|H2]; [apply lookup_insert_eq|].
  rewrite lookup_insert_ne by congruence.
  destruct (String.eqb_spec cmd "memory") as [->|H3]; [apply lookup_insert_eq|].
  rewrite lookup_insert_ne by congruence.
  destruct (String.eqb_spec cmd "help") as [->|H4]; [apply lookup_insert_eq|].
  rewrite lookup_insert_ne by congruence. apply lookup_empty.
Qed.

(** [demo_memory_limit], laid out around the one run it performs. *)
Lemma demo_memory_limit_unfold env s :
  let cm := container_main (memory_config env) s in
  exists head,
    List.Forall (fun ev => is_print ev = true /\ ev <> Print oom_message) head /\
    demo_memory_limit env s =
      (head ++ trace_of cm ++
         match outcome cm with
         | Ret rc => if rc =? 137 then [Print oom_message] else []
         | Raise _ => []
         end,
       final cm,
       match outcome cm with Ret _ => Ret tt | Raise e => Raise e end).
Proof.
  intros cm. subst cm. unfold demo_memory_limit, memory_config, print.
  assert (Tail : forall cfg s0,
    bind (container_main cfg)
      (fun exit_code => if exit_code =? 137 then emit (Print oom_message) else ret tt) s0
    = (trace_of (container_main cfg s0) ++
         match outcome (container_main cfg s0) with
         | Ret rc => if rc =? 137 then [Print oom_message] else []
         | Raise _ => []
         end,
       final (container_main cfg s0),
       match outcome (container_main cfg s0) with
       | Ret _ => Ret tt | Raise e => Raise e end)).
  { intros cfg s0. unfold bind.
    destruct (container_main cfg s0) as [[t s1] [rc|e]]; simpl.
    - destruct (rc =? 137); reflexivity.
    - now rewrite app_nil_r. }
  rewrite !emit_bind. destruct (python_found env); cbn [negb].
  - rewrite step_ret, Tail. simpl.
    eexists [_; _; _; _]. split; [|reflexivity].
    repeat constructor; discriminate.
  - rewrite bind_assoc, emit_bind, step_ret, Tail. simpl.
    eexists [_; _; _; _; _]. split; [|reflexivity].
    repeat constructor; discriminate.
Qed.

(** ** What a computation leaves alone *)

Section Keeps.
Context {X : Type} (proj : machine -> X) (Hblind : host_blind proj).

Lemma keeps_ret {A} (a : A) : keeps proj (ret a).
Proof. intros s. reflexivity. Qed.

Lemma keeps_raise {A} e : keeps proj (@raise A e).
Proof. intros s. reflexivity. Qed.

Lemma keeps_get {A} (f : machine -> A) : keeps proj (get f).
Proof. intros s. reflexivity. Qed.

Lemma keeps_emit ev : keeps proj (emit ev).
Proof. intros s. reflexivity. Qed.

Lemma keeps_subprocess_run argv : keeps proj (subprocess_run argv).
Proof. intros s. reflexivity. Qed.

Lemma keeps_subprocess_run_text argv : keeps proj (subprocess_run_text argv).
Proof.
  intros s. unfold subprocess_run_text.
  destruct (spawn s argv); [destruct (_ && _)| |]; reflexivity.
Qed.

Lemma keeps_self_rootfs : keeps proj self_rootfs.
Proof. intros s. unfold self_rootfs. now destruct (rootfs s). Qed.

Lemma keeps_bind {A B} (m : M A) (k : A -> M B) :
  keeps proj m -> (forall a, keeps proj (k a)) -> keeps proj (bind m k).
Proof.
  intros Hm Hk s. specialize (Hm s).
  destruct (m s) as [[t1 s1] [a|e]] eqn:E.
  - rewrite (bind_Ret _ _ _ _ _ _ E). simpl in *. now rewrite Hk.
  - now rewrite (bind_Raise _ _ _ _ _ _ E).
Qed.

Lemma keeps_for_each {A} (l : list A) body :
  (forall x, keeps proj (body x)) -> keeps proj (for_each l body).
Proof.
  intros Hb. induction l as [|x l IH]; simpl; [apply keeps_ret|].
  apply keeps_bind; [apply Hb | intros _; exact IH].
Qed.

Lemma keeps_try_except {A} (m : M A) h :
  keeps proj m -> (forall e, keeps proj (h e)) -> keeps proj (try_except m h).
Proof.
  intros Hm Hh s. specialize (Hm s). unfold try_except.
  destruct (m s) as [[t1 s1] [a|e]]; [exact Hm|].
  specialize (Hh e s1). destruct (h e s1) as [[t2 s2] r]. simpl in *. congruence.
Qed.

Lemma keeps_syscall {A} op (sem : machine -> oserr + A * machine) :
  (forall s a s', sem s = inr (a, s') -> proj s' = proj s) ->
  keeps proj (syscall op sem).
Proof.
  destruct Hblind as [_ Hf].
  intros H s. unfold syscall, pop_fault.
  destruct (faults s) as [|[c|] rest]; simpl.
  - destruct (sem s) as [c|[a s1]] eqn:E; simpl; [reflexivity|]. exact (H _ _ _ E).
  - destruct (refusable op (set_faults rest s)); apply Hf.
  - destruct (sem (set_faults rest s)) as [c|[a s1]] eqn:E; simpl; [apply Hf|].
    rewrite (H _ _ _ E). apply Hf.
Qed.

Lemma on_fs_keeps sem s a s' : on_fs sem s = inr (a, s') -> proj s' = proj s.
Proof.
  destruct Hblind as [Hf _].
  unfold on_fs. destruct (sem (fs s)); [discriminate|]. intros [= _ <-]. apply Hf.
Qed.
End Keeps.

Ltac keeps_walk :=
  repeat (unfold_calls;
    lazymatch goal with
    | |- keeps _ (bind _ _) => apply keeps_bind; [|intros ?]
    | |- keeps _ (ret _) => apply keeps_ret
    | |- keeps _ (raise _) => apply keeps_raise
    | |- keeps _ (get _) => apply keeps_get
    | |- keeps _ (emit _) => apply keeps_emit
    | |- keeps _ (subprocess_run _) => apply keeps_subprocess_run
    | |- keeps _ (subprocess_run_text _) => apply keeps_subprocess_run_text
    | |- keeps _ self_rootfs => apply keeps_self_rootfs
    | |- keeps _ (for_each _ _) => apply keeps_for_each; intros ?
    | |- keeps _ (try_except _ _) => apply keeps_try_except; [|intros ?]
    | |- keeps _ (syscall _ (on_fs _)) =>
        apply keeps_syscall; [assumption|intros ? ? ?; apply on_fs_keeps; assumption]
    | |- keeps _ (syscall _ (fun s => on_fs _ s)) =>
        apply keeps_syscall; [assumption|intros ? ? ?; apply on_fs_keeps; assumption]
    | |- keeps _ (if ?b then _ else _) => destruct b
    | |- keeps _ (match ?x with _ => _ end) => destruct x
    end).

Lemma rootfs_blind : host_blind rootfs.
Proof. split; reflexivity. Qed.

Lemma tmp_names_blind : host_blind tmp_names.
Proof. split; reflexivity. Qed.

Lemma keeps_first_existing {X} (proj : machine -> X) l : keeps proj (first_existing l).
Proof. induction l as [|p l IH]; simpl; keeps_walk. exact IH. Qed.

Lemma keeps_limits {X} (proj : machine -> X) self mb cpu :
  host_blind proj -> keeps proj (CGroupManager_create self mb cpu).
Proof. intros H. unfold CGroupManager_create. keeps_walk. Qed.

Lemma keeps_add_process {X} (proj : machine -> X) self pid :
  host_blind proj -> keeps proj (CGroupManager_add_process self pid).
Proof. intros H. unfold CGroupManager_add_process. keeps_walk. Qed.

Lemma keeps_setup_busybox {X} (proj : machine -> X) self :
  host_blind proj -> keeps proj (RootFSManager__setup_busybox self).
Proof.
  intros H. unfold RootFSManager__setup_busybox, link_commands, link_command.
  keeps_walk. apply keeps_first_existing.
Qed.

Lemma keeps_copy_library {X} (proj : machine -> X) line :
  host_blind proj -> keeps proj (copy_library line).
Proof. intros H. unfold copy_library. keeps_walk. Qed.

Lemma keeps_copy_bash {X} (proj : machine -> X) self :
  host_blind proj -> keeps proj (RootFSManager__copy_bash self).
Proof.
  intros H. unfold RootFSManager__copy_bash. keeps_walk.
  now apply keeps_copy_library.
Qed.

Lemma keeps_teardown {X} (proj : machine -> X) self :
  host_blind proj -> keeps proj (Container__cleanup self).
Proof.
  intros H. unfold Container__cleanup, CGroupManager_cleanup, RootFSManager_cleanup.
  keeps_walk.
Qed.

Lemma bind_Ret_inv {A B} (m : M A) (k : A -> M B) s t s' b :
  bind m k s = (t, s', Ret b) ->
  exists t1 s1 a t2,
    m s = (t1, s1, Ret a) /\ k a s1 = (t2, s', Ret b) /\ t = t1 ++ t2.
Proof.
  unfold bind. destruct (m s) as [[t1 s1] [a|e]]; [|discriminate].
  destruct (k a s1) as [[t2 s2] r] eqn:K. intros [= <- <- <-].
  exists t1, s1, a, t2. auto.
Qed.

Lemma mkdtemp_try_name prefix names : forall f file rest f',
  mkdtemp_try prefix names f = inr (file, rest, f') ->
  exists sfx, In sfx names /\ file = "/tmp/" +:+ prefix +:+ sfx.
Proof.
  induction names as [|n names IH]; intros f file rest f'; simpl; [discriminate|].
  destruct (os_mkdir _ f) as [[]|f1] eqn:E; try discriminate.
  - intros H. destruct (IH _ _ _ _ H) as (sfx & Hin & ->). exists sfx. auto.
  - intros [= <- <- <-]. exists n. auto.
Qed.

Lemma syscall_Ret_inv {A} op (sem : machine -> oserr + A * machine) s t s' a :
  syscall op sem s = (t, s', Ret a) ->
  t = [Sys op None] /\ sem (pop_fault s).2 = inr (a, s') /\ (pop_fault s).1 = None.
Proof.
  unfold syscall. destruct (pop_fault s) as [[c|] s0];
    [destruct (refusable op s0); discriminate|]. simpl.
  destruct (sem s0) as [c|[a' s1]]; [discriminate|]. intros [= <- <- <-]. auto.
Qed.

Lemma pop_fault_frame s :
  fs (pop_fault s).2 = fs s /\ tmp_names (pop_fault s).2 = tmp_names s /\
  rootfs (pop_fault s).2 = rootfs s /\ cwd (pop_fault s).2 = cwd s.
Proof. unfold pop_fault. destruct (faults s) as [|c rest]; simpl; auto. Qed.

(** A [create] that returns hands back the directory [mkdtemp] made, and
    that directory is what [self.rootfs] holds afterwards. *)
Lemma create_returns_root mgr s t s' root :
  RootFSManager_create mgr s = (t, s', Ret root) ->
  rootfs s' = Some root /\
  exists sfx, In sfx (tmp_names s) /\ root = root_for (rfs_name mgr) sfx.
Proof.
  unfold RootFSManager_create. intros H.
  apply bind_Ret_inv in H as (t1 & s1 & [] & t2 & He & H & _).
  injection He as _ <-.
  apply bind_Ret_inv in H as (t3 & s3 & tmp & t4 & Hmk & H & _).
  apply bind_Ret_inv in H as (t5 & s5 & [] & t6 & Hmod & H & _).
  injection Hmod as _ <-.
  unfold tempfile_mkdtemp in Hmk. apply syscall_Ret_inv in Hmk as (_ & Hmk & _).
  destruct (pop_fault_frame s) as (_ & Htn & _).
  destruct (mkdtemp_try _ _ _) as [c|[[file rest] f]] eqn:Try; [discriminate|].
  injection Hmk as -> _.
  apply mkdtemp_try_name in Try as (sfx & Hin & ->).
  assert (K : keeps rootfs
    (for_each skeleton (fun d => root <- self_rootfs ;; Path_mkdir (root // d) true))).
  { pose proof rootfs_blind. keeps_walk. }
  apply bind_Ret_inv in H as (t7 & s7 & [] & t8 & Hsk & H & _).
  pose proof (K (set_rootfs (Some (Path ("/tmp/" +:+ ("container_" +:+ rfs_name mgr +:+ "_") +:+ sfx))) s3)) as K7.
  rewrite Hsk in K7. simpl in K7.
  apply bind_Ret_inv in H as (t9 & s9 & ok & t10 & Hsb & H & _).
  pose proof (keeps_setup_busybox rootfs mgr rootfs_blind s7) as K9.
  rewrite Hsb in K9. simpl in K9.
  destruct ok; simpl in H; [|discriminate].
  apply bind_Ret_inv in H as (t11 & s11 & [] & t12 & Hcb & H & _).
  pose proof (keeps_copy_bash rootfs mgr rootfs_blind s9) as K11.
  rewrite Hcb in K11. simpl in K11.
  apply bind_Ret_inv in H as (t13 & s13 & r & t14 & Hself & H & _).
  unfold self_rootfs in Hself. destruct (rootfs s11) as [p|] eqn:R; [|discriminate].
  injection Hself as _ <- <-.
  unfold print in H. rewrite emit_bind in H. simpl in H. injection H as _ <- <-.
  split; [exact R|]. exists sfx. split.
  - simpl in Hin. now rewrite Htn in Hin.
  - unfold root_for. congruence.
Qed.

(** ** The launch *)

Lemma quiet_no_launch (l : list event) :
  List.Forall (fun ev => quiet ev = true) l ->
  List.Forall (fun ev => is_launch ev = false) l.
Proof. apply List.Forall_impl. intros a H. now apply quiet_split in H. Qed.

(** Steps 1 to 4 launch at most once, as their last action, in the
    directory [create] returned. *)
Lemma steps_launch_cases self s :
  let r := Container_run_steps self s in
  (List.Forall (fun ev => is_launch ev = false) (trace_of r) /\
   exists e, outcome r = Raise e) \/
  (exists t0 root sfx o,
     trace_of r = t0 ++ [Exec (launch_argv root (command (config self))) o] /\
     List.Forall (fun ev => is_launch ev = false) t0 /\
     rootfs (final r) = Some root /\
     In sfx (tmp_names s) /\ root = root_for (rfs_name (rootfs_mgr self)) sfx /\
     outcome r = launch_result (launch_argv root (command (config self))) o).
Proof.
  intros r. subst r. unfold Container_run_steps.
  pose proof (quiet_limits (cgroup self) (memory_mb (config self))
                (cpu_percent (config self)) s) as Q1.
  pose proof (keeps_limits tmp_names (cgroup self) (memory_mb (config self))
                (cpu_percent (config self)) tmp_names_blind s) as N1.
  destruct (CGroupManager_create _ _ _ s) as [[t1 s1] [[]|e]] eqn:E1; simpl in Q1, N1.
  2:{ rewrite (bind_Raise _ _ _ _ _ _ E1). left. simpl. split; [|eauto].
      now apply quiet_no_launch. }
  rewrite (bind_Ret _ _ _ _ _ _ E1).
  pose proof (quiet_provisioning (rootfs_mgr self) s1) as Q2.
  destruct (RootFSManager_create _ s1) as [[t2 s2] [root|e]] eqn:E2; simpl in Q2.
  2:{ rewrite (bind_Raise _ _ _ _ _ _ E2). left. simpl. split; [|eauto].
      apply quiet_no_launch. apply List.Forall_app. now split. }
  destruct (create_returns_root _ _ _ _ _ E2) as (R2 & sfx & Hin & Hroot).
  rewrite N1 in Hin.
  rewrite (bind_Ret _ _ _ _ _ _ E2).
  unfold print, os_getpid. rewrite emit_bind, step_get.
  pose proof (keeps_add_process rootfs (cgroup self) (pid s2) rootfs_blind s2) as R3.
  assert (Q3 : List.Forall (fun ev => is_launch ev = false)
                 (trace_of (CGroupManager_add_process (cgroup self) (pid s2) s2))).
  { assert (H : emits (fun ev => is_launch ev = false)
                  (CGroupManager_add_process (cgroup self) (pid s2))).
    { unfold CGroupManager_add_process. emits_walk; reflexivity. }
    apply H. }
  destruct (CGroupManager_add_process _ _ s2) as [[t3 s3] [[]|e]] eqn:E3; simpl in R3, Q3.
  2:{ rewrite (bind_Raise _ _ _ _ _ _ E3). left. simpl. split; [|eauto].
      apply List.Forall_app. split; [now apply quiet_no_launch|].
      apply List.Forall_app. split; [now apply quiet_no_launch|].
      constructor; [reflexivity|exact Q3]. }
  rewrite (bind_Ret _ _ _ _ _ _ E3). right. rewrite step_bind_run.
  exists (t1 ++ t2 ++ Print ("🚀 Команда: " +:+ command (config self) +:+ nl) :: t3),
    root, sfx, (spawn s3 (launch_argv root (command (config self)))).
  assert (Q : List.Forall (fun ev => is_launch ev = false)
                (t1 ++ t2 ++ Print ("🚀 Команда: " +:+ command (config self) +:+ nl) :: t3)).
  { apply List.Forall_app. split; [now apply quiet_no_launch|].
    apply List.Forall_app. split; [now apply quiet_no_launch|].
    constructor; [reflexivity|exact Q3]. }
  destruct (spawn s3 _) as [rc out|c|]; simpl;
    (split; [now rewrite <- !app_assoc|]); repeat split; auto; congruence.
Qed.

(** The only [rmtree] of the tear-down is aimed at [self.rootfs]. *)
Lemma cleanup_rmtree_target self s p r :
  In (Sys (Rmtree p) r) (trace_of (Container__cleanup self s)) -> rootfs s = Some p.
Proof.
  unfold Container__cleanup, print. rewrite !emit_bind. simpl.
  assert (Kcg : keeps rootfs (CGroupManager_cleanup (cgroup self))).
  { pose proof rootfs_blind. unfold CGroupManager_cleanup. keeps_walk. }
  specialize (Kcg s).
  destruct (cgroup_cleanup_cases (cgroup self) s) as [(r0 & s1 & E)|(s1 & E & _)];
    rewrite E in Kcg; simpl in Kcg.
  2:{ rewrite (bind_Raise _ _ _ _ _ _ E). simpl. intros Hin.
      repeat (destruct Hin as [Hin|Hin]; [discriminate|]). destruct Hin. }
  rewrite (bind_Ret _ _ _ _ _ _ E). simpl.
  pose proof (rootfs_cleanup_cases (rootfs_mgr self) s1) as H.
  intros Hin. repeat (destruct Hin as [Hin|Hin]; [discriminate|]).
  rewrite <- Kcg.
  destruct (rootfs s1) as [root|] eqn:R.
  - destruct (exists_ (fs s1) root) eqn:X.
    + destruct (rootfs_cleanup_removal (rootfs_mgr self) s1 root R X)
        as ([c|] & s2 & E2).
      * rewrite (bind_Raise _ _ _ _ _ _ E2) in Hin. simpl in Hin.
        destruct Hin as [Hin|[Hin|[]]]; try discriminate. now injection Hin as ->.
      * rewrite (bind_Ret _ _ _ _ _ _ E2) in Hin. simpl in Hin.
        destruct Hin as [Hin|[Hin|[Hin|[]]]]; try discriminate. now injection Hin as ->.
    + rewrite (bind_Ret _ _ _ _ _ _ H) in Hin. simpl in Hin.
      destruct Hin as [Hin|[Hin|[]]]; discriminate.
  - rewrite (bind_Ret _ _ _ _ _ _ H) in Hin. simpl in Hin.
    destruct Hin as [Hin|[Hin|[]]]; discriminate.
Qed.

Lemma prints_only (l : list event) ev :
  List.Forall (fun e => is_print e = true) l -> In ev l -> is_print ev = true.
Proof. intros H Hin. rewrite List.Forall_forall in H. now apply H. Qed.

(** Where in a trace of [run] a launch and an [rmtree] can stand. *)
Lemma run_locate self s ev :
  In ev (trace_of (Container_run self s)) ->
  (is_launch ev = true -> In ev (trace_of (Container_run_steps self s))) /\
  (is_rmtree ev = true ->
   In ev (trace_of (Container__cleanup self (final (Container_run_steps self s))))).
Proof.
  destruct (run_unfold self s) as (th & T & Hth & _). cbv zeta in T. rewrite T.
  intros Hin.
  apply in_app_or in Hin as [Hin|Hin].
  { simpl in Hin. destruct Hin as [<-|[<-|[<-|[<-|[]]]]]; split; discriminate. }
  apply in_app_or in Hin as [Hin|Hin].
  { split; [auto|]. intros Hr.
    pose proof (steps_no_removal self s) as Hs. rewrite List.Forall_forall in Hs.
    specialize (Hs _ Hin). destruct ev as [| |[] ?| |[]|]; discriminate. }
  apply in_app_or in Hin as [Hin|Hin].
  { pose proof (prints_only _ _ Hth Hin) as Hp.
    destruct ev; try discriminate. split; discriminate. }
  split; [|auto]. intros Hl.
  pose proof (teardown_cleanup self (final (Container_run_steps self s))) as Ht.
  rewrite List.Forall_forall in Ht. specialize (Ht _ Hin).
  apply teardown_quiet, quiet_split in Ht as [Ht _]. congruence.
Qed.

(** X12. [run] launches at most once: a launch in its trace has no other
    launch before or after it.  The launched argument vector is the fixed
    [unshare ... chroot] prefix, the directory [create] returned and
    [config.command] as one single argument, whatever it contains; that
    directory is the fresh [/tmp/container_<name>_<suffix>] that
    [self.rootfs] still holds when [run] is over, and it is the only
    directory an [rmtree] of the run is aimed at. *)
Theorem launch_in_created_root (self : Container) (s : machine)
    (argv : list string) (o : proc_outcome) :
  In (Exec argv o) (trace_of (Container_run self s)) ->
  is_launch (Exec argv o) = true ->
  exists root sfx,
    In sfx (tmp_names s) /\
    root = root_for (rfs_name (rootfs_mgr self)) sfx /\
    argv = launch_argv root (command (config self)) /\
    List.last argv EmptyString = command (config self) /\
    rootfs (final (Container_run self s)) = Some root /\
    (forall p r, In (Sys (Rmtree p) r) (trace_of (Container_run self s)) -> p = root) /\
    (exists before after,
       trace_of (Container_run self s) = before ++ Exec argv o :: after /\
       List.Forall (fun ev => is_launch ev = false) before /\
       List.Forall (fun ev => is_launch ev = false) after).
Proof.
  intros Hin Hl.
  destruct (steps_launch_cases self s)
    as [(Q & _)|(t0 & root & sfx & o' & T & Q & R & Hsfx & Hroot & _)].
  { apply (proj1 (run_locate self s _ Hin)) in Hl as Hs.
    rewrite List.Forall_forall in Q. specialize (Q _ Hs). congruence. }
  assert (E : Exec argv o = Exec (launch_argv root (command (config self))) o').
  { apply (proj1 (run_locate self s _ Hin)) in Hl as Hs. rewrite T in Hs.
    apply in_app_or in Hs as [Hs|[Hs|[]]]; [|now symmetry].
    rewrite List.Forall_forall in Q. specialize (Q _ Hs). congruence. }
  injection E as -> ->.
  exists root, sfx.
  split; [exact Hsfx|]. split; [exact Hroot|]. split; [reflexivity|].
  split; [reflexivity|]. split; [|split].
  - destruct (run_unfold self s) as (th & _ & _ & F & _). cbv zeta in F.
    rewrite F, (keeps_teardown rootfs self rootfs_blind). exact R.
  - intros p r Hp.
    pose proof (proj2 (run_locate self s _ Hp) eq_refl) as Hc.
    apply cleanup_rmtree_target in Hc. congruence.
  - destruct (run_unfold self s) as (th & U & Hth & _). cbv zeta in U.
    exists (prelude self ++ t0),
           (th ++ trace_of (Container__cleanup self (final (Container_run_steps self s)))).
    split; [|split].
    + rewrite U, T, <- !app_assoc. reflexivity.
    + apply List.Forall_app. split; [repeat constructor|exact Q].
    + apply List.Forall_app. split.
      * eapply List.Forall_impl; [|exact Hth].
        intros [] Hp; try discriminate Hp; reflexivity.
      * eapply List.Forall_impl;
          [|exact (teardown_cleanup self (final (Container_run_steps self s)))].
        intros ev Ht. apply teardown_quiet, quiet_split in Ht as [Ht _]. exact Ht.
Qed.

Lemma launch_in_created_root_witness :
  exists root sfx,
    In sfx (tmp_names Sample.healthy) /\
    root = root_for (rfs_name (rootfs_mgr Sample.self)) sfx /\
    launch_argv Sample.new_root "/bin/sh" = launch_argv root (command (config Sample.self)) /\
    List.last (launch_argv Sample.new_root "/bin/sh") EmptyString
      = command (config Sample.self) /\
    rootfs (final (Container_run Sample.self Sample.healthy)) = Some root /\
    (forall p r, In (Sys (Rmtree p) r) (trace_of (Container_run Sample.self Sample.healthy)) ->
       p = root) /\
    (exists before after,
       trace_of (Container_run Sample.self Sample.healthy)
         = before ++ Exec (launch_argv Sample.new_root "/bin/sh") (Returned 0 EmptyString)
                     :: after /\
       List.Forall (fun ev => is_launch ev = false) before /\
       List.Forall (fun ev => is_launch ev = false) after).
Proof.
  apply (launch_in_created_root Sample.self Sample.healthy
           (launch_argv Sample.new_root "/bin/sh") (Returned 0 EmptyString)).
  - vm_compute. do 43 right. left. reflexivity.
  - reflexivity.
Defined.

Lemma main_not_root env s :
  os_geteuid env <> 0 ->
  main env s =
    ([Print "✗ Требуются root права"; Print "Запустите: sudo python3 container.py"],
     s, Ret (SystemExit 1)).
Proof.
  intros H. unfold main. apply Z.eqb_neq in H. rewrite H. reflexivity.
Qed.

Lemma main_as_root env s :
  os_geteuid env = 0 ->
  main env s =
    match main_commands env !! selected_command env with
    | Some handler => bind handler (fun _ => ret Returns) s
    | None =>
        ([Print ("✗ Неизвестная команда: " +:+ selected_command env +:+ nl);
          Print help_text], s, Ret (SystemExit 1))
    end.
Proof.
  intros H. unfold main. rewrite H. simpl.
  now destruct (main_commands env !! selected_command env).
Qed.

(** X16. Unless it is started by the super-user with [shell], [run] or
    [memory] as first argument, [main] calls nothing on the host: it only
    prints, and the machine is left exactly as it was. *)
Theorem main_leaves_host_alone (env : environ) (s : machine) :
  os_geteuid env <> 0 \/ ~ In (selected_command env) ["shell"; "run"; "memory"] ->
  final (main env s) = s /\
  List.Forall (fun ev => is_host_call ev = false) (trace_of (main env s)).
Proof.
  intros H. destruct (Z.eq_dec (os_geteuid env) 0) as [Hroot|Hroot].
  - destruct H as [H|H]; [contradiction|].
    rewrite (main_as_root env s Hroot), main_commands_lookup.
    destruct (String.eqb_spec (selected_command env) "shell") as [E|_];
      [exfalso; apply H; simpl; auto|].
    destruct (String.eqb_spec (selected_command env) "run") as [E|_];
      [exfalso; apply H; simpl; auto|].
    destruct (String.eqb_spec (selected_command env) "memory") as [E|_];
      [exfalso; apply H; simpl; auto|].
    destruct (String.eqb (selected_command env) "help"); simpl;
      split; try reflexivity; repeat constructor.
  - rewrite (main_not_root env s Hroot). simpl. split; [reflexivity|].
    repeat constructor.
Qed.

Lemma run_never_reports_oom self :
  emits (fun ev => ev <> Print oom_message) (Container_run self).
Proof.
  unfold Container_run, Container_run_steps, Container_run_except, Container__cleanup,
    CGroupManager_create, CGroupManager_add_process, CGroupManager_cleanup,
    RootFSManager_create, RootFSManager__setup_busybox, link_commands, link_command,
    RootFSManager__copy_bash, copy_library, RootFSManager_cleanup.
  emits_walk; try discriminate; try apply emits_first_existing.
Qed.

Lemma resolve_launch argv o rc :
  resolve (launch_result argv o) = Ret rc -> rc <> 1 -> rc <> 130 ->
  exists out, o = Returned rc out.
Proof.
  destruct o as [rc' out|c|]; simpl; [intros [= <-]; eauto| |intros [= <-]; congruence].
  unfold spawn_error. destruct (existsb _ _); simpl; intros [= <-]; congruence.
Qed.

(** A result other than 1 and 130 is the exit status of a command that
    was launched. *)
Lemma run_status_from_launch self s rc :
  outcome (Container_run self s) = Ret rc -> rc <> 1 -> rc <> 130 ->
  exists argv out,
    In (Exec argv (Returned rc out)) (trace_of (Container_run self s)) /\
    is_launch (Exec argv (Returned rc out)) = true.
Proof.
  intros O H1 H130.
  destruct (run_cases self s) as [(R & _)|(root & c & t & R & _)]; [|congruence].
  rewrite O in R. symmetry in R.
  destruct (run_unfold self s) as (th & T & _). cbv zeta in T.
  destruct (steps_launch_cases self s)
    as [(_ & e & E)|(t0 & root & sfx & o & Ts & _ & _ & _ & _ & E)]; rewrite E in R.
  - destruct e; simpl in R; congruence.
  - destruct (resolve_launch _ o rc R H1 H130) as [out ->].
    exists (launch_argv root (command (config self))), out. split; [|reflexivity].
    rewrite T, Ts. apply in_or_app. right. apply in_or_app. left.
    apply in_or_app. right. now left.
Qed.

(** When no [rmtree] fails and the name of the group has no NUL byte, the
    fate of the launched command is the result. *)
Lemma run_status_of_launch self s argv o :
  nul_in (cg_path (cgroup self)) = false ->
  List.Forall (fun ev => rmtree_failed ev = false) (trace_of (Container_run self s)) ->
  In (Exec argv o) (trace_of (Container_run self s)) ->
  is_launch (Exec argv o) = true ->
  outcome (Container_run self s) = resolve (launch_result argv o).
Proof.
  intros Hnul Hrm Hin Hl.
  destruct (run_cases self s) as [(R & _)|(ev & e & t & _ & T & _ & K)].
  2:{ exfalso. rewrite T in Hrm. apply List.Forall_app in Hrm as [_ Hrm].
      apply List.Forall_cons_iff in Hrm as [Hrm _].
      destruct K as [(root & c & -> & _)|(_ & _ & K)]; [discriminate|congruence]. }
  rewrite R. pose proof (proj1 (run_locate self s _ Hin) Hl) as Hs.
  destruct (steps_launch_cases self s)
    as [(Q & _)|(t0 & root & sfx & o' & Ts & Q & _ & _ & _ & E)].
  - rewrite List.Forall_forall in Q. specialize (Q _ Hs). congruence.
  - rewrite E. rewrite Ts in Hs. apply in_app_or in Hs as [Hs|[Hs|[]]].
    + rewrite List.Forall_forall in Q. specialize (Q _ Hs). congruence.
    + now injection Hs as <- <-.
Qed.

Lemma existsb_false_Forall {A} (f : A -> bool) l :
  existsb f l = false <-> List.Forall (fun x => f x = false) l.
Proof.
  induction l as [|x l IH]; simpl.
  - split; [constructor|reflexivity].
  - rewrite orb_false_iff, IH, List.Forall_cons_iff. reflexivity.
Qed.

(** X13. When [run] returns anything but 1 and 130, the command was
    launched in the provisioned root, that number is its exit status, and no
    [rmtree] failed. *)
Theorem exit_status_origin (self : Container) (s : machine) (rc : Z) :
  outcome (Container_run self s) = Ret rc -> rc <> 1 -> rc <> 130 ->
  existsb rmtree_failed (trace_of (Container_run self s)) = false /\
  exists argv out,
    In (Exec argv (Returned rc out)) (trace_of (Container_run self s)) /\
    is_launch (Exec argv (Returned rc out)) = true /\
    exists root,
      rootfs (final (Container_run self s)) = Some root /\
      argv = launch_argv root (command (config self)).
Proof.
  intros O H1 H130. split.
  - apply existsb_false_Forall.
    destruct (run_cases self s) as [(_ & H & _)|(root & c & t & R & _)];
      [exact H|congruence].
  - destruct (run_status_from_launch self s rc O H1 H130) as (argv & out & Hin & Hl).
    exists argv, out. split; [exact Hin|]. split; [exact Hl|].
    destruct (run_locate self s _ Hin) as [Hs _]. specialize (Hs Hl).
    destruct (steps_launch_cases self s)
      as [(Q & _)|(t0 & root & sfx & o' & Ts & Q & R & _ & _ & _)].
    + rewrite List.Forall_forall in Q. specialize (Q _ Hs). congruence.
    + destruct (run_unfold self s) as (th & _ & _ & F & _). cbv zeta in F.
      exists root. split.
      { rewrite F, (keeps_teardown rootfs self rootfs_blind). exact R. }
      rewrite Ts in Hs. apply in_app_or in Hs as [Hs|[Hs|[]]].
      * rewrite List.Forall_forall in Q. specialize (Q _ Hs). congruence.
      * now injection Hs as <- _.
Qed.

Lemma exit_status_origin_witness :
  existsb rmtree_failed
    (trace_of (Container_run Sample.self (Sample.host Sample.tree [] (Sample.programs 7))))
    = false /\
  exists argv out,
    In (Exec argv (Returned 7 out))
       (trace_of (Container_run Sample.self (Sample.host Sample.tree [] (Sample.programs 7)))) /\
    is_launch (Exec argv (Returned 7 out)) = true /\
    exists root,
      rootfs (final (Container_run Sample.self
                       (Sample.host Sample.tree [] (Sample.programs 7)))) = Some root /\
      argv = launch_argv root (command (config Sample.self)).
Proof.
  apply (exit_status_origin Sample.self _ 7); [vm_compute; reflexivity|lia|lia].
Defined.

(** What a container started from the command line comes to, when its
    name has no NUL byte. *)
Lemma container_main_cases cfg s :
  nul_in (cg_path (cgroup (new_container cfg))) = false ->
  (exists rc, outcome (container_main cfg s) = Ret rc /\
     List.Forall (fun ev => rmtree_failed ev = false) (trace_of (container_main cfg s))) \/
  (exists root c, outcome (container_main cfg s) = Raise (OSError c) /\
     In (Sys (Rmtree root) (Some c)) (trace_of (container_main cfg s))).
Proof.
  intros Hnul. rewrite container_main_unfold.
  destruct (run_cases (new_container cfg) (set_rootfs None s))
    as [(R & H & _)|(ev & e & t & R & T & _ & K)].
  - left. destruct (resolve_returns (outcome (Container_run_steps (new_container cfg)
                                               (set_rootfs None s)))) as [rc Hrc].
    exists rc. split; [congruence|exact H].
  - destruct K as [(root & c & -> & ->)|(_ & _ & K)].
    + right. exists root, c. split; [exact R|]. rewrite T. apply in_or_app. right.
      now left.
    + congruence.
Qed.

Lemma discards_after_run cfg :
  nul_in (cg_path (cgroup (new_container cfg))) = false ->
  discards_status (container_main cfg ;; ret tt).
Proof.
  intros Hnul s. rewrite bind_ret_after. simpl.
  destruct (container_main_cases cfg s Hnul) as [(rc & O & H)|(root & c & O & H)];
    rewrite O.
  - now left.
  - right. eauto.
Qed.

Lemma memory_config_name env :
  nul_in (cg_path (cgroup (new_container (memory_config env)))) = false.
Proof. unfold memory_config. now destruct (negb (python_found env)). Qed.

Lemma discards_memory_demo env : discards_status (demo_memory_limit env).
Proof.
  intros s. destruct (demo_memory_limit_unfold env s) as (head & Hh & E).
  cbv zeta in E. rewrite E. simpl.
  destruct (container_main_cases (memory_config env) s (memory_config_name env))
    as [(rc & O & H)|(root & c & O & H)]; rewrite O.
  - left. split; [reflexivity|]. apply List.Forall_app. split.
    + eapply List.Forall_impl; [|exact Hh]. intros ev [Hp _]. now destruct ev.
    + apply List.Forall_app. split; [exact H|]. destruct (rc =? 137); repeat constructor.
  - right. exists root, c. split; [reflexivity|].
    apply in_or_app. right. apply in_or_app. now left.
Qed.

(** X17. How [main] ends.  It exits with status 1 when the effective
    user is not the super-user, and when the first argument is none of the
    four command names; it returns for [help] (also when no argument is
    given).  For [shell], [run] and [memory] the value [run] returned is
    thrown away: [main] returns whatever became of the container, unless the
    tear-down's [rmtree] failed, whose [OSError] then leaves [main]. *)
Theorem main_exit_status (env : environ) (s : machine) :
  let cmd := selected_command env in
  let r := outcome (main env s) in
  (os_geteuid env <> 0 -> r = Ret (SystemExit 1)) /\
  (os_geteuid env = 0 -> ~ In cmd ["shell"; "run"; "memory"; "help"] ->
   r = Ret (SystemExit 1)) /\
  (os_geteuid env = 0 -> cmd = "help" -> r = Ret Returns) /\
  (os_geteuid env = 0 -> In cmd ["shell"; "run"; "memory"] ->
   (r = Ret Returns /\
    existsb rmtree_failed (trace_of (main env s)) = false) \/
   (exists root c, r = Raise (OSError c) /\
      In (Sys (Rmtree root) (Some c)) (trace_of (main env s)))).
Proof.
  intros cmd r. subst cmd r. split; [|split; [|split]].
  - intros H. now rewrite (main_not_root env s H).
  - intros Hroot H. rewrite (main_as_root env s Hroot), main_commands_lookup.
    destruct (String.eqb_spec (selected_command env) "shell") as [E|_];
      [exfalso; apply H; simpl; auto|].
    destruct (String.eqb_spec (selected_command env) "run") as [E|_];
      [exfalso; apply H; simpl; auto|].
    destruct (String.eqb_spec (selected_command env) "memory") as [E|_];
      [exfalso; apply H; simpl; auto|].
    destruct (String.eqb_spec (selected_command env) "help") as [E|_];
      [exfalso; apply H; simpl; auto|].
    reflexivity.
  - intros Hroot E. rewrite (main_as_root env s Hroot), main_commands_lookup, E.
    reflexivity.
  - intros Hroot Hin. rewrite (main_as_root env s Hroot), main_commands_lookup.
    assert (D : exists h, discards_status h /\
              (if (selected_command env =? "shell")%string then Some demo_interactive
               else if (selected_command env =? "run")%string then Some demo_command
               else if (selected_command env =? "memory")%string
                    then Some (demo_memory_limit env)
               else if (selected_command env =? "help")%string then Some print_help
               else None) = Some h).
    { destruct Hin as [<-|[<-|[<-|[]]]]; simpl; eexists; (split; [|reflexivity]).
      - now apply discards_after_run.
      - now apply discards_after_run.
      - apply discards_memory_demo. }
    destruct D as (h & Hd & ->). rewrite bind_ret_after. simpl.
    destruct (Hd s) as [(O & H)|(root & c & O & H)]; rewrite O.
    + left. split; [reflexivity|]. now apply existsb_false_Forall.
    + right. eauto.
Qed.

Lemma main_exit_status_witness :
  outcome (main Cli.shell_as_user Sample.healthy) = Ret (SystemExit 1) /\
  outcome (main Cli.shell (Sample.host Sample.tree [] (Sample.programs 7))) = Ret Returns.
Proof.
  split.
  - destruct (main_exit_status Cli.shell_as_user Sample.healthy) as (H & _).
    apply H. discriminate.
  - destruct (main_exit_status Cli.shell (Sample.host Sample.tree [] (Sample.programs 7)))
      as (_ & _ & _ & H).
    destruct H as [(H & _)|(root & c & H & _)].
    + reflexivity.
    + simpl. auto.
    + exact H.
    + exfalso. vm_compute in H. discriminate.
Defined.

Lemma main_leaves_host_alone_witness :
  final (main Cli.shell_as_user Sample.healthy) = Sample.healthy /\
  List.Forall (fun ev => is_host_call ev = false)
    (trace_of (main Cli.shell_as_user Sample.healthy)).
Proof.
  apply main_leaves_host_alone. left. discriminate.
Defined.

(** X18. [demo_memory_limit] prints its "OOM Killer" line exactly when
    the launched command came back with exit status 137 and the tear-down's
    [rmtree] did not fail. *)
Theorem oom_report (env : environ) (s : machine) :
  In (Print oom_message) (trace_of (demo_memory_limit env s)) <->
  existsb rmtree_failed (trace_of (demo_memory_limit env s)) = false /\
  exists argv out,
    In (Exec argv (Returned 137 out)) (trace_of (demo_memory_limit env s)) /\
    is_launch (Exec argv (Returned 137 out)) = true.
Proof.
  destruct (demo_memory_limit_unfold env s) as (head & Hh & E). cbv zeta in E.
  rewrite E. simpl. rewrite container_main_unfold in *.
  set (self := new_container (memory_config env)) in *.
  set (s0 := set_rootfs None s) in *.
  assert (Hhead : forall ev, In ev head -> is_print ev = true /\ ev <> Print oom_message).
  { now apply List.Forall_forall. }
  assert (Hrun : forall ev, In ev (trace_of (Container_run self s0)) ->
                   ev <> Print oom_message).
  { apply List.Forall_forall. apply run_never_reports_oom. }
  split.
  - intros Hin. apply in_app_or in Hin as [Hin|Hin]; [now destruct (Hhead _ Hin)|].
    apply in_app_or in Hin as [Hin|Hin]; [now destruct (Hrun _ Hin)|].
    destruct (outcome (Container_run self s0)) as [rc|e] eqn:O; [|destruct Hin].
    destruct (rc =? 137) eqn:Hrc; [|destruct Hin]. apply Z.eqb_eq in Hrc. subst rc.
    split.
    + apply existsb_false_Forall. apply List.Forall_app. split.
      { apply List.Forall_forall. intros ev Hev. destruct (Hhead _ Hev) as [Hp _].
        now destruct ev. }
      apply List.Forall_app. split; [|repeat constructor].
      destruct (run_cases self s0) as [(_ & H & _)|(root & c & t & R & _)];
        [exact H|congruence].
    + destruct (run_status_from_launch self s0 137 O) as (argv & out & Ha & Hl); try lia.
      exists argv, out. split; [|exact Hl].
      apply in_or_app. right. apply in_or_app. now left.
  - intros (Hrm & argv & out & Hin & Hl).
    apply existsb_false_Forall in Hrm.
    apply List.Forall_app in Hrm as [_ Hrm]. apply List.Forall_app in Hrm as [Hrm _].
    assert (Hin' : In (Exec argv (Returned 137 out)) (trace_of (Container_run self s0))).
    { apply in_app_or in Hin as [Hin|Hin]; [now destruct (Hhead _ Hin)|].
      apply in_app_or in Hin as [Hin|Hin]; [exact Hin|].
      destruct (outcome (Container_run self s0)) as [rc|e]; [|destruct Hin].
      destruct (rc =? 137); [|destruct Hin]. destruct Hin as [Hin|[]]. discriminate. }
    rewrite (run_status_of_launch self s0 _ _ (memory_config_name env) Hrm Hin' Hl).
    simpl.
    apply in_or_app. right. apply in_or_app. right. now left.
Qed.

Lemma oom_report_witness :
  In (Print oom_message)
     (trace_of (demo_memory_limit Cli.memory
                  (Sample.host Sample.tree [] (Sample.programs 137)))).
Proof.
  apply (proj2 (oom_report Cli.memory (Sample.host Sample.tree [] (Sample.programs 137)))).
  split; [vm_compute; reflexivity|].
  exists (launch_argv ["tmp"; "container_mem_test_k3x9"]
            (command (memory_config Cli.memory))), EmptyString.
  split; [|reflexivity]. vm_compute. do 47 right. left. reflexivity.
Defined.

(** ** The resource group *)


Lemma space_width_none c s : Py.space_width (String c s) = O -> Py.isspace c = false.
Proof. unfold Py.space_width. destruct (Py.isspace c); [discriminate|reflexivity]. Qed.

Lemma solid_cons c s :
  solid (String c s) = true -> Py.space_width (String c s) = O /\ solid s = true.
Proof.
  cbn [solid]. intros H. apply andb_true_iff in H as [H1 H2].
  apply Nat.eqb_eq in H1. auto.
Qed.

Lemma solid_byte c s : solid (String c s) = true -> Py.isspace c = false.
Proof. intros H. apply solid_cons in H as [H _]. exact (space_width_none _ _ H). Qed.

(** A byte below 128 is a character of its own. *)
Lemma ascii_no_space c s :
  (nat_of_ascii c <? 128)%nat = true -> Py.isspace c = false ->
  Py.space_width (String c s) = O.
Proof.
  intros Hc Hs.
  assert (N : forall x, (nat_of_ascii x <? 128)%nat = false -> Ascii.eqb c x = false).
  { intros x Hx. destruct (Ascii.eqb_spec c x) as [->|]; [congruence|reflexivity]. }
  unfold Py.space_width. rewrite Hs. destruct s as [|d [|e s]]; [reflexivity| |].
  - now rewrite (N "194"%char).
  - rewrite (N "194"%char) by reflexivity. unfold Py.wide_space.
    now rewrite (N "225"%char), (N "226"%char), (N "227"%char).
Qed.

Lemma solid_uint d : solid (NilEmpty.string_of_uint d) = true.
Proof.
  induction d; cbn [NilEmpty.string_of_uint solid]; [reflexivity|..];
    rewrite ascii_no_space by reflexivity; exact IHd.
Qed.

Lemma solid_str z : solid (Py.str z) = true.
Proof.
  unfold Py.str, NilZero.string_of_int, NilZero.string_of_uint.
  destruct (Z.to_int z) as [d|d].
  - destruct d; try reflexivity; apply solid_uint.
  - cbn [solid]. rewrite ascii_no_space by reflexivity.
    destruct d; try reflexivity; apply solid_uint.
Qed.

Lemma lstrip_solid s : solid s = true -> Py.Plain.lstrip s = s.
Proof.
  destruct s as [|c s]; simpl; [reflexivity|].
  intros H. now rewrite (solid_byte _ _ H).
Qed.

Lemma rstrip_solid s : solid s = true -> Py.Plain.rstrip s = s.
Proof.
  induction s as [|c s IH]; [reflexivity|].
  intros H. pose proof (solid_byte _ _ H) as Hc. apply solid_cons in H as [_ Hs].
  cbn [Py.Plain.rstrip]. rewrite (IH Hs), Hc. now destruct s.
Qed.

(** A numeral survives [strip], so what [add_process] writes is read back
    by the kernel as the pid. *)
Lemma int_strip_str z : Py.int (Py.Plain.strip (Py.str z)) = Some z.
Proof.
  unfold Py.Plain.strip.
  rewrite (lstrip_solid _ (solid_str z)), (rstrip_solid _ (solid_str z)).
  apply int_str.
Qed.

Lemma write_procs f (g : path) files procs (p : Z) :
  f !! g = Some (CGroup files procs) -> g <> [] ->
  f !! (g ++ ["cgroup.procs"]) = None ->
  write_sem (g ++ ["cgroup.procs"]) (Py.str p) f =
    inr (<[g := CGroup files (p :: procs)]> f).
Proof.
  intros Hg Hne Habs. unfold write_sem.
  assert (Lg : lstat f g = Some (CGroup files procs)) by (destruct g; [easy|exact Hg]).
  rewrite follow_stop by (rewrite lstat_app, Habs; discriminate).
  rewrite lstat_app, Habs, parent_app.
  rewrite follow_stop by (rewrite Lg; discriminate).
  rewrite Lg. unfold cgroup_write. rewrite basename_app. simpl.
  now rewrite int_strip_str.
Qed.

Lemma write_without_parent f (g : path) entry data :
  f !! g = None -> g <> [] -> f !! (g ++ [entry]) = None ->
  write_sem (g ++ [entry]) data f = inl ENOENT.
Proof.
  intros Hg Hne Habs. unfold write_sem.
  assert (Lg : lstat f g = None) by (destruct g; [easy|exact Hg]).
  rewrite follow_stop by (rewrite lstat_app, Habs; discriminate).
  rewrite lstat_app, Habs, parent_app.
  rewrite follow_stop by (rewrite Lg; discriminate).
  now rewrite Lg.
Qed.

Lemma on_fs_inv sem s a s' :
  on_fs sem s = inr (a, s') -> exists f, sem (fs s) = inr f /\ s' = set_fs f s.
Proof.
  unfold on_fs. destruct (sem (fs s)) as [c|f]; [discriminate|].
  intros [= _ <-]. eauto.
Qed.

(** A file-system call that returns did what its semantics say, on the
    tree as it was. *)
Lemma fs_call_Ret op sem s t s' :
  syscall op (on_fs sem) s = (t, s', Ret tt) ->
  t = [Sys op None] /\ exists f, sem (fs s) = inr f /\ fs s' = f /\ rootfs s' = rootfs s.
Proof.
  intros H. apply syscall_Ret_inv in H as (-> & H & _). split; [reflexivity|].
  apply on_fs_inv in H as (f & H & ->).
  destruct (pop_fault_frame s) as (Hfs & _ & Hr & _). rewrite Hfs in H.
  exists f. repeat split; [exact H|exact Hr].
Qed.

(** A file-system call that raises leaves the tree as it was. *)
Lemma fs_call_Raise op sem s t s' e :
  syscall op (on_fs sem) s = (t, s', Raise e) ->
  fs s' = fs s /\ rootfs s' = rootfs s /\
  ((exists c, e = OSError c /\ t = [Sys op (Some c)] /\
              (faults s = [] -> sem (fs s) = inl c)) \/
   (e = ValueError /\ t = [Refused op] /\ refusable op s' = true)).
Proof.
  unfold syscall, pop_fault.
  destruct (faults s) as [|[c|] rest] eqn:F; simpl.
  - unfold on_fs. destruct (sem (fs s)) as [c|f]; [|discriminate].
    intros [= <- <- <-]. split; [reflexivity|]. split; [reflexivity|].
    left. exists c. auto.
  - destruct (refusable op (set_faults rest s)) eqn:R;
      intros [= <- <- <-]; (split; [reflexivity|]); (split; [reflexivity|]).
    + right. auto.
    + left. exists c. split; [reflexivity|]. split; [reflexivity|]. congruence.
  - unfold on_fs. simpl. destruct (sem (fs s)) as [c|f]; [|discriminate].
    intros [= <- <- <-]. split; [reflexivity|]. split; [reflexivity|].
    left. exists c. split; [reflexivity|]. split; [reflexivity|]. congruence.
Qed.

Lemma fs_call_cases op sem s :
  (exists s', syscall op (on_fs sem) s = ([Sys op None], s', Ret tt)) \/
  (exists c s', syscall op (on_fs sem) s = ([Sys op (Some c)], s', Raise (OSError c))) \/
  (exists s', syscall op (on_fs sem) s = ([Refused op], s', Raise ValueError) /\
     refusable op s' = true /\ fs s' = fs s).
Proof.
  destruct (syscall_cases op (on_fs sem) s)
    as [([] & s' & E)|[(c & s' & E)|(s' & E & R & F & _)]]; eauto 6.
Qed.

Lemma lookup_present (f : fsmap) (p : path) n : p <> [] -> f !! p = Some n -> present f p = true.
Proof. intros Hne H. unfold present. destruct p; [easy|]. simpl. now rewrite H. Qed.

(** X3. Once [add_process] has written a pid to the group's
    [cgroup.procs], the group holds that pid in front of its earlier
    members, and [cleanup] cannot remove the group any more: its [rmdir]
    fails, the error is swallowed, and the group stays in the tree. *)
Theorem enrolled_group_outlives_cleanup (cg : CGroupManager) (s : machine) (p : Z)
    (files : gmap string string) (procs : list Z) :
  cg_path cg <> [] ->
  fs s !! cg_path cg = Some (CGroup files procs) ->
  fs s !! (cg_path cg ++ ["cgroup.procs"]) = None ->
  outcome (CGroupManager_add_process cg p s) = Ret tt ->
  let s1 := final (CGroupManager_add_process cg p s) in
  fs s1 = <[cg_path cg := CGroup files (p :: procs)]> (fs s) /\
  forall s2, fs s2 = fs s1 ->
    outcome (CGroupManager_cleanup cg s2) = Ret tt /\
    fs (final (CGroupManager_cleanup cg s2)) = fs s2 /\
    exists c, trace_of (CGroupManager_cleanup cg s2) =
                [Call "CGroupManager.cleanup"; Sys (Rmdir (cg_path cg)) (Some c)].
Proof.
  intros Hne Hg Habs. set (g := cg_path cg) in *.
  unfold CGroupManager_add_process, Path_write_text. fold g.
  change (g // "cgroup.procs") with (g ++ ["cgroup.procs"]).
  rewrite emit_bind. simpl.
  destruct (fs_call_cases (WriteText (g ++ ["cgroup.procs"]) (Py.str p))
              (write_sem (g ++ ["cgroup.procs"]) (Py.str p)) s)
    as [(s' & E)|[(c & s' & E)|(s' & E & _)]]; rewrite E; simpl;
    [intros _|discriminate|discriminate].
  apply fs_call_Ret in E as (_ & f & Hw & Hf & _).
  rewrite (write_procs _ _ _ _ _ Hg Hne Habs) in Hw. injection Hw as <-.
  split; [exact Hf|]. intros s2 H2.
  assert (G2 : fs s2 !! g = Some (CGroup files (p :: procs))).
  { rewrite H2, Hf. apply lookup_insert_eq. }
  unfold CGroupManager_cleanup, Path_rmdir. fold g. rewrite emit_bind.
  unfold try_except.
  destruct (fs_call_cases (Rmdir g) (rmdir_sem g) s2)
    as [(s3 & R)|[(c & s3 & R)|(s3 & R & Rf & F3)]]; rewrite R; simpl.
  - exfalso. apply fs_call_Ret in R as (_ & f & Hr & _).
    unfold rmdir_sem in Hr. destruct g as [|a g']; [easy|]. rewrite G2 in Hr.
    discriminate.
  - apply fs_call_Raise in R as (Hfs & _). repeat split; [exact Hfs|]. now exists c.
  - exfalso. rewrite <- F3 in G2.
    destruct (present_not_refused g s3 (lookup_present _ _ _ Hne G2)) as (H & _).
    congruence.
Qed.

Lemma enrolled_group_outlives_cleanup_witness :
  let cg := CGroupManager_init "demo" in
  let s := final (CGroupManager_create cg 50 25 Sample.healthy) in
  let s1 := final (CGroupManager_add_process cg 4242 s) in
  outcome (CGroupManager_cleanup cg s1) = Ret tt /\
  fs (final (CGroupManager_cleanup cg s1)) = fs s1.
Proof.
  intros cg s s1.
  destruct (enrolled_group_outlives_cleanup cg s 4242
              (<["cpu.max" := "25000 100000"]> (<["memory.max" := "52428800"]> ∅)) [])
    as [_ H].
  - discriminate.
  - vm_compute. reflexivity.
  - vm_compute. reflexivity.
  - vm_compute. reflexivity.
  - destruct (H s1 eq_refl) as (H1 & H2 & _). split; [exact H1|exact H2].
Defined.

(** X4. [CGroupManager.cleanup] leaves the tree as it was or removes the
    one entry of the group, nothing else; and it removes it only when the
    group has no entry below it and, being a cgroup, no member process. *)
Theorem cgroup_cleanup_frame (cg : CGroupManager) (s : machine) :
  let s' := final (CGroupManager_cleanup cg s) in
  fs s' = fs s \/
  (fs s' = delete (cg_path cg) (fs s) /\
   childless (fs s) (cg_path cg) /\
   (fs s !! cg_path cg = Some Dir \/
    exists files, fs s !! cg_path cg = Some (CGroup files []))).
Proof.
  intros s'. subst s'. unfold CGroupManager_cleanup, Path_rmdir.
  rewrite emit_bind. unfold try_except.
  destruct (fs_call_cases (Rmdir (cg_path cg)) (rmdir_sem (cg_path cg)) s)
    as [(s1 & R)|[(c & s1 & R)|(s1 & R & _ & F1)]]; rewrite R; simpl;
    [| |now left].
  - right. apply fs_call_Ret in R as (_ & f & Hr & <- & _).
    unfold rmdir_sem in Hr. destruct (cg_path cg) as [|a g] eqn:G; [discriminate|].
    destruct (fs s !! (a :: g)) as [[| | |files procs]|] eqn:L; try discriminate.
    + destruct (decide (childless (fs s) (a :: g))); [|discriminate].
      injection Hr as <-. auto.
    + destruct procs; [|discriminate].
      destruct (decide (childless (fs s) (a :: g))); [|discriminate].
      injection Hr as <-. eauto.
  - left. now apply fs_call_Raise in R as (Hfs & _).
Qed.

(** X11. When [RootFSManager.cleanup] returns on a root that exists,
    nothing is left at or below the root, every other entry of the tree is
    unchanged, and a second [cleanup] does nothing: it finds the root gone
    and calls no [rmtree]. *)
Theorem rootfs_cleanup_removes_subtree (mgr : RootFSManager) (s : machine) (root : path) :
  rootfs s = Some root -> root <> [] ->
  exists_ (fs s) root = true ->
  outcome (RootFSManager_cleanup mgr s) = Ret tt ->
  let s' := final (RootFSManager_cleanup mgr s) in
  (forall q, under root q = true -> fs s' !! q = None) /\
  (forall q, under root q = false -> fs s' !! q = fs s !! q) /\
  RootFSManager_cleanup mgr s' = ([Call "RootFSManager.cleanup"], s', Ret tt).
Proof.
  intros R Hne X. pose proof (rootfs_cleanup_cases mgr s) as C.
  rewrite R, X in C. rewrite C. simpl. unfold shutil_rmtree.
  destruct (fs_call_cases (Rmtree root) (rmtree_sem root) s)
    as [(s1 & E)|[(c & s1 & E)|(s1 & E & _)]];
    rewrite E; simpl; [intros _|discriminate|discriminate].
  apply fs_call_Ret in E as (_ & f & Hr & Hf & R1).
  unfold rmtree_sem in Hr. destruct (lstat (fs s) root) as [[]|]; try discriminate.
  injection Hr as <-. cbv zeta. split; [|split].
  - intros q Hq. rewrite Hf. now apply pruned_below.
  - intros q Hq. rewrite Hf. now apply pruned_elsewhere.
  - pose proof (rootfs_cleanup_cases mgr s1) as C1. rewrite R1, R in C1.
    rewrite exists_absent in C1; [exact C1|].
    destruct root as [|a r]; [easy|]. simpl. rewrite Hf.
    apply pruned_below, under_refl.
Qed.

Lemma rootfs_cleanup_removes_subtree_witness :
  let s := final (Container_run_steps Sample.self Sample.healthy) in
  let s' := final (RootFSManager_cleanup (rootfs_mgr Sample.self) s) in
  fs s' !! (Sample.new_root ++ ["bin"; "busybox"]) = None /\
  fs s' !! ["usr"; "bin"; "busybox"] = Some (File "busybox-elf") /\
  RootFSManager_cleanup (rootfs_mgr Sample.self) s'
    = ([Call "RootFSManager.cleanup"], s', Ret tt).
Proof.
  intros s s'.
  destruct (rootfs_cleanup_removes_subtree (rootfs_mgr Sample.self) s Sample.new_root)
    as (H1 & H2 & H3).
  - vm_compute. reflexivity.
  - discriminate.
  - vm_compute. reflexivity.
  - vm_compute. reflexivity.
  - split; [|split].
    + apply H1. apply under_app.
    + fold s'. rewrite H2; [vm_compute; reflexivity|]. apply under_other_head. discriminate.
    + exact H3.
Defined.

Lemma mkdir_existing_group f (g : path) files procs :
  g <> [] -> f !! g = Some (CGroup files procs) -> mkdir_sem g f = inr f.
Proof.
  intros Hne Hg.
  assert (Lg : lstat f g = Some (CGroup files procs)) by (destruct g; [easy|exact Hg]).
  unfold mkdir_sem, os_mkdir, is_dir. rewrite Lg.
  now rewrite (stat_lstat _ _ _ Lg).
Qed.

(** [create] on a group that is already there. *)
Lemma create_existing_group self mb cpu s files procs :
  faults s = [] -> cg_path self <> [] ->
  fs s !! cg_path self = Some (CGroup files procs) ->
  childless (fs s) (cg_path self) ->
  CGroupManager_create self mb cpu s =
    (limits_trace self mb cpu,
     set_fs (<[cg_path self :=
                 CGroup (<["cpu.max" := Py.str (cpu * 1000) +:+ " 100000"]>
                         (<["memory.max" := Py.str (mb * 1024 * 1024)]> files)) procs]>
               (fs s)) s,
     Ret tt).
Proof.
  intros F Hg Hlk Hch. unfold limits_trace. set (g := cg_path self) in *.
  assert (Hentry : forall e (f : fsmap) n, f !! (g ++ [e]) = None ->
            <[g := n]> f !! (g ++ [e]) = None).
  { intros e f n H. now rewrite lookup_insert_ne by (symmetry; apply app_last_ne). }
  assert (Hfree : forall e, fs s !! (g ++ [e]) = None).
  { intros e. apply (childless_absent _ g);
      [exact Hch|apply under_app|apply app_last_ne]. }
  unfold CGroupManager_create, Path_mkdir, Path_write_text, print.
  fold g. change (g // "memory.max") with (g ++ ["memory.max"]).
  change (g // "cpu.max") with (g ++ ["cpu.max"]).
  apply step_emit.
  eapply step_syscall; [exact F| |].
  { apply on_fs_ok. exact (mkdir_existing_group _ _ _ _ Hg Hlk). }
  eapply step_syscall; [exact F| |].
  { apply on_fs_ok. simpl fs.
    apply (write_cgroup_entry _ g files procs "memory.max");
      [exact Hlk|exact Hg|apply Hfree|reflexivity]. }
  eapply step_syscall; [exact F| |].
  { apply on_fs_ok. simpl fs.
    eapply (write_cgroup_entry _ g);
      [apply lookup_insert_eq|exact Hg|now apply Hentry|reflexivity]. }
  simpl. rewrite insert_insert_eq. reflexivity.
Qed.

Lemma childless_insert (f : fsmap) (g : path) n :
  childless f g -> childless (<[g := n]> f) g.
Proof.
  intros H q x Hq Hu. destruct (decide (g = q)) as [<-|Hne]; [reflexivity|].
  rewrite lookup_insert_ne in Hq by exact Hne. exact (H q x Hq Hu).
Qed.

(** X1. [CGroupManager.create] on a group that is already there (the
    [exist_ok] case), on a host that injects no error: it returns, the two
    limits are replaced by the new ones, every other interface file and the
    member processes are kept, and a second [create] with the same limits
    changes nothing. *)
Theorem create_keeps_existing_group (self : CGroupManager) (mb cpu : Z) (s : machine)
    (files : gmap string string) (procs : list Z) :
  faults s = [] -> cg_path self <> [] ->
  fs s !! cg_path self = Some (CGroup files procs) ->
  childless (fs s) (cg_path self) ->
  let once := CGroupManager_create self mb cpu s in
  outcome once = Ret tt /\
  (exists files',
     fs (final once) = <[cg_path self := CGroup files' procs]> (fs s) /\
     files' !! "memory.max" = Some (Py.str (mb * 1024 * 1024)) /\
     files' !! "cpu.max" = Some (Py.str (cpu * 1000) +:+ " 100000") /\
     forall entry, entry <> "memory.max" -> entry <> "cpu.max" ->
       files' !! entry = files !! entry) /\
  fs (final (CGroupManager_create self mb cpu (final once))) = fs (final once).
Proof.
  intros F Hg Hlk Hch once. subst once.
  rewrite (create_existing_group self mb cpu s files procs F Hg Hlk Hch). simpl.
  split; [reflexivity|]. split.
  - eexists. split; [reflexivity|]. split; [|split].
    + rewrite lookup_insert_ne by discriminate. apply lookup_insert_eq.
    + apply lookup_insert_eq.
    + intros entry H1 H2. now rewrite !lookup_insert_ne by congruence.
  - erewrite create_existing_group;
      [|exact F|exact Hg|apply lookup_insert_eq|now apply childless_insert].
    simpl. rewrite insert_insert_eq. do 2 f_equal.
    apply map_eq. intros k.
    destruct (decide (k = "cpu.max")) as [->|H1]; [now rewrite !lookup_insert_eq|].
    rewrite !(lookup_insert_ne _ "cpu.max") by congruence.
    destruct (decide (k = "memory.max")) as [->|H2]; [now rewrite !lookup_insert_eq|].
    rewrite !(lookup_insert_ne _ "memory.max") by congruence.
    now rewrite !lookup_insert_ne by congruence.
Qed.

Lemma create_keeps_existing_group_witness :
  let cg := CGroupManager_init "demo" in
  let s := final (CGroupManager_add_process cg 4242
                    (final (CGroupManager_create cg 50 25 Sample.healthy))) in
  outcome (CGroupManager_create cg 80 10 s) = Ret tt /\
  exists files',
    fs (final (CGroupManager_create cg 80 10 s)) !! cg_path cg
      = Some (CGroup files' [4242]) /\
    files' !! "memory.max" = Some "83886080".
Proof.
  intros cg s.
  destruct (create_keeps_existing_group cg 80 10 s
              (<["cpu.max" := "25000 100000"]> (<["memory.max" := "52428800"]> ∅)) [4242])
    as (H1 & (files' & H2 & H3 & _) & _).
  - reflexivity.
  - discriminate.
  - vm_compute. reflexivity.
  - apply (@bool_decide_unpack _ (childless_dec _ _)). vm_compute. exact I.
  - split; [exact H1|]. exists files'. split; [|exact H3].
    rewrite H2. apply lookup_insert_eq.
Defined.

(** X2. [add_process] for a group that was never created fails with
    [FileNotFoundError] and leaves the machine as it was. *)
Theorem add_process_needs_group (cg : CGroupManager) (p : Z) (s : machine) :
  faults s = [] -> cg_path cg <> [] ->
  fs s !! cg_path cg = None ->
  fs s !! (cg_path cg ++ ["cgroup.procs"]) = None ->
  CGroupManager_add_process cg p s =
    ([Call "CGroupManager.add_process";
      Sys (WriteText (cg_path cg ++ ["cgroup.procs"]) (Py.str p)) (Some ENOENT)],
     s, Raise FileNotFoundError).
Proof.
  intros F Hne Hg Habs. unfold CGroupManager_add_process, Path_write_text.
  change (cg_path cg // "cgroup.procs") with (cg_path cg ++ ["cgroup.procs"]).
  apply step_emit. unfold syscall, pop_fault, on_fs. rewrite F.
  now rewrite (write_without_parent _ _ _ _ Hg Hne Habs).
Qed.

Lemma add_process_needs_group_witness :
  outcome (CGroupManager_add_process (CGroupManager_init "demo") 4242 Sample.healthy)
  = Raise FileNotFoundError.
Proof.
  rewrite (add_process_needs_group (CGroupManager_init "demo") 4242 Sample.healthy);
    [reflexivity|reflexivity|discriminate|vm_compute; reflexivity|vm_compute; reflexivity].
Defined.

(** ** The search for BusyBox *)

(** The search loop returns the first path of the list that exists; it
    records nothing and changes nothing. *)
Lemma first_existing_find l s :
  first_existing l s =
    ([], s, Ret (List.find (fun p => exists_ (fs s) (cwd s // p)) l)).
Proof.
  induction l as [|p l IH]; [reflexivity|].
  cbn [first_existing List.find]. unfold os_path_exists. rewrite step_get.
  destruct (exists_ (fs s) (cwd s // p)); [reflexivity|exact IH].
Qed.

(** The three candidates are absolute, so the working directory plays no
    part in the search. *)
Lemma busybox_probe s :
  List.find (fun p => exists_ (fs s) (cwd s // p)) busybox_paths
  = List.find (fun p => exists_ (fs s) (Path p)) busybox_paths.
Proof.
  unfold busybox_paths. cbn [List.find].
  now rewrite (joinpath_absolute (cwd s) "/usr/bin/busybox" eq_refl),
    (joinpath_absolute (cwd s) "/bin/busybox" eq_refl),
    (joinpath_absolute (cwd s) "/usr/bin/busybox-static" eq_refl).
Qed.

Lemma busybox_dst root : root // "bin/busybox" = root ++ ["bin"; "busybox"].
Proof. reflexivity. Qed.

Lemma setup_busybox_absent self s :
  List.find (fun p => exists_ (fs s) (Path p)) busybox_paths = None ->
  RootFSManager__setup_busybox self s =
    ([Call "RootFSManager._setup_busybox"], s, Ret false).
Proof.
  intros H. unfold RootFSManager__setup_busybox. rewrite emit_bind.
  rewrite (bind_Ret _ _ _ _ _ _ (first_existing_find busybox_paths s)), busybox_probe, H.
  reflexivity.
Qed.

Lemma setup_busybox_found self s src :
  List.find (fun p => exists_ (fs s) (Path p)) busybox_paths = Some src ->
  let body :=
    (root <- self_rootfs ;;
     shutil_copy2 src (root // "bin/busybox") ;;
     Path_chmod (root // "bin/busybox") 493 ;;
     link_commands commands ;;
     ret true) in
  RootFSManager__setup_busybox self s =
    (Call "RootFSManager._setup_busybox" :: trace_of (body s), final (body s),
     outcome (body s)).
Proof.
  intros H body. unfold RootFSManager__setup_busybox. rewrite emit_bind.
  rewrite (bind_Ret _ _ _ _ _ _ (first_existing_find busybox_paths s)), busybox_probe, H.
  reflexivity.
Qed.

(** X6. The search loop of [_setup_busybox] settles on the first of the
    three places that exists, in the order of the list and whatever the
    working directory is; BusyBox is copied from that place and from no
    other, and to [<rootfs>/bin/busybox] only. *)
Theorem busybox_search_order (self : RootFSManager) (s : machine) :
  let probe := fun p => exists_ (fs s) (Path p) in
  first_existing busybox_paths s = ([], s, Ret (List.find probe busybox_paths)) /\
  (forall src dst r,
     In (Sys (Copy2 src dst) r) (trace_of (RootFSManager__setup_busybox self s)) ->
     List.find probe busybox_paths = Some src /\
     exists root, rootfs s = Some root /\ dst = root ++ ["bin"; "busybox"]) /\
  (probe "/usr/bin/busybox" = true ->
   List.find probe busybox_paths = Some "/usr/bin/busybox") /\
  (probe "/usr/bin/busybox" = false -> probe "/bin/busybox" = true ->
   List.find probe busybox_paths = Some "/bin/busybox").
Proof.
  intros probe. split; [|split; [|split]].
  - rewrite first_existing_find. now rewrite busybox_probe.
  - intros src dst r.
    destruct (List.find probe busybox_paths) as [src'|] eqn:Hfind.
    2:{ rewrite (setup_busybox_absent self s Hfind). intros [H|[]]. discriminate. }
    rewrite (setup_busybox_found self s src' Hfind).
    unfold trace_of at 1. cbn [fst]. intros [H|H]; [discriminate|].
    destruct (rootfs s) as [root|] eqn:R.
    2:{ unfold bind, self_rootfs in H. rewrite R in H. destruct H. }
    rewrite (step_self_rootfs _ _ _ R) in H. unfold shutil_copy2 in H.
    match type of H with
    | In _ (trace_of (bind (syscall ?op ?sem) ?k s)) =>
        assert (Hk : forall a, emits (fun ev => is_copy ev = false) (k a))
    end.
    { intros []. unfold link_commands, link_command. emits_walk; reflexivity. }
    match type of H with
    | In _ (trace_of (bind (syscall ?op ?sem) ?k s)) =>
        destruct (syscall_cases op sem s) as [([] & s1 & E)|[(c & s1 & E)|(s1 & E & _)]]
    end.
    + rewrite (bind_Ret _ _ _ _ _ _ E) in H. simpl in H. destruct H as [H|H].
      * injection H as <- <- _. rewrite busybox_dst. eauto.
      * specialize (Hk tt s1). rewrite List.Forall_forall in Hk.
        specialize (Hk _ H). discriminate.
    + rewrite (bind_Raise _ _ _ _ _ _ E) in H. simpl in H. destruct H as [H|[]].
      injection H as <- <- _. rewrite busybox_dst. eauto.
    + rewrite (bind_Raise _ _ _ _ _ _ E) in H. simpl in H. destruct H as [H|[]].
      discriminate.
  - intros H. unfold busybox_paths. cbn [List.find]. now rewrite H.
  - intros H1 H2. unfold busybox_paths. cbn [List.find]. now rewrite H1, H2.
Qed.

Lemma busybox_search_order_witness :
  List.find (fun p => exists_ (fs Sample.fresh_bin) (Path p)) busybox_paths
    = Some "/usr/bin/busybox" /\
  exists root,
    rootfs Sample.fresh_bin = Some root /\
    Sample.new_root ++ ["bin"; "busybox"] = root ++ ["bin"; "busybox"].
Proof.
  apply (proj1 (proj2 (busybox_search_order (rootfs_mgr Sample.self) Sample.fresh_bin))
           "/usr/bin/busybox" (Sample.new_root ++ ["bin"; "busybox"]) None).
  vm_compute. right. left. reflexivity.
Defined.

Lemma outcome_bind_never {A B} (m : M A) (k : A -> M B) (b : B) s :
  (forall a s1, outcome (k a s1) <> Ret b) -> outcome (bind m k s) <> Ret b.
Proof.
  intros H. unfold bind. destruct (m s) as [[t1 s1] [a|e]]; [|discriminate].
  specialize (H a s1). now destruct (k a s1) as [[t2 s2] r].
Qed.

(** X7. [_setup_busybox] answers [False] exactly when BusyBox exists at
    none of the three places, and then it has recorded no call and changed
    nothing.  When BusyBox is found, a failed copy, mode change or link
    raises; it is never reported as [False]. *)
Theorem setup_busybox_reports_absence (self : RootFSManager) (s : machine) :
  (outcome (RootFSManager__setup_busybox self s) = Ret false <->
   forall p, In p busybox_paths -> exists_ (fs s) (Path p) = false) /\
  (outcome (RootFSManager__setup_busybox self s) = Ret false ->
   RootFSManager__setup_busybox self s =
     ([Call "RootFSManager._setup_busybox"], s, Ret false)).
Proof.
  destruct (List.find (fun p => exists_ (fs s) (Path p)) busybox_paths) as [src|] eqn:Hfind.
  - assert (N : outcome (RootFSManager__setup_busybox self s) <> Ret false).
    { rewrite (setup_busybox_found self s src Hfind). unfold outcome at 1. cbn [snd].
      do 4 (apply outcome_bind_never; intros ? ?). discriminate. }
    split; [split|]; intros H; try contradiction.
    apply List.find_some in Hfind as [Hin Hx]. rewrite (H _ Hin) in Hx. discriminate.
  - rewrite (setup_busybox_absent self s Hfind). split; [split|]; try reflexivity.
    intros _ p Hin. exact (List.find_none _ _ Hfind p Hin).
Qed.

Lemma setup_busybox_reports_absence_witness :
  RootFSManager__setup_busybox (rootfs_mgr Sample.self)
    (Sample.host Sample.tree_without_busybox [] (Sample.programs 0))
  = ([Call "RootFSManager._setup_busybox"],
     Sample.host Sample.tree_without_busybox [] (Sample.programs 0), Ret false).
Proof.
  destruct (setup_busybox_reports_absence (rootfs_mgr Sample.self)
              (Sample.host Sample.tree_without_busybox [] (Sample.programs 0))) as [H1 H2].
  apply H2, H1. intros p Hp. unfold busybox_paths in Hp.
  destruct Hp as [<-|[<-|[<-|[]]]]; vm_compute; reflexivity.
Defined.

(** ** Where exceptions come from *)

Section Accountable.
Context (allowed : exn -> Prop).











End Accountable.

Ltac keeps_rootfs_solve :=
  let H := fresh in
  pose proof rootfs_blind as H; keeps_walk; try apply keeps_first_existing.


(** *** The two subscripts of the [ldd] parser are in range *)














(** ** Where provisioning writes *)

Section Confined.
Context (root : path).

Lemma confined_ret {A} (a : A) : confined root (ret a).
Proof. intros s _. constructor. Qed.

Lemma confined_raise {A} e : confined root (@raise A e).
Proof. intros s _. constructor. Qed.

Lemma confined_get {A} (f : machine -> A) : confined root (get f).
Proof. intros s _. constructor. Qed.

Lemma confined_emit ev : inside root ev = true -> confined root (emit ev).
Proof. intros H s _. repeat constructor. exact H. Qed.

Lemma confined_syscall {A} op (sem : machine -> oserr + A * machine) :
  (forall r, inside root (Sys op r) = true) -> confined root (syscall op sem).
Proof.
  intros H s _.
  destruct (syscall_cases op sem s) as [(a & s' & E)|[(c & s' & E)|(s' & E & _)]];
    rewrite E; repeat constructor; try apply H. exact (H None).
Qed.

Lemma confined_subprocess_run argv : confined root (subprocess_run argv).
Proof. intros s _. repeat constructor. Qed.

Lemma confined_subprocess_run_text argv : confined root (subprocess_run_text argv).
Proof.
  intros s _. unfold subprocess_run_text.
  destruct (spawn s argv); [destruct (_ && _)| |]; repeat constructor.
Qed.

Lemma confined_bind {A B} (m : M A) (k : A -> M B) :
  keeps rootfs m -> confined root m -> (forall a, confined root (k a)) ->
  confined root (bind m k).
Proof.
  intros Km Hm Hk s R. specialize (Km s). specialize (Hm s R).
  destruct (m s) as [[t1 s1] [a|e]] eqn:E.
  - rewrite (bind_Ret _ _ _ _ _ _ E). simpl in *.
    apply List.Forall_app. split; [exact Hm|]. apply Hk. congruence.
  - rewrite (bind_Raise _ _ _ _ _ _ E). exact Hm.
Qed.

(** Reading [self.rootfs] yields [root]. *)
Lemma confined_self_rootfs {B} (k : path -> M B) :
  confined root (k root) -> confined root (bind self_rootfs k).
Proof.
  intros Hk s R. rewrite (step_self_rootfs _ _ _ R). now apply Hk.
Qed.

Lemma confined_for_each {A} (l : list A) (body : A -> M unit) :
  (forall x, keeps rootfs (body x)) -> (forall x, In x l -> confined root (body x)) ->
  confined root (for_each l body).
Proof.
  intros Kb Hb. induction l as [|x l IH]; simpl.
  - apply confined_ret.
  - apply confined_bind; [apply Kb|apply Hb; now left|intros _].
    apply IH. intros y Hy. apply Hb. now right.
Qed.

Lemma confined_try_except {A} (m : M A) h :
  keeps rootfs m -> confined root m -> (forall e, confined root (h e)) ->
  confined root (try_except m h).
Proof.
  intros Km Hm Hh s R. specialize (Km s). specialize (Hm s R). unfold try_except.
  destruct (m s) as [[t1 s1] [a|e]]; [exact Hm|]. simpl in Km.
  assert (R1 : rootfs s1 = Some root) by congruence.
  specialize (Hh e s1 R1). destruct (h e s1) as [[t2 s2] r]. simpl in *.
  apply List.Forall_app. now split.
Qed.
End Confined.

Ltac confined_walk :=
  repeat (unfold_calls;
    lazymatch goal with
    | |- confined _ (bind self_rootfs _) => apply confined_self_rootfs
    | |- confined _ (bind _ _) =>
        apply confined_bind; [solve [keeps_rootfs_solve]| |intros ?]
    | |- confined _ (ret _) => apply confined_ret
    | |- confined _ (raise _) => apply confined_raise
    | |- confined _ (get _) => apply confined_get
    | |- confined _ (emit _) => apply confined_emit; reflexivity
    | |- confined _ (try_except _ _) =>
        apply confined_try_except; [solve [keeps_rootfs_solve]| |intros ?]
    | |- confined _ (syscall _ _) => apply confined_syscall; intros ?
    | |- confined _ (subprocess_run _) => apply confined_subprocess_run
    | |- confined _ (subprocess_run_text _) => apply confined_subprocess_run_text
    | |- confined _ (if ?b then _ else _) => destruct b
    | |- confined _ (match ?x with _ => _ end) => destruct x
    end).

(** [lib_path.lstrip('/')] is relative, so joining it keeps [root] in
    front. *)
Lemma lstrip_slash_relative s : Py.startswith (Py.lstrip_slash s) "/" = false.
Proof.
  induction s as [|c s IH]; [reflexivity|].
  destruct (Ascii.eqb_spec c "/") as [->|Hc]; [exact IH|].
  assert (E : Py.lstrip_slash (String c s) = String c s).
  { destruct c as [[] [] [] [] [] [] [] []]; try reflexivity. now contradiction Hc. }
  rewrite E. cbn [Py.startswith]. apply andb_false_iff. left.
  apply Ascii.eqb_neq. congruence.
Qed.

Lemma join_lstrip (root : path) lib :
  root // Py.lstrip_slash lib = root ++ parts (Py.lstrip_slash lib).
Proof. unfold joinpath. now rewrite lstrip_slash_relative. Qed.

Lemma inside_mkdir_parent (root l : path) r :
  inside root (Sys (Mkdir (parent (root ++ l)) true) r) = true.
Proof.
  unfold inside, aimed_inside, parent. destruct l as [|x l].
  - rewrite app_nil_r. apply orb_true_iff. right. now apply bool_decide_eq_true.
  - rewrite removelast_app by discriminate. now rewrite under_app.
Qed.

Lemma confined_copy_library root line : confined root (copy_library line).
Proof.
  unfold copy_library.
  apply confined_bind; [solve [keeps_rootfs_solve]|confined_walk|intros lib_path].
  destruct lib_path as [lib|]; [|apply confined_ret].
  apply confined_bind; [solve [keeps_rootfs_solve]|confined_walk|intros found].
  destruct found; [|apply confined_ret].
  apply confined_self_rootfs. rewrite join_lstrip.
  confined_walk.
  - apply inside_mkdir_parent.
  - apply under_app.
Qed.

Lemma confined_setup_busybox root self : confined root (RootFSManager__setup_busybox self).
Proof.
  unfold RootFSManager__setup_busybox.
  apply confined_bind; [solve [keeps_rootfs_solve]|confined_walk|intros _].
  apply confined_bind;
    [apply keeps_first_existing|intros s _; now rewrite first_existing_find|intros src].
  destruct src as [src|]; [|apply confined_ret].
  apply confined_self_rootfs. rewrite busybox_dst.
  apply confined_bind; [solve [keeps_rootfs_solve]| |intros _].
  { confined_walk. apply under_app. }
  apply confined_bind; [solve [keeps_rootfs_solve]| |intros _].
  { confined_walk. apply under_app. }
  apply confined_bind; [|  |intros _; apply confined_ret].
  { unfold link_commands, link_command. keeps_rootfs_solve. }
  unfold link_commands. apply confined_for_each.
  { intros cmd. unfold link_command. keeps_rootfs_solve. }
  intros cmd Hin. unfold link_command. apply confined_self_rootfs.
  rewrite (command_link root cmd Hin), <- app_assoc.
  confined_walk. apply under_app.
Qed.

Lemma confined_copy_bash root self : confined root (RootFSManager__copy_bash self).
Proof.
  unfold RootFSManager__copy_bash.
  apply confined_bind; [solve [keeps_rootfs_solve]|confined_walk|intros _].
  apply confined_bind; [solve [keeps_rootfs_solve]|confined_walk|intros found].
  destruct found; simpl negb; cbv iota; [|apply confined_ret].
  apply confined_self_rootfs.
  change (root // "bin/bash") with (root ++ ["bin"; "bash"]).
  apply confined_bind; [solve [keeps_rootfs_solve]| |intros _].
  { confined_walk. apply under_app. }
  apply confined_bind; [solve [keeps_rootfs_solve]| |intros _].
  { confined_walk. apply under_app. }
  apply confined_try_except; [| |intros e; confined_walk].
  - apply keeps_bind; [apply keeps_subprocess_run_text|intros r].
    apply keeps_for_each. intros line. apply keeps_copy_library, rootfs_blind.
  - apply confined_bind;
      [apply keeps_subprocess_run_text|apply confined_subprocess_run_text|].
    intros r. apply confined_for_each.
    + intros line. apply keeps_copy_library, rootfs_blind.
    + intros line _. apply confined_copy_library.
Qed.

Lemma provisioning_body_props (mgr : RootFSManager) root :
  let body :=
    (for_each skeleton (fun d => root <- self_rootfs ;; Path_mkdir (root // d) true) ;;
     ok <- RootFSManager__setup_busybox mgr ;;
     if negb ok then raise (RuntimeError busybox_missing)
     else
       RootFSManager__copy_bash mgr ;;
       root <- self_rootfs ;;
       print ("✓ RootFS: " +:+ path_str root) ;;
       ret root) in
  confined root body /\ keeps rootfs body.
Proof.
  intros body. subst body. split.
  - apply confined_bind; [solve [keeps_rootfs_solve]| |intros _].
    { apply confined_for_each; [intros d; solve [keeps_rootfs_solve]|].
      intros d Hd. apply confined_self_rootfs. rewrite (skeleton_simple root d Hd).
      confined_walk. unfold inside, aimed_inside. now rewrite under_app. }
    apply confined_bind;
      [apply keeps_setup_busybox, rootfs_blind|apply confined_setup_busybox|intros ok].
    destruct ok; simpl negb; cbv iota; [|apply confined_raise].
    apply confined_bind;
      [apply keeps_copy_bash, rootfs_blind|apply confined_copy_bash|intros _].
    confined_walk.
  - apply keeps_bind; [solve [keeps_rootfs_solve]|intros _].
    apply keeps_bind; [apply keeps_setup_busybox, rootfs_blind|intros ok].
    destruct ok; simpl negb; cbv iota; [|apply keeps_raise].
    apply keeps_bind; [apply keeps_copy_bash, rootfs_blind|intros _].
    keeps_rootfs_solve.
Qed.

(** X10. Apart from [mkdtemp] itself (made, or refused for a NUL byte
    in the name), every library call [create] records, refused ones
    included, is aimed at the root it made: each copy, mode change and link
    has a destination whose components extend those of the root, each
    [mkdir] too (or is the parent of the root, which exists), and nothing is
    written or removed. *)
Theorem provisioning_stays_inside_root (mgr : RootFSManager) (s : machine) (ev : event) :
  In ev (trace_of (RootFSManager_create mgr s)) ->
  ev = Call "RootFSManager.create" \/
  (exists r, ev = Sys (Mkdtemp ("container_" +:+ rfs_name mgr +:+ "_")) r) \/
  ev = Refused (Mkdtemp ("container_" +:+ rfs_name mgr +:+ "_")) \/
  exists root,
    rootfs (final (RootFSManager_create mgr s)) = Some root /\ inside root ev = true.
Proof.
  unfold RootFSManager_create, tempfile_mkdtemp. rewrite emit_bind.
  match goal with |- context [bind (syscall ?op ?sem) ?k s] =>
    destruct (syscall_cases op sem s) as [(tmp & s1 & E)|[(c & s1 & E)|(s1 & E & _)]] end.
  - rewrite (bind_Ret _ _ _ _ _ _ E), step_modify.
    destruct (provisioning_body_props mgr (Path tmp)) as [Hc Hk]. cbv zeta in Hc, Hk.
    specialize (Hc (set_rootfs (Some (Path tmp)) s1) eq_refl).
    specialize (Hk (set_rootfs (Some (Path tmp)) s1)).
    simpl. intros [H|[H|H]]; [now left|right; left; eauto|].
    right. right. right. exists (Path tmp). split; [exact Hk|].
    rewrite List.Forall_forall in Hc. now apply Hc.
  - rewrite (bind_Raise _ _ _ _ _ _ E). simpl.
    intros [H|[H|[]]]; [now left|right; left; eauto].
  - rewrite (bind_Raise _ _ _ _ _ _ E). simpl.
    intros [H|[H|[]]]; [now left|right; right; left; now symmetry].
Qed.

Lemma provisioning_stays_inside_root_witness :
  exists root,
    rootfs (final (RootFSManager_create (rootfs_mgr Sample.self) Sample.healthy)) = Some root /\
    inside root (Sys (Copy2 "/lib64/ld-linux-x86-64.so.2"
                        (Sample.new_root ++ ["lib64"; "ld-linux-x86-64.so.2"])) None) = true.
Proof.
  destruct (provisioning_stays_inside_root (rootfs_mgr Sample.self) Sample.healthy
              (Sys (Copy2 "/lib64/ld-linux-x86-64.so.2"
                      (Sample.new_root ++ ["lib64"; "ld-linux-x86-64.so.2"])) None))
    as [H|[(r & H)|[H|H]]].
  - vm_compute. do 29 right. left. reflexivity.
  - discriminate.
  - discriminate.
  - discriminate.
  - exact H.
Defined.

(** ** The first failure *)

Lemma split_in_app {T} (l1 l2 : list T) : forall pre ev post,
  l1 ++ l2 = pre ++ ev :: post ->
  (exists mid, l1 = pre ++ ev :: mid /\ post = mid ++ l2) \/
  (exists mid, pre = l1 ++ mid /\ l2 = mid ++ ev :: post).
Proof.
  induction l1 as [|x l1 IH]; intros pre ev post E.
  - right. exists pre. auto.
  - destruct pre as [|y pre]; simpl in E; injection E as -> E.
    + left. exists l1. auto.
    + destruct (IH _ _ _ E) as [(mid & -> & ->)|(mid & -> & ->)].
      * left. exists mid. auto.
      * right. exists mid. auto.
Qed.

Section Failfast.

Lemma failfast_nil {A} (m : M A) : (forall s, trace_of (m s) = []) -> failfast m.
Proof. intros H s pre ev post e E. rewrite H in E. now destruct pre. Qed.

Lemma failfast_ret {A} (a : A) : failfast (ret a).
Proof. now apply failfast_nil. Qed.

Lemma failfast_raise {A} e : failfast (@raise A e).
Proof. now apply failfast_nil. Qed.

Lemma failfast_get {A} (f : machine -> A) : failfast (get f).
Proof. now apply failfast_nil. Qed.

Lemma failfast_modify u : failfast (modify u).
Proof. now apply failfast_nil. Qed.

Lemma failfast_self_rootfs : failfast self_rootfs.
Proof. apply failfast_nil. intros s. unfold self_rootfs. now destruct (rootfs s). Qed.

Lemma failfast_single {A} (m : M A) :
  (forall s, exists ev, trace_of (m s) = [ev] /\
     forall e, raised_by ev = Some e -> outcome (m s) = Raise e) ->
  failfast m.
Proof.
  intros H s pre ev post e E Hev. destruct (H s) as (ev0 & T & O). rewrite T in E.
  destruct pre as [|x pre]; [|destruct pre; discriminate].
  injection E as <- <-. split; [reflexivity|now apply O].
Qed.

Lemma failfast_emit ev : raised_by ev = None -> failfast (emit ev).
Proof.
  intros H. apply failfast_single. intros s. exists ev. split; [reflexivity|].
  intros e He. congruence.
Qed.

Lemma failfast_syscall {A} op (sem : machine -> oserr + A * machine) :
  failfast (syscall op sem).
Proof.
  apply failfast_single. intros s.
  destruct (syscall_cases op sem s) as [(a & s' & E)|[(c & s' & E)|(s' & E & _)]];
    rewrite E; eexists; (split; [reflexivity|]); simpl; intros e He; congruence.
Qed.

Lemma failfast_subprocess_run argv : failfast (subprocess_run argv).
Proof.
  apply failfast_single. intros s. eexists. split; [reflexivity|].
  simpl. destruct (spawn s argv); simpl; intros e' He; congruence.
Qed.

Lemma failfast_subprocess_run_text argv : failfast (subprocess_run_text argv).
Proof.
  intros s pre ev post e. unfold subprocess_run_text.
  destruct (spawn s argv) as [rc out|c|]; [destruct (_ && _)| |]; simpl; intros T Hev.
  - destruct pre as [|x [|y pre]]; try discriminate T. now injection T as <- <-.
  - destruct pre as [|x [|y [|z pre]]]; try discriminate T.
    + now injection T as <- <-.
    + injection T as <- <- <-. simpl in Hev. split; congruence.
  - destruct pre as [|x [|y pre]]; try discriminate T. injection T as <- <-.
    simpl in Hev. split; congruence.
  - destruct pre as [|x [|y pre]]; try discriminate T. injection T as <- <-.
    simpl in Hev. split; congruence.
Qed.

Lemma failfast_bind {A B} (m : M A) (k : A -> M B) :
  failfast m -> (forall a, failfast (k a)) -> failfast (bind m k).
Proof.
  intros Hm Hk s pre ev post e. specialize (Hm s).
  destruct (m s) as [[t1 s1] [a|e1]] eqn:E.
  - rewrite (bind_Ret _ _ _ _ _ _ E). simpl in *. intros T Hev.
    apply split_in_app in T as [(mid & -> & ->)|(mid & -> & T)].
    + destruct (Hm _ _ _ _ eq_refl Hev) as [_ O]. discriminate.
    + exact (Hk a s1 _ _ _ _ T Hev).
  - rewrite (bind_Raise _ _ _ _ _ _ E). simpl in *. intros T Hev.
    destruct (Hm _ _ _ _ T Hev) as [-> O]. split; [reflexivity|congruence].
Qed.

Lemma failfast_for_each {A} (l : list A) (body : A -> M unit) :
  (forall x, failfast (body x)) -> failfast (for_each l body).
Proof.
  intros Hb. induction l as [|x l IH]; simpl.
  - apply failfast_ret.
  - apply failfast_bind; [apply Hb | intros _; exact IH].
Qed.

Lemma failfast_except_CalledProcessError (m : M unit) :
  failfast m ->
  failfast (try_except m (fun e => if is_CalledProcessError e then ret tt else raise e)).
Proof.
  intros Hm s pre ev post e. specialize (Hm s pre ev post e). unfold try_except.
  destruct (m s) as [[t1 s1] [a|e1]]; [exact Hm|].
  destruct (is_CalledProcessError e1) eqn:Hc; simpl in *; rewrite app_nil_r;
    intros T Hev; destruct (Hm T Hev) as [-> O]; (split; [reflexivity|]).
  - injection O as ->. rewrite (raised_by_not_CalledProcessError _ _ Hev) in Hc.
    discriminate.
  - exact O.
Qed.
End Failfast.

Ltac failfast_walk :=
  repeat (unfold_calls;
    lazymatch goal with
    | |- failfast (bind _ _) => apply failfast_bind; [|intros ?]
    | |- failfast (ret _) => apply failfast_ret
    | |- failfast (raise _) => apply failfast_raise
    | |- failfast (get _) => apply failfast_get
    | |- failfast (modify _) => apply failfast_modify
    | |- failfast self_rootfs => apply failfast_self_rootfs
    | |- failfast (emit _) => apply failfast_emit; reflexivity
    | |- failfast (for_each _ _) => apply failfast_for_each; intros ?
    | |- failfast (try_except _ (fun e => if is_CalledProcessError e then _ else _)) =>
        apply failfast_except_CalledProcessError
    | |- failfast (syscall _ _) => apply failfast_syscall
    | |- failfast (subprocess_run _) => apply failfast_subprocess_run
    | |- failfast (subprocess_run_text _) => apply failfast_subprocess_run_text
    | |- failfast (if ?b then _ else _) => destruct b
    | |- failfast (match ?x with _ => _ end) => destruct x
    end).

Lemma failfast_first_existing l : failfast (first_existing l).
Proof. induction l as [|p l IH]; simpl; failfast_walk. exact IH. Qed.

Lemma failfast_steps self : failfast (Container_run_steps self).
Proof.
  unfold Container_run_steps, CGroupManager_create, CGroupManager_add_process,
    RootFSManager_create, RootFSManager__setup_busybox, link_commands,
    link_command, RootFSManager__copy_bash, copy_library.
  failfast_walk. apply failfast_first_existing.
Qed.

Lemma run_layout self s :
  let steps := Container_run_steps self s in
  trace_of (Container_run self s) =
    prelude self ++ trace_of steps ++ except_prints (final steps) (outcome steps)
      ++ trace_of (Container__cleanup self (final steps)).
Proof.
  intros steps. subst steps. unfold Container_run, print. rewrite !emit_bind. simpl.
  rewrite try_finally_trace. unfold try_except.
  destruct (Container_run_steps self s) as [[t s1] [rc|e]]; simpl.
  - reflexivity.
  - destruct e; simpl; now rewrite <- app_assoc.
Qed.

(** X15. The first failed call of steps 1 to 4 ends them.  No call
    before it failed; steps 1 to 4 raise what it raised; the very next event
    is the line the [except] clause prints for that exception -- the fixed
    line for [KeyboardInterrupt], otherwise the error prefix followed by
    the message of the exception as the library worded it, file names
    included; and everything after it belongs to the tear-down (method
    entries, prints, [rmdir], [rmtree]): no further step is attempted. *)
Theorem first_failure_ends_setup (self : Container) (s : machine)
    (pre post : list event) (ev : event) (e : exn) :
  trace_of (Container_run self s) = pre ++ ev :: post ->
  raised_by ev = Some e -> is_removal ev = false ->
  outcome (Container_run_steps self s) = Raise e /\
  List.Forall (fun x => raised_by x = None) pre /\
  head post = Some (Print (nl +:+ (if is_Exception e
                                   then "✗ Ошибка: "
                                        +:+ exn_str (final (Container_run_steps self s)) e
                                   else "⚠ Остановлено"))) /\
  List.Forall (fun x => teardown_event x = true) post.
Proof.
  intros T Hev Hrem. rewrite run_layout in T. cbv zeta in T.
  set (steps := Container_run_steps self s) in *.
  apply split_in_app in T as [(mid & P & _)|(mid & -> & T)].
  { exfalso. unfold prelude in P.
    assert (In ev [Call "Container.run"; Print (nl +:+ banner);
                   Print ("Контейнер: " +:+ name (config self)); Print banner]) as Hin
      by (rewrite P; apply in_or_app; right; now left).
    simpl in Hin. destruct Hin as [<-|[<-|[<-|[<-|[]]]]]; discriminate. }
  apply split_in_app in T as [(rest & Ts & ->)|(mid' & -> & T)].
  - destruct (failfast_steps self s _ _ _ _ Ts Hev) as [-> O]. fold steps in O.
    split; [exact O|]. split; [|split].
    + apply List.Forall_app. split; [repeat constructor|].
      apply List.Forall_forall. intros x Hx.
      destruct (raised_by x) as [ex|] eqn:Hx'; [|reflexivity]. exfalso.
      apply in_split in Hx as (l1 & l2 & ->).
      rewrite <- app_assoc in Ts. cbn [app] in Ts.
      destruct (failfast_steps self s _ _ _ _ Ts Hx') as [Hnil _].
      now destruct l2.
    + rewrite O. simpl.
      destruct (raised_by_cases _ _ Hev) as [[c ->]|[->|[->| ->]]]; reflexivity.
    + simpl. apply List.Forall_app. split.
      * rewrite O. destruct e; repeat constructor.
      * apply teardown_cleanup.
  - exfalso.
    assert (Hin : In ev (except_prints (final steps) (outcome steps)
                         ++ trace_of (Container__cleanup self (final steps)))).
    { rewrite T. apply in_or_app. right. now left. }
    apply in_app_or in Hin as [Hin|Hin].
    + destruct (outcome steps) as [rc|[]]; simpl in Hin;
        try destruct Hin as [<-|[]]; try destruct Hin; discriminate.
    + pose proof (teardown_cleanup self (final steps)) as Ht.
      rewrite List.Forall_forall in Ht.
      pose proof (teardown_no_failure ev e (Ht _ Hin) Hev). congruence.
Qed.

Lemma first_failure_ends_setup_witness :
  let host := Sample.host Sample.tree [] Sample.programs_without_ldd in
  let tr := trace_of (Container_run Sample.self host) in
  outcome (Container_run_steps Sample.self host) = Raise FileNotFoundError /\
  head (skipn 35 tr)
    = Some (Print (nl +:+ "✗ Ошибка: [Errno 2] No such file or directory: 'ldd'")) /\
  List.Forall (fun x => teardown_event x = true) (skipn 35 tr).
Proof.
  intros host tr.
  destruct (first_failure_ends_setup Sample.self host (firstn 34 tr) (skipn 35 tr)
              (Exec ["ldd"; "/usr/bin/bash"] (SpawnFailed ENOENT)) FileNotFoundError)
    as (H1 & _ & H2 & H3).
  - vm_compute. reflexivity.
  - reflexivity.
  - reflexivity.
  - split; [exact H1|]. split; [|exact H3].
    rewrite H2. vm_compute. reflexivity.
Defined.

(** ** Provisioning on a host that has BusyBox *)

Lemma makedirs_child_exact (f : fsmap) (root : path) d n :
  root <> [] -> only_dirs_below root f -> f !! root = Some Dir ->
  makedirs n (root ++ [d]) f = inr (<[root ++ [d] := Dir]> f).
Proof.
  intros Hne Hdirs Hroot.
  assert (Lroot : lstat f root = Some Dir) by (destruct root; [easy|exact Hroot]).
  destruct (f !! (root ++ [d])) as [x|] eqn:E.
  - assert (x = Dir) as -> by (apply (Hdirs _ _ (under_app root [d]) E)).
    rewrite insert_id by exact E. apply makedirs_direct.
    unfold mkdir_sem, os_mkdir, is_dir. rewrite lstat_app, E.
    rewrite (stat_lstat f (root ++ [d]) Dir); [reflexivity| |discriminate].
    now rewrite lstat_app.
  - apply makedirs_direct. unfold mkdir_sem, os_mkdir.
    rewrite lstat_app, E, parent_app.
    rewrite (stat_lstat f root Dir Lroot); [reflexivity|discriminate].
Qed.

Lemma with_dirs_out root ds : forall f q,
  (forall d, In d ds -> q <> root ++ [d]) -> with_dirs root ds f !! q = f !! q.
Proof.
  induction ds as [|d ds IH]; intros f q H; [reflexivity|].
  unfold with_dirs. simpl. fold (with_dirs root ds (<[root ++ [d] := Dir]> f)).
  rewrite IH by (intros d' Hd'; apply H; now right).
  apply lookup_insert_ne. intros E. apply (H d); [now left|now symmetry].
Qed.

Lemma with_dirs_keeps root ds : forall f q x,
  f !! q = Some Dir -> x = Dir -> with_dirs root ds f !! q = Some x.
Proof.
  induction ds as [|d ds IH]; intros f q x H ->; [exact H|].
  unfold with_dirs. simpl. fold (with_dirs root ds (<[root ++ [d] := Dir]> f)).
  apply IH; [|reflexivity].
  destruct (decide (root ++ [d] = q)) as [<-|Hne];
    [apply lookup_insert_eq|now rewrite lookup_insert_ne].
Qed.

Lemma with_dirs_in root ds : forall f d,
  In d ds -> with_dirs root ds f !! (root ++ [d]) = Some Dir.
Proof.
  induction ds as [|d0 ds IH]; intros f d Hin; [destruct Hin|].
  unfold with_dirs. simpl. fold (with_dirs root ds (<[root ++ [d0] := Dir]> f)).
  destruct Hin as [->|Hin]; [|now apply IH].
  apply (with_dirs_keeps root ds _ _ Dir); [apply lookup_insert_eq|reflexivity].
Qed.

Lemma skeleton_built ds : forall s root,
  (forall d, In d ds -> root // d = root ++ [d]) ->
  faults s = [] -> rootfs s = Some root -> root <> [] ->
  only_dirs_below root (fs s) -> fs s !! root = Some Dir ->
  exists t,
    for_each ds (fun d => root <- self_rootfs ;; Path_mkdir (root // d) true) s
      = (t, set_fs (with_dirs root ds (fs s)) s, Ret tt).
Proof.
  induction ds as [|d ds IH]; intros s root Hsimple F R Hne Hdirs Hroot.
  - exists []. simpl. unfold ret. now destruct s.
  - destruct (IH (set_fs (<[root ++ [d] := Dir]> (fs s)) s) root) as (t & E); auto.
    { intros d' Hin. apply Hsimple. now right. }
    { intros q x Hu Hq. simpl in Hq. destruct (decide (root ++ [d] = q)) as [<-|Hq'].
      - rewrite lookup_insert_eq in Hq. congruence.
      - rewrite lookup_insert_ne in Hq by exact Hq'. exact (Hdirs _ _ Hu Hq). }
    { simpl. rewrite lookup_insert_ne by apply app_last_ne. exact Hroot. }
    exists (Sys (Mkdir (root ++ [d]) true) None :: t).
    cbn [for_each]. eapply (step_bind _ _ s [Sys (Mkdir (root ++ [d]) true) None]);
      [|exact E].
    rewrite (step_self_rootfs _ _ _ R). rewrite (Hsimple d (or_introl eq_refl)).
    apply syscall_ok; [exact F|]. apply on_fs_ok.
    now apply makedirs_child_exact.
Qed.

(** The link loop touches nothing but the link paths. *)
Lemma link_commands_only_links cmds : forall s root q,
  rootfs s = Some root ->
  (forall cmd, In cmd cmds -> q <> root // "bin" // cmd) ->
  fs (final (link_commands cmds s)) !! q = fs s !! q.
Proof.
  induction cmds as [|c rest IH]; intros s root q R H; [reflexivity|].
  rewrite link_commands_cons.
  pose proof (link_command_cases c s root R) as C.
  destruct (exists_ (fs s) (root // "bin" // c)).
  - rewrite (bind_Ret _ _ _ _ _ _ C). simpl.
    apply (IH s root q R). intros cmd Hin. apply H. now right.
  - destruct (symlink_cases (root // "bin" // c) "busybox" s)
      as [(s' & E & _ & F' & R' & _)|(t & e & s' & E & F' & _)]; rewrite E in C.
    + rewrite (bind_Ret _ _ _ _ _ _ C). simpl.
      rewrite (IH s' root q) by (try congruence; intros cmd Hin; apply H; now right).
      rewrite F'. apply lookup_insert_ne. intros Heq. apply (H c); [now left|now symmetry].
    + rewrite (bind_Raise _ _ _ _ _ _ C). simpl. now rewrite F'.
Qed.

Lemma find_first {A} (p : A -> bool) before x after :
  (forall y, In y before -> p y = false) -> p x = true ->
  List.find p (before ++ x :: after) = Some x.
Proof.
  intros Hb Hx. induction before as [|y before IH]; simpl.
  - now rewrite Hx.
  - rewrite (Hb y) by now left. apply IH. intros z Hz. apply Hb. now right.
Qed.

Lemma with_dirs_grows root ds : forall (f g : fsmap),
  (forall d, In d ds -> f !! (root ++ [d]) = None) -> f ⊆ g ->
  f ⊆ with_dirs root ds g.
Proof.
  induction ds as [|d ds IH]; intros f g H Sub; [exact Sub|].
  unfold with_dirs. simpl. fold (with_dirs root ds (<[root ++ [d] := Dir]> g)).
  apply IH; [intros d' Hd'; apply H; now right|].
  apply insert_subseteq_r; [apply H; now left|exact Sub].
Qed.

Lemma write_new_file (f : fsmap) (dir : path) entry data :
  f !! (dir ++ [entry]) = None -> lstat f dir = Some Dir ->
  write_sem (dir ++ [entry]) data f = inr (<[dir ++ [entry] := File data]> f).
Proof.
  intros Habs Hdir. unfold write_sem.
  rewrite follow_stop by (rewrite lstat_app, Habs; discriminate).
  rewrite lstat_app, Habs, parent_app.
  rewrite follow_stop by (rewrite Hdir; discriminate).
  now rewrite Hdir.
Qed.

Lemma lstat_two f (p : path) a b : lstat f (p ++ [a; b]) = f !! (p ++ [a; b]).
Proof. destruct p; reflexivity. Qed.

Lemma skeleton_has_bin : In "bin" skeleton.
Proof. now left. Qed.

Lemma not_a_skeleton_dir (root : path) a b d : root ++ [a; b] <> root ++ [d].
Proof. intros H. apply app_inv_head in H. discriminate. Qed.

Lemma command_not_busybox cmd : In cmd commands -> cmd <> "busybox".
Proof.
  intros H. repeat (destruct H as [<-|H]; [discriminate|]). destruct H.
Qed.

(** [create] on a host that has BusyBox and no bash, with the path of the
    fresh root kept abstract. *)
Lemma pid_blind : host_blind pid.
Proof. split; reflexivity. Qed.

Lemma spawn_blind : host_blind spawn.
Proof. split; reflexivity. Qed.

Lemma keeps_link_commands {X} (proj : machine -> X) cmds :
  host_blind proj -> keeps proj (link_commands cmds).
Proof. intros H. unfold link_commands, link_command. keeps_walk. Qed.

(** With no error left to inject, the links inject none. *)
Lemma link_commands_calm cmds : forall s,
  faults s = [] -> faults (final (link_commands cmds s)) = [].
Proof.
  unfold link_commands. induction cmds as [|c rest IH]; intros s F; simpl.
  - exact F.
  - assert (F1 : faults (final (link_command c s)) = []).
    { destruct (rootfs s) as [root|] eqn:R.
      - rewrite (link_command_cases _ _ _ R).
        destruct (exists_ _ _); [exact F|].
        destruct (symlink_cases (root // "bin" // c) "busybox" s)
          as [(s' & E & _ & _ & _ & F')|(t & e & s' & E & _ & _ & F' & _)];
          rewrite E; simpl; rewrite F', F; reflexivity.
      - rewrite (link_command_no_root _ _ R). exact F. }
    destruct (link_command c s) as [[t1 s1] [[]|e]] eqn:E; simpl in F1.
    + rewrite (bind_Ret _ _ _ _ _ _ E). simpl. apply IH. exact F1.
    + rewrite (bind_Raise _ _ _ _ _ _ E). simpl. exact F1.
Qed.

Lemma provision_busybox_core (mgr : RootFSManager) (s : machine) sfx rest
    (root tail : path) src data before after :
  Path ("/tmp/" +:+ ("container_" +:+ rfs_name mgr +:+ "_") +:+ sfx) = root ->
  root = "tmp" :: tail ->
  faults s = [] -> tmp_names s = sfx :: rest ->
  (forall q, under root q = true -> fs s !! q = None) ->
  stat (fs s) (parent root) = Some Dir ->
  busybox_paths = before ++ src :: after ->
  (forall p, In p before -> fs s !! Path p = None) ->
  stat (fs s) (Path src) = Some (File data) ->
  fs s !! Path bash_path = None ->
  exists t s',
    RootFSManager_create mgr s = (t, s', Ret root) /\
    rootfs s' = Some root /\
    fs s ⊆ fs s' /\
    (forall d, In d skeleton -> fs s' !! (root ++ [d]) = Some Dir) /\
    fs s' !! (root ++ ["bin"; "busybox"]) = Some (File data) /\
    (forall cmd, In cmd commands ->
       fs s' !! (root ++ ["bin"; cmd]) = Some (Symlink "busybox")) /\
    (forall q, under root q = false -> fs s' !! q = fs s !! q) /\
    fs s' !! root = Some Dir /\
    faults s' = [] /\ pid s' = pid s /\ spawn s' = spawn s.
Proof.
  intros Hpath Hroot F T Hfree Hpar Hbb Hbefore Hsrc Hbash.
  assert (Hne : root <> []) by (rewrite Hroot; discriminate).
  assert (L0 : lstat (fs s) root = None).
  { rewrite Hroot. simpl. rewrite <- Hroot. apply Hfree, under_refl. }
  pose proof (mkdtemp_fresh ("container_" +:+ rfs_name mgr +:+ "_") sfx rest s F T) as Mk.
  rewrite Hpath in Mk. specialize (Mk L0 Hpar).
  set (f1 := <[root := Dir]> (fs s)).
  set (s1 := set_rootfs (Some root) (set_tmp_names rest (set_fs f1 s))).
  set (f2 := with_dirs root skeleton f1).
  set (s2 := set_fs f2 s1).
  destruct (skeleton_built skeleton s1 root) as (t2 & Esk).
  { intros d. apply skeleton_simple. }
  { exact F. }
  { reflexivity. }
  { exact Hne. }
  { intros q n Hu. simpl. unfold f1. destruct (decide (root = q)) as [<-|Hq].
    - rewrite lookup_insert_eq. congruence.
    - rewrite lookup_insert_ne by exact Hq. rewrite (Hfree q Hu). discriminate. }
  { simpl. apply lookup_insert_eq. }
  change (set_fs (with_dirs root skeleton (fs s1)) s1) with s2 in Esk.
  (* the tree after the skeleton *)
  assert (Sub1 : fs s ⊆ f1).
  { apply insert_subseteq. now apply lstat_None_lookup. }
  assert (Sub2 : fs s ⊆ f2).
  { apply with_dirs_grows; [|exact Sub1]. intros d _. apply Hfree, under_app. }
  assert (Out2 : forall q, under root q = false -> f2 !! q = fs s !! q).
  { intros q Hq. unfold f2. rewrite with_dirs_out.
    - unfold f1. apply lookup_insert_ne. intros <-. rewrite under_refl in Hq. discriminate.
    - intros d _ ->. rewrite under_app in Hq. discriminate. }
  assert (Deep2 : forall a b, f2 !! (root ++ [a; b]) = None).
  { intros a b. unfold f2. rewrite with_dirs_out by (intros d _; apply not_a_skeleton_dir).
    unfold f1. rewrite lookup_insert_ne.
    - apply Hfree, under_app.
    - intros E. apply (f_equal List.length) in E. rewrite length_app in E. simpl in E. lia. }
  assert (Bin2 : lstat f2 (root ++ ["bin"]) = Some Dir).
  { rewrite lstat_app. apply with_dirs_in, skeleton_has_bin. }
  (* BusyBox is found *)
  assert (Hin_src : In src busybox_paths).
  { rewrite Hbb. apply in_or_app. right. now left. }
  destruct (busybox_path_shape src Hin_src) as (Habs & _).
  assert (Hfind : List.find (fun p => exists_ (fs s2) (Path p)) busybox_paths = Some src).
  { rewrite Hbb. apply find_first.
    - intros p Hp. apply exists_absent.
      assert (Hin_p : In p busybox_paths) by (rewrite Hbb; apply in_or_app; now left).
      destruct (busybox_path_shape p Hin_p) as (_ & a & b & Hp' & Ha & _).
      rewrite Hp'. simpl. rewrite <- Hp'.
      rewrite Out2; [now apply Hbefore|].
      rewrite Hroot, Hp'. apply under_other_head. congruence.
    - unfold exists_. simpl. now rewrite (stat_mono _ _ _ _ Sub2 Hsrc). }
  (* the copy, the mode and the links *)
  set (dst := (root ++ ["bin"]) ++ ["busybox"]).
  assert (Hdst : root ++ ["bin"; "busybox"] = dst).
  { unfold dst. now rewrite <- app_assoc. }
  set (f3 := <[dst := File data]> f2).
  set (s3 := set_fs f3 s2).
  assert (Labs : f2 !! dst = None) by (rewrite <- Hdst; apply Deep2).
  assert (Ecopy : copy2_sem (cwd s2 // src) dst (fs s2) = inr f3).
  { rewrite (joinpath_absolute _ _ Habs). unfold copy2_sem. simpl fs.
    rewrite (stat_mono _ _ _ _ Sub2 Hsrc).
    unfold is_dir. rewrite stat_absent by (unfold dst; now rewrite lstat_app).
    unfold dst. apply write_new_file; [exact Labs|exact Bin2]. }
  assert (Sub3 : f2 ⊆ f3) by (now apply insert_subseteq).
  assert (Ldst : lstat f3 dst = Some (File data)).
  { unfold dst. rewrite lstat_app. apply lookup_insert_eq. }
  assert (Echmod : chmod_sem dst (fs s3) = inr f3).
  { unfold chmod_sem. simpl fs.
    rewrite (stat_lstat _ _ _ Ldst); [reflexivity|intros ?; discriminate]. }
  assert (Free3 : forall cmd, In cmd commands -> lstat f3 (root // "bin" // cmd) = None).
  { intros cmd Hin. rewrite (command_link root cmd Hin), lstat_app, <- app_assoc.
    unfold f3. rewrite lookup_insert_ne.
    - apply Deep2.
    - rewrite <- Hdst. intros E. apply app_inv_head in E. injection E as E.
      now apply (command_not_busybox cmd Hin). }
  assert (Olinks : outcome (link_commands commands s3) = Ret tt).
  { apply (links_succeed commands s3 root eq_refl F (command_links_distinct root)).
    - intros cmd Hin. rewrite (command_link root cmd Hin), parent_app. simpl fs.
      apply (stat_lstat _ _ Dir); [|discriminate].
      exact (lstat_mono _ _ _ _ Sub3 Bin2).
    - intros cmd Hin. left. now apply Free3. }
  destruct (link_commands_frame commands s3) as [Sub4 R4].
  pose proof (fun cmd Hin => links_created commands s3 root cmd eq_refl Hin
                               (or_introl (Free3 cmd Hin)) Olinks) as Links4.
  pose proof (fun q => link_commands_only_links commands s3 root q eq_refl) as Only4.
  pose proof (link_commands_calm commands s3 F) as F4.
  pose proof (keeps_link_commands pid commands pid_blind s3) as P4.
  pose proof (keeps_link_commands spawn commands spawn_blind s3) as Sp4.
  destruct (link_commands commands s3) as [[t4 s4] r4] eqn:Elinks.
  simpl in Olinks, Sub4, R4, Links4, Only4, F4, P4, Sp4. subst r4.
  assert (Out4 : forall q, under root q = false -> fs s4 !! q = fs s !! q).
  { intros q Hq. rewrite Only4.
    - unfold f3. rewrite lookup_insert_ne; [now apply Out2|].
      rewrite <- Hdst. intros <-. rewrite under_app in Hq. discriminate.
    - intros cmd Hin ->. rewrite (command_link root cmd Hin), <- app_assoc, under_app in Hq.
      discriminate. }
  assert (Ebody :
    (root0 <- self_rootfs ;;
     shutil_copy2 src (root0 // "bin/busybox") ;;
     Path_chmod (root0 // "bin/busybox") 493 ;;
     link_commands commands ;;
     ret true) s2
    = (Sys (Copy2 src dst) None :: Sys (Chmod dst 493) None :: t4 ++ [], s4, Ret true)).
  { rewrite (step_self_rootfs _ _ root (eq_refl : rootfs s2 = Some root)).
    rewrite busybox_dst, Hdst. unfold shutil_copy2, Path_chmod.
    eapply step_syscall; [exact F|apply on_fs_ok; exact Ecopy|].
    eapply step_syscall; [exact F|apply on_fs_ok; exact Echmod|].
    eapply step_bind; [exact Elinks|]. reflexivity. }
  pose proof (setup_busybox_found mgr s2 src Hfind) as Esetup.
  cbv zeta in Esetup. rewrite Ebody in Esetup. simpl in Esetup.
  assert (Ebash : RootFSManager__copy_bash mgr s4
                  = ([Call "RootFSManager._copy_bash"], s4, Ret tt)).
  { unfold RootFSManager__copy_bash. apply step_emit. unfold os_path_exists.
    rewrite step_get, (joinpath_absolute _ _ (eq_refl : Py.startswith bash_path "/" = true)).
    rewrite exists_absent; [reflexivity|].
    change (lstat (fs s4) (Path bash_path)) with (fs s4 !! Path bash_path).
    rewrite Out4; [exact Hbash|]. rewrite Hroot. apply under_other_head. discriminate. }
  eexists _, s4.
  split; [|split; [|split; [|split; [|split; [|split; [|split; [|split; [|split; [|split]]]]]]]]].
  - unfold RootFSManager_create. apply step_emit.
    eapply step_bind; [exact Mk|].
    apply step_modify_to. rewrite Hpath. fold f1 s1.
    eapply step_bind; [exact Esk|].
    eapply step_bind; [exact Esetup|].
    simpl negb. cbv iota.
    eapply step_bind; [exact Ebash|].
    rewrite (step_self_rootfs _ _ root R4). apply step_emit. reflexivity.
  - exact R4.
  - transitivity f2; [exact Sub2|]. transitivity f3; [exact Sub3|exact Sub4].
  - intros d Hd. apply (lookup_weaken f2); [now apply with_dirs_in|].
    transitivity f3; [exact Sub3|exact Sub4].
  - rewrite Hdst. apply (lookup_weaken f3); [|exact Sub4]. apply lookup_insert_eq.
  - intros cmd Hin. specialize (Links4 cmd Hin).
    rewrite (command_link root cmd Hin), lstat_app, <- app_assoc in Links4. exact Links4.
  - exact Out4.
  - apply (lookup_weaken f2); [|transitivity f3; [exact Sub3|exact Sub4]].
    unfold f2. rewrite with_dirs_out.
    + apply lookup_insert_eq.
    + intros d _ E. apply (f_equal List.length) in E. rewrite length_app in E.
      simpl in E. lia.
  - exact F4.
  - exact P4.
  - exact Sp4.
Qed.

(** X5. [create] on a host that has BusyBox and no bash, and injects no
    error.  With [sfx] the first suffix [mkdtemp] draws, the fresh root free
    and [/tmp] a directory, [src] the first of the three places that has an
    entry and a regular file with content [data]: [create] returns the
    fresh root and [self.rootfs] holds it; the seven skeleton directories
    exist; [bin/busybox] is a file with content [data]; each of the ten
    commands is a symbolic link to [busybox] that resolves to that file; and
    nothing outside the root has changed. *)
Theorem create_installs_busybox (mgr : RootFSManager) (s : machine) (sfx : string)
    (src data : string) (before after : list string) :
  faults s = [] ->
  (exists rest, tmp_names s = sfx :: rest) ->
  let root := root_for (rfs_name mgr) sfx in
  (forall q, under root q = true -> fs s !! q = None) ->
  stat (fs s) (parent root) = Some Dir ->
  busybox_paths = before ++ src :: after ->
  (forall p, In p before -> fs s !! Path p = None) ->
  stat (fs s) (Path src) = Some (File data) ->
  fs s !! Path bash_path = None ->
  let r := RootFSManager_create mgr s in
  outcome r = Ret root /\
  rootfs (final r) = Some root /\
  (forall d, In d skeleton -> fs (final r) !! (root ++ [d]) = Some Dir) /\
  fs (final r) !! (root ++ ["bin"; "busybox"]) = Some (File data) /\
  (forall cmd, In cmd commands ->
     fs (final r) !! (root ++ ["bin"; cmd]) = Some (Symlink "busybox") /\
     stat (fs (final r)) (root ++ ["bin"; cmd]) = Some (File data)) /\
  (forall q, under root q = false -> fs (final r) !! q = fs s !! q).
Proof.
  intros F (rest & T) root Hfree Hpar Hbb Hbefore Hsrc Hbash r. subst r.
  destruct (provision_busybox_core mgr s sfx rest root _ src data before after eq_refl
              (root_for_tmp (rfs_name mgr) sfx) F T Hfree Hpar Hbb Hbefore Hsrc Hbash)
    as (t & s' & E & R & _ & Hsk & Hbin & Hlinks & Hout & _).
  rewrite E. cbn [outcome final snd fst].
  split; [reflexivity|]. split; [exact R|]. split; [exact Hsk|]. split; [exact Hbin|].
  split; [|exact Hout].
  intros cmd Hin. split; [apply Hlinks; exact Hin|].
  assert (E1 : root ++ ["bin"; cmd] = root // "bin" // cmd).
  { rewrite (command_link root cmd Hin), <- app_assoc. reflexivity. }
  rewrite E1. apply (busybox_link_resolves _ root cmd data Hin).
  - rewrite <- E1, lstat_two. apply Hlinks. exact Hin.
  - rewrite busybox_dst, lstat_two. exact Hbin.
Qed.

Lemma create_installs_busybox_witness :
  let r := RootFSManager_create (rootfs_mgr Sample.self) Cli.host_without_bash in
  let root := root_for "demo" "k3x9" in
  outcome r = Ret root /\
  fs (final r) !! (root ++ ["bin"; "busybox"]) = Some (File "busybox-elf") /\
  stat (fs (final r)) (root ++ ["bin"; "sh"]) = Some (File "busybox-elf").
Proof.
  intros r root.
  destruct (create_installs_busybox (rootfs_mgr Sample.self) Cli.host_without_bash "k3x9"
              "/usr/bin/busybox" "busybox-elf" []
              ["/bin/busybox"; "/usr/bin/busybox-static"])
    as (H1 & _ & _ & H2 & H3 & _).
  - reflexivity.
  - exists []. reflexivity.
  - apply free_below. apply (@bool_decide_unpack _ _). vm_compute. exact I.
  - vm_compute. reflexivity.
  - reflexivity.
  - intros p [].
  - vm_compute. reflexivity.
  - vm_compute. reflexivity.
  - split; [exact H1|]. split; [exact H2|].
    apply (H3 "sh"). simpl. auto.
Defined.

(** ** The lines printed by [ldd] *)

























(** ** A whole run on a healthy host *)

(** X19. On a host that injects no error, has BusyBox and no bash, and
    where neither the control group nor the root directory exists yet,
    creating and running a container returns the command's exit status (130
    when the launch is interrupted, 1 when it cannot be started) and leaves
    the host tree as it was, except for one thing: the control group, with
    both limits and the caller enrolled, is still there. *)
Theorem healthy_run_leaves_group (cfg : ContainerConfig) (s : machine)
    (sfx src data : string) (before after : list string)
    (files0 : gmap string string) (procs0 : list Z) :
  faults s = [] ->
  (exists rest, tmp_names s = sfx :: rest) ->
  let g := cg_path (CGroupManager_init (name cfg)) in
  let root := root_for (name cfg) sfx in
  lstat (fs s) g = None -> childless (fs s) g ->
  stat (fs s) (parent g) = Some (CGroup files0 procs0) ->
  (forall q, under root q = true -> fs s !! q = None) ->
  stat (fs s) (parent root) = Some Dir ->
  busybox_paths = before ++ src :: after ->
  (forall p, In p before -> fs s !! Path p = None) ->
  stat (fs s) (Path src) = Some (File data) ->
  fs s !! Path bash_path = None ->
  let r := container_main cfg s in
  outcome r = Ret match spawn s (launch_argv root (command cfg)) with
                  | Returned rc _ => rc
                  | SpawnFailed _ => 1
                  | Interrupted => 130
                  end /\
  fs (final r) =
    <[g := CGroup (<["cpu.max" := Py.str (cpu_percent cfg * 1000) +:+ " 100000"]>
                   (<["memory.max" := Py.str (memory_mb cfg * 1024 * 1024)]> ∅))
                  [pid s]]> (fs s).
Proof.
  intros F [rest T] g root Lg Cg Pg Hfree Hpar Hbb Hbefore Hsrc Hbash r.
  subst r. rewrite container_main_unfold.
  set (self := new_container cfg). set (s0 := set_rootfs None s).
  pose proof (cg_path_sys (name cfg)) as Hg. fold g in Hg.
  pose proof (root_for_tmp (name cfg) sfx) as Hr. fold root in Hr.
  assert (Gne : g <> []) by (rewrite Hg; discriminate).
  assert (Gout : forall l, under root (g ++ l) = false).
  { intros l. rewrite Hr, Hg. apply under_other_head. discriminate. }
  assert (Gabs : fs s !! g = None) by (now apply lstat_None_lookup).
  (* the group *)
  pose proof (create_fresh_group (cgroup self) (memory_mb cfg) (cpu_percent cfg) s0
                files0 procs0 F Lg Cg Pg) as E1.
  change (cg_path (cgroup self)) with g in E1.
  set (f1 := <[g := limited_group (memory_mb cfg) (cpu_percent cfg)]> (fs s)) in *.
  change (fs s0) with (fs s) in E1. fold f1 in E1.
  set (s1 := set_fs f1 s0) in *.
  assert (Sub1 : fs s ⊆ f1) by (now apply insert_subseteq).
  (* the root file system *)
  destruct (provision_busybox_core (rootfs_mgr self) s1 sfx rest root _ src data before
              after eq_refl Hr F T)
    as (t2 & s2 & E2 & R2 & _ & _ & _ & _ & Out2 & D2 & F2 & P2 & Sp2).
  { intros q Hq. change (fs s1) with f1. unfold f1. rewrite lookup_insert_ne; [now apply Hfree|].
    intros <-. specialize (Gout []). rewrite app_nil_r in Gout. congruence. }
  { exact (stat_mono _ _ _ _ Sub1 Hpar). }
  { exact Hbb. }
  { intros p Hp. change (fs s1) with f1. unfold f1. rewrite lookup_insert_ne; [now apply Hbefore|].
    assert (Hin : In p busybox_paths) by (rewrite Hbb; apply in_or_app; now left).
    destruct (busybox_path_shape p Hin) as (_ & a & b & Hp' & _ & Ha).
    rewrite Hp', Hg. intros [= E _]. apply Ha. now symmetry. }
  { exact (stat_mono _ _ _ _ Sub1 Hsrc). }
  { change (fs s1) with f1. unfold f1. rewrite lookup_insert_ne; [exact Hbash|].
    rewrite Hg. discriminate. }
  simpl in P2, Sp2.
  (* enrolment *)
  assert (G2 : fs s2 !! g = Some (limited_group (memory_mb cfg) (cpu_percent cfg))).
  { rewrite Out2.
    - change (fs s1) with f1. unfold f1. apply lookup_insert_eq.
    - specialize (Gout []). now rewrite app_nil_r in Gout. }
  assert (Pr2 : fs s2 !! (g ++ ["cgroup.procs"]) = None).
  { rewrite Out2 by apply Gout. change (fs s1) with f1. unfold f1.
    assert (Hne : g ++ ["cgroup.procs"] <> g).
    { intros E. apply (f_equal List.length) in E. rewrite length_app in E. simpl in E. lia. }
    rewrite lookup_insert_ne by (intros E; apply Hne; now symmetry).
    apply (childless_absent _ g); [exact Cg|apply under_app|exact Hne]. }
  set (files := <["cpu.max" := Py.str (cpu_percent cfg * 1000) +:+ " 100000"]>
                (<["memory.max" := Py.str (memory_mb cfg * 1024 * 1024)]> ∅)) in *.
  set (f3 := <[g := CGroup files [pid s]]> (fs s2)).
  set (s3 := set_fs f3 s2).
  assert (E3 : CGroupManager_add_process (cgroup self) (pid s) s2
               = ([Call "CGroupManager.add_process";
                   Sys (WriteText (g ++ ["cgroup.procs"]) (Py.str (pid s))) None],
                  s3, Ret tt)).
  { unfold CGroupManager_add_process, Path_write_text. apply step_emit.
    change (cg_path (cgroup self) // "cgroup.procs") with (g ++ ["cgroup.procs"]).
    apply syscall_ok; [exact F2|]. apply on_fs_ok.
    exact (write_procs _ _ _ _ _ G2 Gne Pr2). }
  (* the steps of [run] *)
  set (o := spawn s (launch_argv root (command cfg))).
  assert (Esteps : exists t, Container_run_steps self s0
                     = (t, s3, launch_result (launch_argv root (command cfg)) o)).
  { assert (Etail : exists t,
      (result <- subprocess_run (launch_argv root (command (config self))) ;;
       ret (returncode result)) s3
      = (t, s3, launch_result (launch_argv root (command cfg)) o)).
    { rewrite step_bind_run. change (spawn s3) with (spawn s2). rewrite Sp2.
      change (command (config self)) with (command cfg). fold o.
      destruct o; eexists; reflexivity. }
    destruct Etail as (t & Etail).
    eexists. unfold Container_run_steps.
    eapply step_bind; [exact E1|].
    eapply step_bind; [exact E2|].
    unfold print. apply step_emit. unfold os_getpid. rewrite step_get, P2.
    eapply step_bind; [exact E3|]. exact Etail. }
  destruct Esteps as (t & Esteps).
  (* the clean-up *)
  assert (G3 : f3 !! g = Some (CGroup files [pid s])) by apply lookup_insert_eq.
  assert (E4 : CGroupManager_cleanup (cgroup self) s3
               = ([Call "CGroupManager.cleanup"; Sys (Rmdir g) (Some EBUSY)], s3, Ret tt)).
  { unfold CGroupManager_cleanup, Path_rmdir. apply step_emit.
    change (cg_path (cgroup self)) with g.
    unfold try_except, syscall, pop_fault. change (faults s3) with (faults s2).
    rewrite F2. unfold on_fs, rmdir_sem. change (fs s3) with f3.
    destruct g as [|a g']; [congruence|]. rewrite G3. reflexivity. }
  assert (D3 : lstat f3 root = Some Dir).
  { rewrite Hr. simpl. rewrite <- Hr. unfold f3. rewrite lookup_insert_ne; [exact D2|].
    intros <-. specialize (Gout []). rewrite app_nil_r, under_refl in Gout. discriminate. }
  set (f5 := filter (fun kv => under root kv.1 = false) f3).
  set (s5 := set_fs f5 s3).
  assert (E5 : RootFSManager_cleanup (rootfs_mgr self) s3
               = ([Call "RootFSManager.cleanup"; Sys (Rmtree root) None], s5, Ret tt)).
  { pose proof (rootfs_cleanup_cases (rootfs_mgr self) s3) as C.
    change (rootfs s3) with (rootfs s2) in C. rewrite R2 in C.
    unfold exists_ in C. change (fs s3) with f3 in C.
    rewrite (stat_lstat _ _ _ D3) in C; [|intros ?; discriminate].
    rewrite C.
    assert (E : shutil_rmtree root s3 = ([Sys (Rmtree root) None], s5, Ret tt)).
    { apply syscall_ok; [exact F2|]. apply on_fs_ok.
      unfold rmtree_sem. change (fs s3) with f3. rewrite D3. reflexivity. }
    rewrite E. reflexivity. }
  assert (E6 : exists t', Container__cleanup self s3 = (t', s5, Ret tt)).
  { eexists. unfold Container__cleanup, print. do 4 apply step_emit.
    eapply step_bind; [exact E4|].
    eapply step_bind; [exact E5|]. reflexivity. }
  destruct E6 as (t' & E6).
  destruct (run_unfold self s0) as (th & _ & _ & Fin & Out). cbv zeta in Fin, Out.
  rewrite Esteps in Fin, Out. cbn [outcome final fst snd] in Fin, Out.
  rewrite E6 in Fin, Out. cbn [outcome final fst snd] in Fin, Out.
  rewrite Fin, Out.
  split.
  { destruct o; simpl; try reflexivity. unfold spawn_error. now destruct (existsb _ _). }
  change (fs s5) with f5. apply map_eq. intros q.
  destruct (under root q) eqn:U.
  - assert (Q : q <> g).
    { intros ->. specialize (Gout []). rewrite app_nil_r in Gout. congruence. }
    rewrite lookup_insert_ne by congruence. rewrite (Hfree q U).
    apply map_lookup_filter_None. right. intros n _. simpl. congruence.
  - transitivity (f3 !! q).
    + destruct (f3 !! q) as [n|] eqn:L.
      * apply map_lookup_filter_Some. split; [exact L|exact U].
      * apply map_lookup_filter_None. left. exact L.
    + unfold f3. destruct (decide (g = q)) as [<-|Q].
      * now rewrite !lookup_insert_eq.
      * rewrite !lookup_insert_ne by exact Q. rewrite (Out2 q U). change (fs s1) with f1. unfold f1.
        now rewrite lookup_insert_ne by exact Q.
Qed.

Lemma healthy_run_leaves_group_witness :
  outcome (container_main Sample.cfg Cli.host_without_bash) = Ret 0 /\
  fs (final (container_main Sample.cfg Cli.host_without_bash)) =
    <[cg_path (CGroupManager_init "demo") :=
        CGroup (<["cpu.max" := Py.str (cpu_percent Sample.cfg * 1000) +:+ " 100000"]>
                (<["memory.max" := Py.str (memory_mb Sample.cfg * 1024 * 1024)]> ∅))
               [4242]]> (fs Cli.host_without_bash).
Proof.
  apply (healthy_run_leaves_group Sample.cfg Cli.host_without_bash "k3x9"
           "/usr/bin/busybox" "busybox-elf" []
           ["/bin/busybox"; "/usr/bin/busybox-static"] ∅ []).
  - reflexivity.
  - exists []. reflexivity.
  - vm_compute. reflexivity.
  - apply (@bool_decide_unpack _ _). vm_compute. exact I.
  - vm_compute. reflexivity.
  - apply free_below. apply (@bool_decide_unpack _ _). vm_compute. exact I.
  - vm_compute. reflexivity.
  - reflexivity.
  - intros p [].
  - vm_compute. reflexivity.
  - vm_compute. reflexivity.
Defined.
